(** * A user CRUD service behind an authorization interceptor

    Shallow embedding of [server/interceptor.go], [server/main.go] and the
    token issuer ([generateToken]) of the gRPC user service, together with
    models of the library code they call: [unicode/utf8], [strings],
    [encoding/base64], [encoding/json] on the [Claims] structure, and the
    compact HS256 serialization of [github.com/golang-jwt/jwt/v5].

    Go strings are sequences of bytes: they are embedded as [string], whose
    characters are the 256 values of [ascii]. *)

From Stdlib Require Import ZArith String Ascii List Lia Bool.
From Stdlib Require Import DecimalString DecimalZ DecimalPos.
From stdpp Require Import gmap strings list.

Open Scope string_scope.
Open Scope Z_scope.

(** ** Bytes *)

Definition byteval (c : ascii) : Z := Z.of_N (N_of_ascii c).
Definition bytechr (z : Z) : ascii := ascii_of_N (Z.to_N (z mod 256)).

(** [s[n:]] for [n <= len(s)] *)
Fixpoint string_drop (n : nat) (s : string) : string :=
  match n, s with
  | O, _ => s
  | S n', String _ s' => string_drop n' s'
  | S _, EmptyString => EmptyString
  end.

(** [s[:n]] for [n <= len(s)] *)
Fixpoint string_take (n : nat) (s : string) : string :=
  match n, s with
  | O, _ => EmptyString
  | S n', String c s' => String c (string_take n' s')
  | S _, EmptyString => EmptyString
  end.

Fixpoint string_map (f : ascii -> ascii) (s : string) : string :=
  match s with
  | EmptyString => EmptyString
  | String c s' => String (f c) (string_map f s')
  end.

Fixpoint string_forallb (p : ascii -> bool) (s : string) : bool :=
  match s with
  | EmptyString => true
  | String c s' => p c && string_forallb p s'
  end.

(** ** unicode/utf8 *)

Module utf8.

Definition RuneError : Z := 0xFFFD.
Definition RuneSelf : Z := 0x80.
Definition MaxRune : Z := 0x10FFFF.

Definition between (lo hi b : Z) : bool := (lo <=? b) && (b <=? hi).

(** Continuation byte, [10xxxxxx]. *)
Definition cont (b : Z) : bool := between 0x80 0xBF b.

(** The range accepted for the second byte, by leading byte: it excludes
    over-long forms, surrogates and values above [MaxRune]. *)
Definition second3 (b0 b1 : Z) : bool :=
  if b0 =? 0xE0 then between 0xA0 0xBF b1
  else if b0 =? 0xED then between 0x80 0x9F b1
  else cont b1.

Definition second4 (b0 b1 : Z) : bool :=
  if b0 =? 0xF0 then between 0x90 0xBF b1
  else if b0 =? 0xF4 then between 0x80 0x8F b1
  else cont b1.

(** [utf8.DecodeRuneInString]: the first rune of [s] and its width in
    bytes; [(RuneError, 0)] on the empty string and [(RuneError, 1)] on an
    invalid encoding. *)
Definition DecodeRuneInString (s : string) : Z * nat :=
  match s with
  | EmptyString => (RuneError, 0%nat)
  | String c0 s1 =>
    let b0 := byteval c0 in
    if b0 <? RuneSelf then (b0, 1%nat)
    else if between 0xC2 0xDF b0 then
      match s1 with
      | String c1 _ =>
        let b1 := byteval c1 in
        if cont b1 then ((b0 mod 32) * 64 + b1 mod 64, 2%nat)
        else (RuneError, 1%nat)
      | _ => (RuneError, 1%nat)
      end
    else if between 0xE0 0xEF b0 then
      match s1 with
      | String c1 (String c2 _) =>
        let b1 := byteval c1 in
        let b2 := byteval c2 in
        if second3 b0 b1 && cont b2
        then ((b0 mod 16) * 4096 + (b1 mod 64) * 64 + b2 mod 64, 3%nat)
        else (RuneError, 1%nat)
      | _ => (RuneError, 1%nat)
      end
    else if between 0xF0 0xF4 b0 then
      match s1 with
      | String c1 (String c2 (String c3 _)) =>
        let b1 := byteval c1 in
        let b2 := byteval c2 in
        let b3 := byteval c3 in
        if second4 b0 b1 && cont b2 && cont b3
        then ((b0 mod 8) * 262144 + (b1 mod 64) * 4096
              + (b2 mod 64) * 64 + b3 mod 64, 4%nat)
        else (RuneError, 1%nat)
      | _ => (RuneError, 1%nat)
      end
    else (RuneError, 1%nat)
  end.

Definition enc3 (r : Z) : string :=
  String (bytechr (0xE0 + r / 4096))
    (String (bytechr (0x80 + (r / 64) mod 64))
      (String (bytechr (0x80 + r mod 64)) EmptyString)).

(** [utf8.AppendRune(nil, r)]: negative runes, surrogates and runes above
    [MaxRune] are written as [RuneError]. *)
Definition EncodeRune (r : Z) : string :=
  if between 0 0x7F r then String (bytechr r) EmptyString
  else if between 0 0x7FF r then
    String (bytechr (0xC0 + r / 64))
      (String (bytechr (0x80 + r mod 64)) EmptyString)
  else if (r <? 0) || (MaxRune <? r) || between 0xD800 0xDFFF r
  then enc3 RuneError
  else if r <=? 0xFFFF then enc3 r
  else
    String (bytechr (0xF0 + r / 262144))
      (String (bytechr (0x80 + (r / 4096) mod 64))
        (String (bytechr (0x80 + (r / 64) mod 64))
          (String (bytechr (0x80 + r mod 64)) EmptyString))).

(** The runes of a string in order, as [for _, c := range s] yields them,
    each with its width. The fuel bounds the number of runes; the length of
    the string is always enough. *)
Fixpoint runes_fuel (fuel : nat) (s : string) : list (Z * nat) :=
  match fuel, s with
  | _, EmptyString => []
  | O, _ => []
  | S fuel', _ =>
    let '(r, w) := DecodeRuneInString s in
    (r, w) :: runes_fuel fuel' (string_drop w s)
  end.

Definition runes (s : string) : list (Z * nat) :=
  runes_fuel (String.length s) s.

(** No rune of the list comes from an invalid encoding. *)
Definition validRunes (l : list (Z * nat)) : bool :=
  forallb (fun rw => negb ((fst rw =? RuneError) && (snd rw =? 1)%nat)) l.

(** [utf8.ValidString] *)
Definition ValidString (s : string) : bool := validRunes (runes s).

End utf8.

(** ** unicode and strings *)

Module strings.

Import utf8.

Definition isASCII (s : string) : bool :=
  string_forallb (fun c => byteval c <? RuneSelf) s.

Definition upperByte (c : ascii) : ascii :=
  if between 97 122 (byteval c) then bytechr (byteval c - 32) else c.

Definition lowerByte (c : ascii) : ascii :=
  if between 65 90 (byteval c) then bytechr (byteval c + 32) else c.

Section CaseTables.

(** The case mappings of the runes above [unicode.MaxASCII] are data of
    the Go runtime ([unicode.CaseRanges]); they are parameters here. *)
Variable upperTable lowerTable : Z -> Z.

(** [unicode.ToUpper]. The replacement character has no case. *)
Definition unicode_ToUpper (r : Z) : Z :=
  if r <=? 0x7F then (if between 97 122 r then r - 32 else r)
  else if r =? RuneError then RuneError
  else upperTable r.

(** [unicode.ToLower] *)
Definition unicode_ToLower (r : Z) : Z :=
  if r <=? 0x7F then (if between 65 90 r then r + 32 else r)
  else if r =? RuneError then RuneError
  else lowerTable r.

(** [strings.Map]: every rune of [s], invalid bytes read as [RuneError],
    is replaced by its image; a negative image drops the rune. *)
Definition appendMapped (mapping : Z -> Z) (rw : Z * nat) (acc : string)
  : string :=
  let r := mapping (fst rw) in
  if 0 <=? r then EncodeRune r +:+ acc else acc.

Definition Map (mapping : Z -> Z) (s : string) : string :=
  fold_right (appendMapped mapping) EmptyString (runes s).

(** [strings.ToUpper]: bytewise on ASCII strings, [Map] otherwise. *)
Definition ToUpper (s : string) : string :=
  if isASCII s then string_map upperByte s else Map unicode_ToUpper s.

(** [strings.ToLower] *)
Definition ToLower (s : string) : string :=
  if isASCII s then string_map lowerByte s else Map unicode_ToLower s.

End CaseTables.

End strings.

(** ** gRPC status codes, errors, metadata *)

Module codes.
Inductive Code :=
| OK | Unknown | NotFound | PermissionDenied | Internal | Unauthenticated.
End codes.

(** Errors of [database/sql] and of the PostgreSQL driver that the statements
    of the service can raise. *)
Inductive sqlError :=
| ErrNoRows          (* sql: no rows in result set *)
| ErrScanNull        (* converting NULL to string is unsupported *)
| ErrUniqueViolation (* pq: duplicate key value violates unique constraint *).

Definition sqlError_Error (e : sqlError) : string :=
  match e with
  | ErrNoRows => "sql: no rows in result set"
  | ErrScanNull => "sql: Scan error: converting NULL to string is unsupported"
  | ErrUniqueViolation => "pq: duplicate key value violates unique constraint"
  end.

(** A Go [error] value as the handlers and the interceptor return it: either
    built by [status.Errorf], an error of the store returned as it is, or
    another error value. *)
Inductive error :=
| status_Errorf (c : codes.Code) (msg : string)
| raw_error (e : sqlError)
| errors_New (msg : string).

(** [metadata.MD] is a [map[string][]string]. *)
Definition MD_get (md : gmap string (list string)) (k : string) : list string :=
  default [] (md !! k).

(** The part of [context.Context] that the interceptor reads:
    [metadata.FromIncomingContext] returns the container and whether there
    is one. *)
Record Context := { incomingMD : option (gmap string (list string)) }.

Record UnaryServerInfo := { FullMethod : string }.

(** Lookup in a [map[string]bool]: a missing key reads [false]. *)
Definition is_Some_b {A} (o : option A) : bool :=
  match o with Some _ => true | None => false end.

Definition map_bool_get (m : gmap string bool) (k : string) : bool :=
  default false (m !! k).

(** ** encoding/base64, [RawURLEncoding] *)

Module base64.

Definition encodeURL : string :=
  "ABCDEFGHIJKLMNOPQRSTUVWXYZabcdefghijklmnopqrstuvwxyz0123456789-_".

(** The character of a 6-bit value. *)
Definition enc6 (i : Z) : ascii :=
  match String.get (Z.to_nat i) encodeURL with
  | Some c => c
  | None => "A"%char
  end.

(** The 6-bit value of a character of the alphabet. *)
Definition dec6 (c : ascii) : option Z :=
  let b := byteval c in
  if utf8.between 65 90 b then Some (b - 65)
  else if utf8.between 97 122 b then Some (b - 97 + 26)
  else if utf8.between 48 57 b then Some (b - 48 + 52)
  else if b =? 45 then Some 62
  else if b =? 95 then Some 63
  else None.

(** [RawURLEncoding.EncodeToString]: three bytes give four characters; a
    rest of one or two bytes gives two or three characters, unpadded. *)
Fixpoint EncodeToString (s : string) : string :=
  match s with
  | EmptyString => EmptyString
  | String a EmptyString =>
    let x := byteval a in
    String (enc6 (x / 4)) (String (enc6 ((x mod 4) * 16)) EmptyString)
  | String a (String b EmptyString) =>
    let x := byteval a in
    let y := byteval b in
    String (enc6 (x / 4))
      (String (enc6 ((x mod 4) * 16 + y / 16))
        (String (enc6 ((y mod 16) * 4)) EmptyString))
  | String a (String b (String c rest)) =>
    let x := byteval a in
    let y := byteval b in
    let z := byteval c in
    String (enc6 (x / 4))
      (String (enc6 ((x mod 4) * 16 + y / 16))
        (String (enc6 ((y mod 16) * 4 + z / 64))
          (String (enc6 (z mod 64)) (EncodeToString rest))))
  end.

(** Decoding of the quanta, after the line breaks have been removed. The
    bits left over in a final short quantum are dropped (the decoder is not
    strict); one lone character or any character outside the alphabet,
    the padding character included, is a [CorruptInputError]. *)
Fixpoint decodeQuanta (s : string) : option string :=
  match s with
  | EmptyString => Some EmptyString
  | String _ EmptyString => None
  | String a (String b EmptyString) =>
    match dec6 a, dec6 b with
    | Some i, Some j => Some (String (bytechr (i * 4 + j / 16)) EmptyString)
    | _, _ => None
    end
  | String a (String b (String c EmptyString)) =>
    match dec6 a, dec6 b, dec6 c with
    | Some i, Some j, Some k =>
      Some (String (bytechr (i * 4 + j / 16))
             (String (bytechr ((j mod 16) * 16 + k / 4)) EmptyString))
    | _, _, _ => None
    end
  | String a (String b (String c (String d rest))) =>
    match dec6 a, dec6 b, dec6 c, dec6 d with
    | Some i, Some j, Some k, Some l =>
      match decodeQuanta rest with
      | Some t =>
        Some (String (bytechr (i * 4 + j / 16))
               (String (bytechr ((j mod 16) * 16 + k / 4))
                 (String (bytechr ((k mod 4) * 64 + l)) t)))
      | None => None
      end
    | _, _, _, _ => None
    end
  end.

Fixpoint stripNewlines (s : string) : string :=
  match s with
  | EmptyString => EmptyString
  | String c s' =>
    if (byteval c =? 10) || (byteval c =? 13) then stripNewlines s'
    else String c (stripNewlines s')
  end.

(** [RawURLEncoding.DecodeString]: carriage returns and line feeds in the
    input are ignored. *)
Definition DecodeString (s : string) : option string :=
  decodeQuanta (stripNewlines s).

End base64.

(** ** encoding/json on the claims *)

Module json.

Import utf8.

Definition dquote : ascii := "034"%char.
Definition backslash : ascii := "092"%char.

Definition hex : string := "0123456789abcdef".

Definition hexchar (i : Z) : ascii :=
  match String.get (Z.to_nat i) hex with
  | Some c => c
  | None => "0"%char
  end.

(** [htmlSafeSet]: the ASCII bytes that are written as they are. *)
Definition htmlSafe (b : Z) : bool :=
  (0x20 <=? b) && (b <? 0x80)
  && negb ((b =? 0x22) || (b =? 0x26) || (b =? 0x3C) || (b =? 0x3E)
           || (b =? 0x5C)).

(** The escape of an ASCII byte outside [htmlSafeSet]. *)
Definition escapeByte (c : ascii) : string :=
  let b := byteval c in
  if (b =? 0x5C) || (b =? 0x22) then String backslash (String c EmptyString)
  else if b =? 8 then String backslash "b"
  else if b =? 12 then String backslash "f"
  else if b =? 10 then String backslash "n"
  else if b =? 13 then String backslash "r"
  else if b =? 9 then String backslash "t"
  else String backslash
         (String "u" (String "0" (String "0"
           (String (hexchar (b / 16))
             (String (hexchar (b mod 16)) EmptyString))))).

(** The body of [appendString] with HTML escaping, as [json.Marshal] uses
    it: invalid UTF-8 is written as the escape of [RuneError], the line
    and paragraph separators are escaped, every other rune is copied. *)
Fixpoint appendString_fuel (fuel : nat) (s : string) : string :=
  match fuel, s with
  | _, EmptyString => EmptyString
  | O, _ => EmptyString
  | S fuel', String c s1 =>
    if byteval c <? RuneSelf then
      (if htmlSafe (byteval c) then String c EmptyString else escapeByte c)
      +:+ appendString_fuel fuel' s1
    else
      let '(r, w) := DecodeRuneInString s in
      if (r =? RuneError) && (w =? 1)%nat then
        String backslash "ufffd" +:+ appendString_fuel fuel' s1
      else if (r =? 0x2028) || (r =? 0x2029) then
        String backslash "u202" +:+ String (hexchar (r mod 16)) EmptyString
        +:+ appendString_fuel fuel' (string_drop w s)
      else string_take w s +:+ appendString_fuel fuel' (string_drop w s)
  end.

Definition appendString (s : string) : string :=
  appendString_fuel (String.length s) s.

(** A Go string as a JSON string literal. *)
Definition quote (s : string) : string :=
  String dquote (appendString s +:+ String dquote EmptyString).

(** [strconv.FormatInt(n, 10)] *)
Definition FormatInt (n : Z) : string := NilZero.string_of_int (Z.to_int n).

(** *** Decoding

    The decoder is modelled on compact documents: one object whose members
    are strings or whole numbers in the decimal form [FormatInt] writes.
    The library accepts more (white space, nested values, fractions and
    exponents); on those inputs the model answers [None] as for a malformed
    document. *)

Inductive value :=
| String_ (s : string)
| Number (n : Z).

(** The extent of a string literal: [s] starts after the opening quote; the
    result is the text up to the closing quote and what follows it. *)
Fixpoint scanString (s : string) : option (string * string) :=
  match s with
  | EmptyString => None
  | String c s1 =>
    if Ascii.eqb c dquote then Some (EmptyString, s1)
    else if byteval c <? 0x20 then None
    else if Ascii.eqb c backslash then
      match s1 with
      | EmptyString => None
      | String d s2 =>
        match scanString s2 with
        | Some (lit, rest) => Some (String c (String d lit), rest)
        | None => None
        end
      end
    else
      match scanString s1 with
      | Some (lit, rest) => Some (String c lit, rest)
      | None => None
      end
  end.

Definition hexval (c : ascii) : option Z :=
  let b := byteval c in
  if between 48 57 b then Some (b - 48)
  else if between 97 102 b then Some (b - 97 + 10)
  else if between 65 70 b then Some (b - 65 + 10)
  else None.

(** [getu4]: the rune of four hexadecimal digits. *)
Definition getu4 (s : string) : option Z :=
  match s with
  | String a (String b (String c (String d _))) =>
    match hexval a, hexval b, hexval c, hexval d with
    | Some x, Some y, Some z, Some t => Some (x * 4096 + y * 256 + z * 16 + t)
    | _, _, _, _ => None
    end
  | _ => None
  end.

(** [utf16.DecodeRune] *)
Definition utf16_DecodeRune (r1 r2 : Z) : Z :=
  if between 0xD800 0xDBFF r1 && between 0xDC00 0xDFFF r2
  then (r1 - 0xD800) * 1024 + (r2 - 0xDC00) + 0x10000
  else RuneError.

(** The second half of a surrogate pair, when [s] starts with its escape. *)
Definition lowSurrogate (s : string) : option Z :=
  match s with
  | String c (String u s') =>
    if Ascii.eqb c backslash && (byteval u =? 117) then getu4 s' else None
  | _ => None
  end.

(** [unquote]: the Go string of the text of a literal. *)
Fixpoint unquote_fuel (fuel : nat) (s : string) : option string :=
  match fuel, s with
  | _, EmptyString => Some EmptyString
  | O, _ => None
  | S fuel', String c s1 =>
    let b := byteval c in
    if Ascii.eqb c backslash then
      match s1 with
      | EmptyString => None
      | String d s2 =>
        let e := byteval d in
        let simple (x : Z) :=
          option_map (String (bytechr x)) (unquote_fuel fuel' s2) in
        if (e =? 0x22) || (e =? 0x5C) || (e =? 0x2F) then simple e
        else if e =? 98 then simple 8
        else if e =? 102 then simple 12
        else if e =? 110 then simple 10
        else if e =? 114 then simple 13
        else if e =? 116 then simple 9
        else if e =? 117 then
          match getu4 s2 with
          | None => None
          | Some rr =>
            let s3 := string_drop 4 s2 in
            if between 0xD800 0xDFFF rr then
              match lowSurrogate s3 with
              | Some rr1 =>
                if utf16_DecodeRune rr rr1 =? RuneError then
                  option_map (String.append (EncodeRune RuneError))
                             (unquote_fuel fuel' s3)
                else
                  option_map
                    (String.append (EncodeRune (utf16_DecodeRune rr rr1)))
                    (unquote_fuel fuel' (string_drop 6 s3))
              | None =>
                option_map (String.append (EncodeRune RuneError))
                           (unquote_fuel fuel' s3)
              end
            else
              option_map (String.append (EncodeRune rr))
                         (unquote_fuel fuel' s3)
          end
        else None
      end
    else if Ascii.eqb c dquote || (b <? 0x20) then None
    else if b <? RuneSelf then
      option_map (String c) (unquote_fuel fuel' s1)
    else
      let '(r, w) := DecodeRuneInString s in
      option_map (String.append (EncodeRune r))
                 (unquote_fuel fuel' (string_drop w s))
  end.

Definition unquote (s : string) : option string :=
  unquote_fuel (String.length s) s.

Definition isNumChar (c : ascii) : bool :=
  between 48 57 (byteval c) || (byteval c =? 45).

(** The longest prefix of digits and signs, and the rest. *)
Fixpoint spanNumber (s : string) : string * string :=
  match s with
  | EmptyString => (EmptyString, EmptyString)
  | String c s' =>
    if isNumChar c
    then let '(lit, rest) := spanNumber s' in (String c lit, rest)
    else (EmptyString, s)
  end.

(** A whole number in the form [FormatInt] writes. *)
Definition parseInt (lit : string) : option Z :=
  match NilZero.int_of_string lit with
  | Some d => if String.eqb (FormatInt (Z.of_int d)) lit
              then Some (Z.of_int d) else None
  | None => None
  end.

Definition parseValue (s : string) : option (value * string) :=
  match s with
  | EmptyString => None
  | String c s1 =>
    if Ascii.eqb c dquote then
      match scanString s1 with
      | Some (lit, rest) =>
        match unquote lit with
        | Some v => Some (String_ v, rest)
        | None => None
        end
      | None => None
      end
    else
      let '(lit, rest) := spanNumber s in
      match rest with
      | String d _ =>
        if (byteval d =? 46) || (byteval d =? 101) || (byteval d =? 69)
        then None
        else match parseInt lit with
             | Some n => Some (Number n, rest)
             | None => None
             end
      | EmptyString => None
      end
  end.

(** The members of an object after its opening brace, in order. *)
Fixpoint parseMembers (fuel : nat) (s : string)
  : option (list (string * value)) :=
  match fuel with
  | O => None
  | S fuel' =>
    match s with
    | String q s1 =>
      if Ascii.eqb q dquote then
        match scanString s1 with
        | Some (klit, String colon s2) =>
          if byteval colon =? 58 then
            match unquote klit, parseValue s2 with
            | Some k, Some (v, String sep s3) =>
              if byteval sep =? 44 then
                option_map (cons (k, v)) (parseMembers fuel' s3)
              else if (byteval sep =? 125) && String.eqb s3 EmptyString
              then Some [(k, v)]
              else None
            | _, _ => None
            end
          else None
        | _ => None
        end
      else None
    | EmptyString => None
    end
  end.

Definition parseObject (s : string) : option (list (string * value)) :=
  match s with
  | String o s1 =>
    if byteval o =? 123 then
      if String.eqb s1 "}" then Some [] else parseMembers (String.length s) s1
    else None
  | EmptyString => None
  end.

End json.

(** ** The claims of a token

    [type Claims struct { Email; Role; jwt.RegisteredClaims }]. Of the
    registered claims the service writes [exp]; verification also reads
    [nbf]. A [NumericDate] is kept as whole seconds since the Unix epoch. *)

Record RegisteredClaims := {
  ExpiresAt : option Z;
  NotBefore : option Z
}.

Record Claims := {
  Email : string;
  Role : string;
  Registered : RegisteredClaims
}.

(** Instants are nanoseconds since the Unix epoch. *)
Definition Second : Z := 1000000000.
Definition Hour : Z := 3600 * Second.

(** ** github.com/golang-jwt/jwt/v5, HMAC signing methods *)

Module jwt.

Inductive SigningMethod := HS256 | HS384 | HS512.

Definition Alg (m : SigningMethod) : string :=
  match m with
  | HS256 => "HS256"
  | HS384 => "HS384"
  | HS512 => "HS512"
  end.

(** [GetSigningMethod], restricted to the methods that accept a [[]byte]
    key: with such a key every other registered method fails to verify. *)
Definition GetSigningMethod (alg : string) : option SigningMethod :=
  if String.eqb alg "HS256" then Some HS256
  else if String.eqb alg "HS384" then Some HS384
  else if String.eqb alg "HS512" then Some HS512
  else None.

Inductive Error :=
| ErrTokenMalformed
| ErrTokenUnverifiable
| ErrTokenSignatureInvalid
| ErrTokenExpired
| ErrTokenNotValidYet.

(** What [ParseWithClaims] leaves behind: the [Valid] flag of the token, the
    claims it filled in, and the error. *)
Record Parsed := {
  Valid : bool;
  claims : Claims;
  err : option Error
}.

(** [NewNumericDate]: the instant truncated to the second. *)
Definition NewNumericDate (t : Z) : Z := t / Second.

Definition zeroClaims : Claims :=
  {| Email := EmptyString; Role := EmptyString;
     Registered := {| ExpiresAt := None; NotBefore := None |} |}.

(** [json.Marshal] of a token header: the keys of a map are sorted. *)
Definition marshalHeader (m : SigningMethod) : string :=
  "{" +:+ json.quote "alg" +:+ ":" +:+ json.quote (Alg m) +:+ ","
  +:+ json.quote "typ" +:+ ":" +:+ json.quote "JWT" +:+ "}".

Definition marshalDate (name : string) (d : option Z) : string :=
  match d with
  | Some n => "," +:+ json.quote name +:+ ":" +:+ json.FormatInt n
  | None => EmptyString
  end.

(** [json.Marshal] of [Claims]: the fields in declaration order, the dates
    omitted when nil. *)
Definition marshalClaims (c : Claims) : string :=
  "{" +:+ json.quote "email" +:+ ":" +:+ json.quote (Email c) +:+ ","
  +:+ json.quote "role" +:+ ":" +:+ json.quote (Role c)
  +:+ marshalDate "exp" (ExpiresAt (Registered c))
  +:+ marshalDate "nbf" (NotBefore (Registered c)) +:+ "}".

(** Field names are matched without regard to case. *)
Definition foldEq (k name : string) : bool :=
  String.eqb (string_map strings.lowerByte k) name.

(** A [NumericDate] is read through a [float64]: whole seconds are exact up
    to [2^53]; larger ones are outside the model. *)
Definition readDate (v : json.value) : option Z :=
  match v with
  | json.Number n => if Z.abs n <=? 2 ^ 53 then Some n else None
  | json.String_ _ => None
  end.

Definition readString (v : json.value) : option string :=
  match v with
  | json.String_ s => Some s
  | json.Number _ => None
  end.

(** One member of the claims object stored into the structure. A member of
    another type than its field is reported as malformed; unknown members
    are ignored. *)
Definition setField (c : Claims) (kv : string * json.value) : option Claims :=
  let '(k, v) := kv in
  if foldEq k "email" then
    option_map (fun s => {| Email := s; Role := Role c;
                            Registered := Registered c |}) (readString v)
  else if foldEq k "role" then
    option_map (fun s => {| Email := Email c; Role := s;
                            Registered := Registered c |}) (readString v)
  else if foldEq k "exp" then
    option_map (fun n => {| Email := Email c; Role := Role c;
                            Registered :=
                              {| ExpiresAt := Some n;
                                 NotBefore := NotBefore (Registered c) |} |})
               (readDate v)
  else if foldEq k "nbf" then
    option_map (fun n => {| Email := Email c; Role := Role c;
                            Registered :=
                              {| ExpiresAt := ExpiresAt (Registered c);
                                 NotBefore := Some n |} |})
               (readDate v)
  else if foldEq k "iat" then option_map (fun _ => c) (readDate v)
  else if foldEq k "iss" || foldEq k "sub" || foldEq k "jti" || foldEq k "aud"
  then option_map (fun _ => c) (readString v)
  else Some c.

Fixpoint setFields (c : Claims) (kvs : list (string * json.value))
  : option Claims :=
  match kvs with
  | [] => Some c
  | kv :: rest =>
    match setField c kv with
    | Some c' => setFields c' rest
    | None => None
    end
  end.

(** [json.Unmarshal(data, &claims)] *)
Definition unmarshalClaims (data : string) : option Claims :=
  match json.parseObject data with
  | Some kvs => setFields zeroClaims kvs
  | None => None
  end.

(** The value of the last member named [k]. *)
Fixpoint lookupLast (k : string) (kvs : list (string * json.value))
  : option json.value :=
  match kvs with
  | [] => None
  | (k', v) :: rest =>
    match lookupLast k rest with
    | Some v' => Some v'
    | None => if String.eqb k' k then Some v else None
    end
  end.

(** The pieces of [s] between the periods. *)
Fixpoint splitDot (s : string) : list string :=
  match s with
  | EmptyString => [EmptyString]
  | String c s' =>
    if byteval c =? 46 then EmptyString :: splitDot s'
    else match splitDot s' with
         | h :: t => String c h :: t
         | [] => [String c EmptyString]
         end
  end.

(** The validator: [exp] and [nbf] are checked when present, with no
    leeway; a token is good strictly before its expiry. *)
Definition validate (c : Claims) (now : Z) : option Error :=
  match ExpiresAt (Registered c) with
  | Some e => if now <? e * Second then
                match NotBefore (Registered c) with
                | Some n => if now <? n * Second
                            then Some ErrTokenNotValidYet else None
                | None => None
                end
              else Some ErrTokenExpired
  | None =>
    match NotBefore (Registered c) with
    | Some n => if now <? n * Second then Some ErrTokenNotValidYet else None
    | None => None
    end
  end.

Section Keyed.

(** [hmac.New(hash, key)] over a message, for the hash of each method. *)
Variable hmac : SigningMethod -> string -> string -> string.

(** [token.SigningString()] of [NewWithClaims(m, c)] *)
Definition SigningString (m : SigningMethod) (c : Claims) : string :=
  base64.EncodeToString (marshalHeader m) +:+ "."
  +:+ base64.EncodeToString (marshalClaims c).

(** [NewWithClaims(m, c).SignedString(key)] *)
Definition SignedString (m : SigningMethod) (c : Claims) (key : string)
  : string * option Error :=
  let sstr := SigningString m c in
  (sstr +:+ "." +:+ base64.EncodeToString (hmac m key sstr), None).

Definition failed (c : Claims) (e : Error) : Parsed :=
  {| Valid := false; claims := c; err := Some e |}.

(** [ParseWithClaims(tokenString, &Claims{}, keyFunc)] at the instant [now],
    for a key function that returns [key] whatever the token. *)
Definition ParseWithClaims (tokenString : string) (key : string) (now : Z)
  : Parsed :=
  match splitDot tokenString with
  | [p0; p1; p2] =>
    match base64.DecodeString p0 with
    | None => failed zeroClaims ErrTokenMalformed
    | Some headerBytes =>
      match json.parseObject headerBytes with
      | None => failed zeroClaims ErrTokenMalformed
      | Some header =>
        match base64.DecodeString p1 with
        | None => failed zeroClaims ErrTokenMalformed
        | Some claimBytes =>
          match unmarshalClaims claimBytes with
          | None => failed zeroClaims ErrTokenMalformed
          | Some c =>
            match lookupLast "alg" header with
            | Some (json.String_ alg) =>
              match GetSigningMethod alg with
              | None => failed c ErrTokenUnverifiable
              | Some m =>
                match base64.DecodeString p2 with
                | None => failed c ErrTokenMalformed
                | Some sig =>
                  if String.eqb sig (hmac m key (p0 +:+ "." +:+ p1)) then
                    match validate c now with
                    | Some e => failed c e
                    | None => {| Valid := true; claims := c; err := None |}
                    end
                  else failed c ErrTokenSignatureInvalid
                end
              end
            | _ => failed c ErrTokenUnverifiable
            end
          end
        end
      end
    end
  | _ => failed zeroClaims ErrTokenMalformed
  end.

End Keyed.

End jwt.

(** ** The messages of [user.proto]

    The generated package [userpb] is known through its uses: the fields
    below are the ones the service reads and writes. *)

Module pb.

Record User := {
  Id : Z;            (* int32 *)
  Name : string;
  Email : string;
  Role : string
}.

Record UserResponse := { User_ : User }.

Record RegisterRequest := {
  RegisterRequest_Name : string;
  RegisterRequest_Email : string;
  RegisterRequest_Password : string;
  RegisterRequest_Role : string
}.

Record LoginRequest := {
  LoginRequest_Email : string;
  LoginRequest_Password : string
}.

Record LoginResponse := { Token : string }.

Record CreateUserRequest := {
  CreateUserRequest_Name : string;
  CreateUserRequest_Email : string;
  CreateUserRequest_Role : string
}.

Record GetUserRequest := { GetUserRequest_Id : Z }.

Record UpdateUserRequest := {
  UpdateUserRequest_Id : Z;
  UpdateUserRequest_Name : string;
  UpdateUserRequest_Email : string
}.

Record DeleteUserRequest := { DeleteUserRequest_Id : Z }.

Record DeleteUserResponse := { Message : string }.

End pb.

(** ** The [users] table

    Modelled from the spec: the declaration of the table is not among the
    sources. The columns are those the statements name; [email] is unique
    (one record per email, a duplicate fails the insertion); [id] is
    assigned by the store from a sequence; [password] is NULL in rows
    inserted without it. The store is the relation itself, the rows in
    insertion order: a statement fails only on a constraint of the table,
    and the transport to the store is not modelled. *)

Module sql.

Record Row := {
  id : Z;
  name : string;
  email : string;
  password : option string;
  role : string
}.

Record DB := {
  users : list Row;
  users_id_seq : Z
}.

Definition hasEmail (e : string) (r : Row) : bool := String.eqb (email r) e.
Definition hasId (i : Z) (r : Row) : bool := id r =? i.

(** [INSERT INTO users(name, email, password, role) VALUES (...) RETURNING
    id], scanned into an [int]. The sequence advances even when the row is
    refused. *)
Definition insertUser (n e : string) (p : option string) (r : string)
  (d : DB) : (Z + sqlError) * DB :=
  let i := users_id_seq d + 1 in
  if existsb (hasEmail e) (users d)
  then (inr ErrUniqueViolation, {| users := users d; users_id_seq := i |})
  else (inl i,
        {| users := users d ++ [{| id := i; name := n; email := e;
                                   password := p; role := r |}];
           users_id_seq := i |}).

(** [SELECT password, role FROM users WHERE email=$1], scanned into two
    strings: a NULL password cannot be scanned. *)
Definition selectPasswordRole (e : string) (d : DB)
  : (string * string) + sqlError :=
  match find (hasEmail e) (users d) with
  | None => inr ErrNoRows
  | Some r =>
    match password r with
    | None => inr ErrScanNull
    | Some p => inl (p, role r)
    end
  end.

(** [SELECT id, name, email, role FROM users WHERE id=$1] *)
Definition selectUser (i : Z) (d : DB) : Row + sqlError :=
  match find (hasId i) (users d) with
  | None => inr ErrNoRows
  | Some r => inl r
  end.

Definition setNameEmail (n e : string) (i : Z) (r : Row) : Row :=
  if hasId i r
  then {| id := id r; name := n; email := e;
          password := password r; role := role r |}
  else r.

(** [UPDATE users SET name=$1, email=$2 WHERE id=$3]: the error of [Exec]
    and the table after it. A row that would take the email of another row
    is refused; with no row of that id nothing happens. *)
Definition updateUser (n e : string) (i : Z) (d : DB)
  : option sqlError * DB :=
  if existsb (hasId i) (users d)
     && existsb (fun r => hasEmail e r && negb (hasId i r)) (users d)
  then (Some ErrUniqueViolation, d)
  else (None, {| users := List.map (setNameEmail n e i) (users d);
                 users_id_seq := users_id_seq d |}).

(** [DELETE FROM users WHERE id=$1] *)
Definition deleteUser (i : Z) (d : DB) : option sqlError * DB :=
  (None, {| users := List.filter (fun r => negb (hasId i r)) (users d);
            users_id_seq := users_id_seq d |}).

(** The number of rows a statement with [WHERE id=$1] touches. *)
Definition rowsWithId (i : Z) (d : DB) : nat :=
  List.length (List.filter (hasId i) (users d)).

End sql.

(** The conversion [int32(x)] of an [int]. *)
Definition int32 (x : Z) : Z := (x + 2 ^ 31) mod 2 ^ 32 - 2 ^ 31.

(** ** package main: the token issuer, the interceptor, the service *)

Definition jwtKey : string := "my_secret_key".

Definition publicMethods : gmap string bool :=
  <["/user.UserService/Login" := true]>
    (<["/user.UserService/Register" := true]> ∅).

Definition adminMethods : gmap string bool :=
  <["/user.UserService/CreateUser" := true]>
    (<["/user.UserService/UpdateUser" := true]>
      (<["/user.UserService/DeleteUser" := true]>
        (<["/user.UserService/GetUser" := true]> ∅))).

Section Main.

(** The keyed hash of [crypto/hmac], and the case tables of [unicode]. *)
Variable hmac : jwt.SigningMethod -> string -> string -> string.
Variable upperTable lowerTable : Z -> Z.

(** [hashPassword] and [checkPassword] belong to package main but their
    file is not among the sources: they are parameters. [hashPassword]
    returns a digest and an error. *)
Variable hashPassword : string -> string * option error.
Variable checkPassword : string -> string -> bool.

(** [generateToken], at the instant [now] that [time.Now()] reads. *)
Definition generateToken (email role : string) (now : Z)
  : string * option jwt.Error :=
  let expirationTime := now + 24 * Hour in
  let claims :=
    {| Email := email;
       Role := role;
       Registered := {| ExpiresAt := Some (jwt.NewNumericDate expirationTime);
                        NotBefore := None |} |} in
  jwt.SignedString hmac jwt.HS256 claims jwtKey.

(** The optional bearer prefix, lines 46 to 49 of the interceptor. *)
Definition stripBearer (tokenString : string) : string :=
  if (7 <? Z.of_nat (String.length tokenString))
     && String.eqb
          (strings.ToUpper upperTable (string_take 7 tokenString))
          "BEARER "
  then string_drop 7 tokenString
  else tokenString.

Section Interceptor.

Variables Req Resp World : Type.

(** A [grpc.UnaryHandler]: it answers or fails, and acts on the world
    behind the service. *)
Definition UnaryHandler : Type :=
  Context -> Req -> World -> (Resp + error) * World.

(** The verification of a token string with a key, as the library performs
    it at the instant of the call. *)
Variable ParseWithClaims : string -> string -> jwt.Parsed.

(** Steps D to F: the outcome of the verification decides. *)
Definition afterParse (tkn : jwt.Parsed) (ctx : Context) (req : Req)
  (info : UnaryServerInfo) (handler : UnaryHandler) (w : World)
  : (Resp + error) * World :=
  if is_Some_b (jwt.err tkn) || negb (jwt.Valid tkn) then
    (inr (status_Errorf codes.Unauthenticated "invalid token"), w)
  else if map_bool_get adminMethods (FullMethod info) then
    if negb (String.eqb (strings.ToLower lowerTable (Role (jwt.claims tkn)))
                        "admin")
    then (inr (status_Errorf codes.PermissionDenied
                 "Access Denied: You are not an admin"), w)
    else handler ctx req w
  else handler ctx req w.

Definition AuthInterceptor (ctx : Context) (req : Req)
  (info : UnaryServerInfo) (handler : UnaryHandler) (w : World)
  : (Resp + error) * World :=
  if map_bool_get publicMethods (FullMethod info) then handler ctx req w
  else
    match incomingMD ctx with
    | None =>
      (inr (status_Errorf codes.Unauthenticated "metadata missing"), w)
    | Some md =>
      match MD_get md "authorization" with
      | [] => (inr (status_Errorf codes.Unauthenticated "token missing"), w)
      | tokenString :: _ =>
        afterParse (ParseWithClaims (stripBearer tokenString) jwtKey)
                   ctx req info handler w
      end
    end.

End Interceptor.

(** The service methods act on the store of [server.db]. *)

Definition Register (req : pb.RegisterRequest) (d : sql.DB)
  : (pb.UserResponse + error) * sql.DB :=
  let '(hashedPwd, _) := hashPassword (pb.RegisterRequest_Password req) in
  let userRole :=
    if String.eqb (pb.RegisterRequest_Role req) EmptyString
    then "user" else pb.RegisterRequest_Role req in
  match sql.insertUser (pb.RegisterRequest_Name req)
                       (pb.RegisterRequest_Email req)
                       (Some hashedPwd) userRole d with
  | (inr e, d') =>
    (inr (status_Errorf codes.Internal
            ("cannot create user: " +:+ sqlError_Error e)), d')
  | (inl id, d') =>
    (inl {| pb.User_ :=
              {| pb.Id := int32 id;
                 pb.Name := pb.RegisterRequest_Name req;
                 pb.Email := pb.RegisterRequest_Email req;
                 pb.Role := userRole |} |}, d')
  end.

Definition Login (req : pb.LoginRequest) (now : Z) (d : sql.DB)
  : (pb.LoginResponse + error) * sql.DB :=
  match sql.selectPasswordRole (pb.LoginRequest_Email req) d with
  | inr _ => (inr (status_Errorf codes.Unauthenticated "user not found"), d)
  | inl (storedHash, role) =>
    if negb (checkPassword (pb.LoginRequest_Password req) storedHash) then
      (inr (status_Errorf codes.Unauthenticated "incorrect password"), d)
    else
      match generateToken (pb.LoginRequest_Email req) role now with
      | (_, Some _) =>
        (inr (status_Errorf codes.Internal "cannot generate token"), d)
      | (token, None) => (inl {| pb.Token := token |}, d)
      end
  end.

Definition CreateUser (req : pb.CreateUserRequest) (d : sql.DB)
  : (pb.UserResponse + error) * sql.DB :=
  match sql.insertUser (pb.CreateUserRequest_Name req)
                       (pb.CreateUserRequest_Email req)
                       None (pb.CreateUserRequest_Role req) d with
  | (inr e, d') =>
    (inr (status_Errorf codes.Internal
            ("failed to create user: " +:+ sqlError_Error e)), d')
  | (inl id, d') =>
    (inl {| pb.User_ :=
              {| pb.Id := int32 id;
                 pb.Name := pb.CreateUserRequest_Name req;
                 pb.Email := pb.CreateUserRequest_Email req;
                 pb.Role := pb.CreateUserRequest_Role req |} |}, d')
  end.

Definition GetUser (req : pb.GetUserRequest) (d : sql.DB)
  : (pb.UserResponse + error) * sql.DB :=
  match sql.selectUser (pb.GetUserRequest_Id req) d with
  | inr ErrNoRows =>
    (inr (status_Errorf codes.NotFound "user not found"), d)
  | inr e => (inr (raw_error e), d)
  | inl r =>
    (inl {| pb.User_ :=
              {| pb.Id := sql.id r; pb.Name := sql.name r;
                 pb.Email := sql.email r; pb.Role := sql.role r |} |}, d)
  end.

Definition UpdateUser (req : pb.UpdateUserRequest) (d : sql.DB)
  : (pb.UserResponse + error) * sql.DB :=
  match sql.updateUser (pb.UpdateUserRequest_Name req)
                       (pb.UpdateUserRequest_Email req)
                       (pb.UpdateUserRequest_Id req) d with
  | (Some e, d') => (inr (raw_error e), d')
  | (None, d') =>
    (inl {| pb.User_ :=
              {| pb.Id := pb.UpdateUserRequest_Id req;
                 pb.Name := pb.UpdateUserRequest_Name req;
                 pb.Email := pb.UpdateUserRequest_Email req;
                 pb.Role := EmptyString |} |}, d')
  end.

Definition DeleteUser (req : pb.DeleteUserRequest) (d : sql.DB)
  : (pb.DeleteUserResponse + error) * sql.DB :=
  match sql.deleteUser (pb.DeleteUserRequest_Id req) d with
  | (Some e, d') => (inr (raw_error e), d')
  | (None, d') => (inl {| pb.Message := "User deleted" |}, d')
  end.

End Main.

(** ** Notions used in the statements *)

(** A table with no case pairs above ASCII, a keyed hash that only chains
    its inputs, and password helpers that mark the password as a digest:
    simple instances of the parameters, used where a statement is
    evaluated. *)
Definition noCase (r : Z) : Z := r.
Definition toyHmac (m : jwt.SigningMethod) (key msg : string) : string :=
  jwt.Alg m +:+ key +:+ msg.
Definition toyHash (p : string) : string * option error :=
  ("digest:" +:+ p, None).
Definition toyCheck (p h : string) : bool :=
  String.eqb ("digest:" +:+ p) h.

(** The four admin-only methods and the two public ones, by name. *)
Definition adminSet : list string :=
  ["/user.UserService/CreateUser"; "/user.UserService/GetUser";
   "/user.UserService/UpdateUser"; "/user.UserService/DeleteUser"].

Definition publicSet : list string :=
  ["/user.UserService/Login"; "/user.UserService/Register"].

(** A credential string begins with the seven characters of ["Bearer "],
    letters compared without regard to case. *)
Definition bearerPrefixed (tokenString : string) : Prop :=
  string_map strings.upperByte (string_take 7 tokenString) = "BEARER ".

(** The response [UpdateUser] builds from its request. *)
Definition echoUpdate (req : pb.UpdateUserRequest) : pb.UserResponse :=
  {| pb.User_ := {| pb.Id := pb.UpdateUserRequest_Id req;
                    pb.Name := pb.UpdateUserRequest_Name req;
                    pb.Email := pb.UpdateUserRequest_Email req;
                    pb.Role := EmptyString |} |}.

(** The role [Register] stores for a request. *)
Definition registeredRole (req : pb.RegisterRequest) : string :=
  if String.eqb (pb.RegisterRequest_Role req) EmptyString
  then "user" else pb.RegisterRequest_Role req.

Definition withPassword (req : pb.RegisterRequest) (p : string)
  : pb.RegisterRequest :=
  {| pb.RegisterRequest_Name := pb.RegisterRequest_Name req;
     pb.RegisterRequest_Email := pb.RegisterRequest_Email req;
     pb.RegisterRequest_Password := p;
     pb.RegisterRequest_Role := pb.RegisterRequest_Role req |}.

(** A table with one registered user, a verifier that accepts one token
    string only, and a verifier that accepts every string. *)
Definition oneUser : sql.DB :=
  {| sql.users := [{| sql.id := 1; sql.name := "John";
                      sql.email := "john@x.com";
                      sql.password := Some "digest:pw123";
                      sql.role := "user" |}];
     sql.users_id_seq := 1 |}.

Definition adminClaims : Claims :=
  {| Email := "a@b.com"; Role := "admin";
     Registered := {| ExpiresAt := None; NotBefore := None |} |}.

Definition acceptsOnly (good : string) (tokenString key : string)
  : jwt.Parsed :=
  if String.eqb tokenString good
  then {| jwt.Valid := true; jwt.claims := adminClaims; jwt.err := None |}
  else jwt.failed adminClaims jwt.ErrTokenMalformed.

Definition acceptsAll (role : string) (tokenString key : string)
  : jwt.Parsed :=
  {| jwt.Valid := true;
     jwt.claims := {| Email := "a@b.com"; Role := role;
                      Registered := {| ExpiresAt := None;
                                       NotBefore := None |} |};
     jwt.err := None |}.

(** A handler that counts its invocations in the world. *)
Definition countingHandler (ctx : Context) (req : unit) (w : nat)
  : (unit + error) * nat := (inl tt, S w).

Definition withAuthorization (values : list string) : Context :=
  {| incomingMD := Some (<["authorization" := values]> ∅) |}.

(** Checks used in the proofs about the codecs: the round trip of one
    6-bit value; the absence of the period; bytes of a multi-byte
    encoding. *)
Definition sixbitOK (n : nat) : bool :=
  let c := base64.enc6 (Z.of_nat n) in
  match base64.dec6 c with
  | Some i => (i =? Z.of_nat n)
  | None => false
  end
  && negb ((byteval c =? 10) || (byteval c =? 13) || (byteval c =? 46)).

Definition noDot (s : string) : bool :=
  string_forallb (fun c => negb (byteval c =? 46)) s.

Definition highBytes (s : string) : bool :=
  string_forallb (fun c => 0x80 <=? byteval c) s.

Import json.

(** The chunk [appendString] writes for an ASCII byte. *)
Definition asciiChunk (c : ascii) : string :=
  if json.htmlSafe (byteval c) then String c EmptyString else escapeByte c.

(** A piece of the text of a literal over which the scanner runs without
    stopping. *)
Definition scannable (k : string) : Prop :=
  forall t,
    scanString (k +:+ t) =
    match scanString t with
    | Some (lit, rest) => Some (k +:+ lit, rest)
    | None => None
    end.

(** The claims [generateToken] builds for an expiry in whole seconds. *)
Definition issued (email role : string) (exp : Z) : Claims :=
  {| Email := email; Role := role;
     Registered := {| ExpiresAt := Some exp; NotBefore := None |} |}.

(** [string([]rune(s))]: the runes of a string encoded again. A byte that
    belongs to no valid encoding decodes to [RuneError] with width one, so
    that it comes back as the three bytes of U+FFFD; every other rune comes
    back as it was. *)
Fixpoint encodeRunes (l : list (Z * nat)) : string :=
  match l with
  | [] => EmptyString
  | rw :: l' => utf8.EncodeRune (fst rw) +:+ encodeRunes l'
  end.

Definition asRunes (s : string) : string := encodeRunes (utf8.runes s).

(** * The rest of the server, and the gateway *)

(** The verifier of the interceptor: the library at the instant [t] of the
    call, with the keyed hash [hmac]. *)
Definition verifierAt (hmac : jwt.SigningMethod -> string -> string -> string)
  (t : Z) (tokenString key : string) : jwt.Parsed :=
  jwt.ParseWithClaims hmac tokenString key t.

(** The expiry [generateToken] writes at the instant [now], in seconds. *)
Definition expiryOf (now : Z) : Z := jwt.NewNumericDate (now + 24 * Hour).

(** A character of a compact token: one of the URL-safe alphabet of base64
    or the period. *)
Definition urlSafe (c : ascii) : bool :=
  is_Some_b (base64.dec6 c) || (byteval c =? 46).

(** The constraints the table keeps: the ids are pairwise distinct and none
    is above the sequence; the emails are pairwise distinct. *)
Definition wellFormed (d : sql.DB) : Prop :=
  List.NoDup (List.map sql.id (sql.users d))
  /\ List.NoDup (List.map sql.email (sql.users d))
  /\ Forall (fun r => sql.id r <= sql.users_id_seq d) (sql.users d).

(** A row as [GetUser] answers it. *)
Definition userOfRow (r : sql.Row) : pb.UserResponse :=
  {| pb.User_ := {| pb.Id := sql.id r; pb.Name := sql.name r;
                    pb.Email := sql.email r; pb.Role := sql.role r |} |}.

(** ** The server as [main] wires it

    [grpc.NewServer(grpc.UnaryInterceptor(AuthInterceptor))] followed by
    [pb.RegisterUserServiceServer(grpcServer, &server{db: dbConn})]: every
    call passes the interceptor, which wraps the method of the service that
    bears the name of the call. The generated registration is known
    through the method names the interceptor lists. *)

Inductive Request :=
| RegisterReq (r : pb.RegisterRequest)
| LoginReq (r : pb.LoginRequest)
| CreateUserReq (r : pb.CreateUserRequest)
| GetUserReq (r : pb.GetUserRequest)
| UpdateUserReq (r : pb.UpdateUserRequest)
| DeleteUserReq (r : pb.DeleteUserRequest).

Inductive Response :=
| UserResp (r : pb.UserResponse)
| LoginResp (r : pb.LoginResponse)
| DeleteResp (r : pb.DeleteUserResponse).

Definition methodOf (req : Request) : string :=
  match req with
  | RegisterReq _ => "/user.UserService/Register"
  | LoginReq _ => "/user.UserService/Login"
  | CreateUserReq _ => "/user.UserService/CreateUser"
  | GetUserReq _ => "/user.UserService/GetUser"
  | UpdateUserReq _ => "/user.UserService/UpdateUser"
  | DeleteUserReq _ => "/user.UserService/DeleteUser"
  end.

Definition answer {A} (wrap : A -> Response) (r : (A + error) * sql.DB)
  : (Response + error) * sql.DB :=
  match r with
  | (inl a, d) => (inl (wrap a), d)
  | (inr e, d) => (inr e, d)
  end.

Section Server.

Variable hmac : jwt.SigningMethod -> string -> string -> string.
Variable upperTable lowerTable : Z -> Z.
Variable hashPassword : string -> string * option error.
Variable checkPassword : string -> string -> bool.

(** The method of the service behind a call, at the instant [now]. *)
Definition serviceMethod (now : Z)
  : UnaryHandler Request Response sql.DB :=
  fun _ req d =>
    match req with
    | RegisterReq r => answer UserResp (Register hashPassword r d)
    | LoginReq r => answer LoginResp (Login hmac checkPassword r now d)
    | CreateUserReq r => answer UserResp (CreateUser r d)
    | GetUserReq r => answer UserResp (GetUser r d)
    | UpdateUserReq r => answer UserResp (UpdateUser r d)
    | DeleteUserReq r => answer DeleteResp (DeleteUser r d)
    end.

(** One call served at the instant [now]. *)
Definition Serve (now : Z) (ctx : Context) (req : Request) (d : sql.DB)
  : (Response + error) * sql.DB :=
  AuthInterceptor upperTable lowerTable Request Response sql.DB
    (verifierAt hmac now) ctx req {| FullMethod := methodOf req |}
    (serviceMethod now) d.

End Server.

(** The four calls on records. *)
Definition isCRUD (req : Request) : bool :=
  match req with
  | RegisterReq _ | LoginReq _ => false
  | _ => true
  end.

(** ** strconv and net/http, as the gateway uses them *)

Module strconv.

(** The value of a string of decimal digits, [None] on any other byte. *)
Fixpoint digitsValue (acc : Z) (s : string) : option Z :=
  match s with
  | EmptyString => Some acc
  | String c s' =>
    if utf8.between 48 57 (byteval c)
    then digitsValue (acc * 10 + (byteval c - 48)) s'
    else None
  end.

(** [strconv.Atoi] where [int] has 64 bits: an optional sign and at least
    one decimal digit, within the range of [int]; [None] stands for the
    error, of syntax or of range. *)
Definition Atoi (s : string) : option Z :=
  match s with
  | EmptyString => None
  | String c s' =>
    let neg := byteval c =? 45 in
    let digits := if neg || (byteval c =? 43) then s' else s in
    match digits with
    | EmptyString => None
    | _ =>
      match digitsValue 0 digits with
      | Some n =>
        let v := if neg then - n else n in
        if (- 2 ^ 63 <=? v) && (v <? 2 ^ 63) then Some v else None
      | None => None
      end
    end
  end.

End strconv.

Module http.

(** What a handler reads of the request. *)
Record Request := {
  Method : string;
  Path : string;      (* r.URL.Path *)
  Body : string
}.

(** A [ResponseWriter]: the header map, the status once the header is
    written, and the body written so far. *)
Record ResponseWriter := {
  Header : gmap string (list string);
  Status : option Z;
  Written : string
}.

Definition newWriter : ResponseWriter :=
  {| Header := ∅; Status := None; Written := EmptyString |}.

(** [w.Header().Set(k, v)], for a key in canonical form. *)
Definition Header_Set (k v : string) (w : ResponseWriter) : ResponseWriter :=
  {| Header := <[k := [v]]> (Header w); Status := Status w;
     Written := Written w |}.

(** [w.Header().Del(k)] *)
Definition Header_Del (k : string) (w : ResponseWriter) : ResponseWriter :=
  {| Header := delete k (Header w); Status := Status w;
     Written := Written w |}.

(** [w.WriteHeader(code)]: a second call has no effect. *)
Definition WriteHeader (code : Z) (w : ResponseWriter) : ResponseWriter :=
  match Status w with
  | Some _ => w
  | None => {| Header := Header w; Status := Some code;
               Written := Written w |}
  end.

(** [w.Write(data)]: the header goes out with status 200 when it has not
    been written. *)
Definition Write (data : string) (w : ResponseWriter) : ResponseWriter :=
  {| Header := Header w;
     Status := Some (default 200 (Status w));
     Written := Written w +:+ data |}.

Definition newline : string := String "010"%char EmptyString.

(** [http.Error(w, msg, code)] *)
Definition Error (msg : string) (code : Z) (w : ResponseWriter)
  : ResponseWriter :=
  Write (msg +:+ newline)
    (WriteHeader code
      (Header_Set "X-Content-Type-Options" "nosniff"
        (Header_Set "Content-Type" "text/plain; charset=utf-8"
          (Header_Del "Content-Length" w)))).

(** [json.NewEncoder(w).Encode(v)], given the JSON text of [v]. *)
Definition Encode (text : string) (w : ResponseWriter) : ResponseWriter :=
  Write (text +:+ newline) w.

End http.

(** ** package main of the gateway *)

Module gateway.

Import http.

Definition enableCORS (w : ResponseWriter) : ResponseWriter :=
  Header_Set "Access-Control-Allow-Headers" "Content-Type"
    (Header_Set "Access-Control-Allow-Methods"
                "GET, POST, PUT, DELETE, OPTIONS"
      (Header_Set "Access-Control-Allow-Origin" "*" w)).

Definition handleOptions (w : ResponseWriter) (r : Request)
  : ResponseWriter :=
  WriteHeader 200 (enableCORS w).

(** [r.URL.Path[len("/api/users/"):]]; the slice panics on a shorter
    path. *)
Definition idOfPath (path : string) : option string :=
  if (String.length path <? 11)%nat then None
  else Some (string_drop 11 path).

Section Client.

(** The service behind the gRPC client, acting on a world of its own; a
    failed call gives the text of its error. The decoding of the request
    body into a name and an email, and the JSON text of a user, depend on
    the generated messages: they are parameters. *)
Variable World : Type.
Variable client_CreateUser :
  pb.CreateUserRequest -> World -> (pb.UserResponse + string) * World.
Variable client_GetUser :
  pb.GetUserRequest -> World -> (pb.UserResponse + string) * World.
Variable client_UpdateUser :
  pb.UpdateUserRequest -> World -> (pb.UserResponse + string) * World.
Variable client_DeleteUser :
  pb.DeleteUserRequest -> World -> (pb.DeleteUserResponse + string) * World.
Variable decodeNameEmail : string -> (string * string) + string.
Variable marshalUser : pb.User -> string.

(** A handler returns the writer and the world, or panics ([None]). *)
Definition CreateUserHandler (w : ResponseWriter) (r : Request) (s : World)
  : option (ResponseWriter * World) :=
  let w := enableCORS w in
  if negb (String.eqb (Method r) "POST") then
    Some (Error "Method not allowed" 405 w, s)
  else
    match decodeNameEmail (Body r) with
    | inr err => Some (Error ("Invalid JSON: " +:+ err) 400 w, s)
    | inl (name, email) =>
      match client_CreateUser
              {| pb.CreateUserRequest_Name := name;
                 pb.CreateUserRequest_Email := email;
                 pb.CreateUserRequest_Role := EmptyString |} s with
      | (inr err, s') => Some (Error ("gRPC error: " +:+ err) 500 w, s')
      | (inl grpcResp, s') =>
        Some (Encode (marshalUser (pb.User_ grpcResp))
                (WriteHeader 201
                  (Header_Set "Content-Type" "application/json" w)), s')
      end
    end.

Definition GetUserHandler (w : ResponseWriter) (r : Request) (s : World)
  : option (ResponseWriter * World) :=
  let w := enableCORS w in
  if negb (String.eqb (Method r) "GET") then
    Some (Error "Method not allowed" 405 w, s)
  else
    match idOfPath (Path r) with
    | None => None
    | Some idStr =>
      match strconv.Atoi idStr with
      | None => Some (Error "Invalid user ID" 400 w, s)
      | Some id =>
        match client_GetUser {| pb.GetUserRequest_Id := int32 id |} s with
        | (inr err, s') => Some (Error ("gRPC error: " +:+ err) 404 w, s')
        | (inl grpcResp, s') =>
          Some (Encode (marshalUser (pb.User_ grpcResp))
                  (Header_Set "Content-Type" "application/json" w), s')
        end
      end
    end.

Definition UpdateUserHandler (w : ResponseWriter) (r : Request) (s : World)
  : option (ResponseWriter * World) :=
  let w := enableCORS w in
  if negb (String.eqb (Method r) "PUT") then
    Some (Error "Method not allowed" 405 w, s)
  else
    match idOfPath (Path r) with
    | None => None
    | Some idStr =>
      match strconv.Atoi idStr with
      | None => Some (Error "Invalid user ID" 400 w, s)
      | Some id =>
        match decodeNameEmail (Body r) with
        | inr err => Some (Error ("Invalid JSON: " +:+ err) 400 w, s)
        | inl (name, email) =>
          match client_UpdateUser
                  {| pb.UpdateUserRequest_Id := int32 id;
                     pb.UpdateUserRequest_Name := name;
                     pb.UpdateUserRequest_Email := email |} s with
          | (inr err, s') => Some (Error ("gRPC error: " +:+ err) 500 w, s')
          | (inl grpcResp, s') =>
            Some (Encode (marshalUser (pb.User_ grpcResp))
                    (Header_Set "Content-Type" "application/json" w), s')
          end
        end
      end
    end.

Definition DeleteUserHandler (w : ResponseWriter) (r : Request) (s : World)
  : option (ResponseWriter * World) :=
  let w := enableCORS w in
  if negb (String.eqb (Method r) "DELETE") then
    Some (Error "Method not allowed" 405 w, s)
  else
    match idOfPath (Path r) with
    | None => None
    | Some idStr =>
      match strconv.Atoi idStr with
      | None => Some (Error "Invalid user ID" 400 w, s)
      | Some id =>
        match client_DeleteUser {| pb.DeleteUserRequest_Id := int32 id |} s
        with
        | (inr err, s') => Some (Error ("gRPC error: " +:+ err) 500 w, s')
        | (inl grpcResp, s') =>
          Some (Encode ("{" +:+ json.quote "message" +:+ ":"
                        +:+ json.quote (pb.Message grpcResp) +:+ "}")
                  (Header_Set "Content-Type" "application/json" w), s')
        end
      end
    end.

(** The function registered for the pattern "/api/users". *)
Definition usersRoute (w : ResponseWriter) (r : Request) (s : World)
  : option (ResponseWriter * World) :=
  if String.eqb (Method r) "OPTIONS" then Some (handleOptions w r, s)
  else if String.eqb (Method r) "POST" then CreateUserHandler w r s
  else Some (Error "Method not allowed" 405 w, s).

(** The function registered for the pattern "/api/users/". *)
Definition userRoute (w : ResponseWriter) (r : Request) (s : World)
  : option (ResponseWriter * World) :=
  if String.eqb (Method r) "OPTIONS" then Some (handleOptions w r, s)
  else if String.eqb (Method r) "GET" then GetUserHandler w r s
  else if String.eqb (Method r) "PUT" then UpdateUserHandler w r s
  else if String.eqb (Method r) "DELETE" then DeleteUserHandler w r s
  else Some (Error "Method not allowed" 405 w, s).

End Client.

End gateway.

(** The three headers [enableCORS] sets. *)
Definition hasCORS (w : http.ResponseWriter) : Prop :=
  http.Header w !! "Access-Control-Allow-Origin" = Some ["*"]
  /\ http.Header w !! "Access-Control-Allow-Methods"
     = Some ["GET, POST, PUT, DELETE, OPTIONS"]
  /\ http.Header w !! "Access-Control-Allow-Headers" = Some ["Content-Type"].

(** Instances used where a further statement is evaluated: a table with
    two users, a service that is out of reach, a body that cannot be
    decoded, and the token of an administrator and of a user issued at the
    epoch. *)
Definition twoUsers : sql.DB :=
  {| sql.users := [{| sql.id := 1; sql.name := "John";
                      sql.email := "john@x.com";
                      sql.password := Some "digest:pw123";
                      sql.role := "user" |};
                   {| sql.id := 2; sql.name := "Jane";
                      sql.email := "jane@x.com";
                      sql.password := None;
                      sql.role := "admin" |}];
     sql.users_id_seq := 2 |}.

Definition outOfReach {A B : Type} (req : A) (s : unit)
  : (B + string) * unit := (inr "unavailable", s).

Definition undecodable (body : string) : (string * string) + string :=
  inr "EOF".

Definition noText (u : pb.User) : string := "{}".

(** A service that answers every lookup with a user of the id asked for,
    and a JSON text that shows the id only. *)
Definition echoUser (req : pb.GetUserRequest) (s : unit)
  : (pb.UserResponse + string) * unit :=
  (inl {| pb.User_ := {| pb.Id := pb.GetUserRequest_Id req;
                         pb.Name := EmptyString; pb.Email := EmptyString;
                         pb.Role := EmptyString |} |}, s).

Definition idText (u : pb.User) : string := json.FormatInt (pb.Id u).

Definition userToken : string :=
  fst (generateToken toyHmac "john@x.com" "user" 0).

(** * Properties *)

Import utf8 strings.

(** Boolean tests in hypotheses as propositions; the range of every byte in
    the context; linear arithmetic with division by constants. *)
Ltac bools :=
  repeat match goal with
  | H : _ && _ = true |- _ => apply andb_prop in H; destruct H
  | H : _ || _ = false |- _ => apply orb_false_elim in H; destruct H
  | H : between _ _ _ = true |- _ => unfold between in H
  | H : between _ _ _ = false |- _ => unfold between in H
  | H : cont _ = true |- _ => unfold cont in H
  | H : (_ <=? _) = true |- _ => apply Z.leb_le in H
  | H : (_ <=? _) = false |- _ => apply Z.leb_gt in H
  | H : (_ <? _) = true |- _ => apply Z.ltb_lt in H
  | H : (_ <? _) = false |- _ => apply Z.ltb_ge in H
  | H : (_ =? _) = true |- _ => apply Z.eqb_eq in H
  | H : (_ =? _) = false |- _ => apply Z.eqb_neq in H
  | H : negb _ = true |- _ => apply negb_true_iff in H
  | H : negb _ = false |- _ => apply negb_false_iff in H
  end.

(** ** Bytes and strings *)

Lemma byteval_range (c : ascii) : 0 <= byteval c < 256.
Proof.
  unfold byteval. pose proof (N_ascii_bounded c) as H. lia.
Qed.

Lemma bytechr_byteval (c : ascii) : bytechr (byteval c) = c.
Proof.
  unfold bytechr. pose proof (byteval_range c) as H.
  rewrite Z.mod_small by lia. unfold byteval.
  rewrite N2Z.id. apply ascii_N_embedding.
Qed.

Lemma byteval_bytechr (z : Z) : 0 <= z < 256 -> byteval (bytechr z) = z.
Proof.
  intros H. unfold byteval, bytechr. rewrite Z.mod_small by lia.
  rewrite N_ascii_embedding by lia. lia.
Qed.

Lemma byteval_inj (c d : ascii) : byteval c = byteval d -> c = d.
Proof.
  intros H. rewrite <- (bytechr_byteval c), <- (bytechr_byteval d), H.
  reflexivity.
Qed.

Lemma length_string_drop (n : nat) (s : string) :
  String.length (string_drop n s) = (String.length s - n)%nat.
Proof.
  revert s. induction n as [| n IH]; intros [| c s]; simpl; auto with arith.
Qed.

Lemma append_cons (c : ascii) (s t : string) :
  String c s +:+ t = String c (s +:+ t).
Proof. reflexivity. Qed.

Lemma append_nil (t : string) : EmptyString +:+ t = t.
Proof. reflexivity. Qed.

Lemma string_take_drop (n : nat) (s : string) :
  string_take n s +:+ string_drop n s = s.
Proof.
  revert s. induction n as [| n IH]; intros [| c s]; simpl; auto.
  rewrite append_cons, IH. reflexivity.
Qed.

(** ** Runes

    The first rune of a string is an ASCII byte of width one, or the
    replacement rune of width one for a byte that starts no valid encoding,
    or a rune of two to four bytes that are all there. *)
Lemma Decode_shape (c : ascii) (s1 : string) (r : Z) (w : nat) :
  DecodeRuneInString (String c s1) = (r, w) ->
  (w = 1%nat /\ byteval c < 0x80 /\ r = byteval c)
  \/ (0x80 <= byteval c
      /\ ((w = 1%nat /\ r = RuneError)
          \/ (2 <= w <= 4 /\ w <= S (String.length s1))%nat)).
Proof.
  unfold DecodeRuneInString, RuneSelf.
  destruct (byteval c <? 128) eqn:H0.
  { intros [= <- <-]. bools. left. auto. }
  bools. intros H. right. split; [lia |].
  destruct (between 194 223 (byteval c)).
  { destruct s1 as [| c1 s2]; [injection H as <- <-; auto |].
    destruct (cont (byteval c1)); injection H as <- <-; auto.
    right. simpl. lia. }
  destruct (between 224 239 (byteval c)).
  { destruct s1 as [| c1 [| c2 s3]]; try (injection H as <- <-; auto; fail).
    destruct (_ && _); injection H as <- <-; auto.
    right. simpl. lia. }
  destruct (between 240 244 (byteval c)).
  { destruct s1 as [| c1 [| c2 [| c3 s4]]];
      try (injection H as <- <-; auto; fail).
    destruct (_ && _); injection H as <- <-; auto.
    right. simpl. lia. }
  injection H as <- <-; auto.
Qed.

(** ** Case mapping: when upper-casing gives an ASCII string *)

Lemma isASCII_append (a b : string) :
  isASCII (a +:+ b) = isASCII a && isASCII b.
Proof.
  induction a as [| c a IH]; [reflexivity |].
  rewrite append_cons. unfold isASCII in *. simpl. rewrite IH.
  apply andb_assoc.
Qed.

Lemma length_append (a b : string) :
  String.length (a +:+ b) = (String.length a + String.length b)%nat.
Proof.
  induction a as [| c a IH]; [reflexivity |].
  rewrite append_cons. simpl. rewrite IH. reflexivity.
Qed.

Lemma div_bounds (r k lo hi : Z) :
  0 < k -> lo * k <= r -> r < (hi + 1) * k -> lo <= r / k <= hi.
Proof.
  intros Hk Hlo Hhi. split.
  - apply Z.div_le_lower_bound; lia.
  - assert (r / k < hi + 1) by (apply Z.div_lt_upper_bound; lia). lia.
Qed.

Lemma isASCII_head (z : Z) (s : string) :
  128 <= z < 256 -> isASCII (String (bytechr z) s) = false.
Proof.
  intros Hz. unfold isASCII. simpl. rewrite byteval_bytechr by lia.
  unfold RuneSelf. destruct (z <? 128) eqn:E; [bools; lia | reflexivity].
Qed.

(** An encoding made of ASCII bytes is the single byte of an ASCII rune. *)
Lemma EncodeRune_ascii (r : Z) :
  isASCII (EncodeRune r) = true ->
  String.length (EncodeRune r) = 1%nat /\ 0 <= r <= 0x7F.
Proof.
  unfold EncodeRune.
  destruct (between 0 127 r) eqn:H1; [bools; simpl; auto |].
  destruct (between 0 2047 r) eqn:H2.
  { unfold between in H1, H2.
    rewrite isASCII_head; [discriminate |].
    assert (2 <= r / 64 <= 31) by (apply div_bounds; lia). lia. }
  destruct (_ || _) eqn:H3; [vm_compute; discriminate |].
  unfold between in H1, H2. unfold MaxRune in H3.
  destruct (r <=? 65535) eqn:H4.
  { unfold enc3. rewrite isASCII_head; [discriminate |].
    assert (0 <= r / 4096 <= 15) by (apply div_bounds; bools; lia). lia. }
  rewrite isASCII_head; [discriminate |].
  assert (0 <= r / 262144 <= 4) by (apply div_bounds; bools; lia). lia.
Qed.

Section MapFacts.

Variable upperTable : Z -> Z.

(** When [Map unicode.ToUpper] yields ASCII only, the output is no longer
    than the input, and as long only when the input is ASCII itself: a rune
    of several bytes gives at most one ASCII byte, and an invalid byte
    gives the replacement character. *)
Lemma Map_ascii_length (fuel : nat) (s : string) :
  (String.length s <= fuel)%nat ->
  let out :=
    fold_right (appendMapped (unicode_ToUpper upperTable)) EmptyString
               (runes_fuel fuel s) in
  isASCII out = true ->
  (String.length out <= String.length s)%nat
  /\ (String.length out = String.length s -> isASCII s = true).
Proof.
  revert s. induction fuel as [| fuel IH]; intros s Hlen.
  { destruct s; [simpl; auto | simpl in Hlen; lia]. }
  destruct s as [| c s1]; [simpl; auto |].
  cbn [runes_fuel].
  destruct (DecodeRuneInString (String c s1)) as [r w] eqn:Hdec.
  cbn [fold_right]. cbv zeta.
  set (rest := fold_right (appendMapped (unicode_ToUpper upperTable))
                 EmptyString
                 (runes_fuel fuel (string_drop w (String c s1)))).
  pose proof (Decode_shape _ _ _ _ Hdec) as Hshape.
  assert (Hw : (1 <= w <= S (String.length s1))%nat)
    by (destruct Hshape as [[-> _] | [_ [[-> _] | ?]]]; lia).
  assert (Hdrop : (String.length (string_drop w (String c s1)) <= fuel)%nat).
  { rewrite length_string_drop. simpl in *. lia. }
  specialize (IH _ Hdrop). cbv zeta in IH. fold rest in IH.
  rewrite length_string_drop in IH.
  unfold appendMapped. cbn [fst].
  destruct (0 <=? unicode_ToUpper upperTable r) eqn:Hpos.
  - rewrite isASCII_append, length_append. intros Hasc. bools.
    destruct (EncodeRune_ascii _ H) as [Hone Hr].
    destruct (IH H0) as [IHle IHeq]. rewrite Hone.
    cbn [String.length] in *. split; [lia |].
    intros Heq. assert (w = 1%nat) by lia. subst w.
    assert (Hs1 : isASCII s1 = true) by (apply IHeq; simpl; lia).
    destruct Hshape as [[_ [Hc _]] | [Hc [[_ ->] | ?]]]; [| | lia].
    + unfold isASCII in *. simpl. rewrite Hs1.
      unfold RuneSelf. destruct (byteval c <? 128) eqn:E; [reflexivity |].
      bools; lia.
    + exfalso. vm_compute in Hr. destruct Hr as [_ Hr]. apply Hr. reflexivity.
  - intros Hasc. destruct (IH Hasc) as [IHle IHeq].
    cbn [String.length] in *. split; [lia | intros; lia].
Qed.

Lemma isASCII_upper (s : string) :
  isASCII (string_map upperByte s) = true -> isASCII s = true.
Proof.
  induction s as [| c s IH]; [reflexivity |].
  unfold isASCII in *. simpl. intros H. bools.
  rewrite (IH H0), andb_true_r.
  unfold upperByte in H. unfold RuneSelf in *.
  destruct (between 97 122 (byteval c)) eqn:E.
  - bools. apply Z.ltb_lt. lia.
  - apply Z.ltb_lt. exact H.
Qed.

(** Upper-casing a string of at most seven bytes yields ["BEARER "] exactly
    on the ASCII spellings of the prefix. *)
Lemma ToUpper_BEARER (s : string) :
  (String.length s <= 7)%nat ->
  ToUpper upperTable s = "BEARER " <-> string_map upperByte s = "BEARER ".
Proof.
  intros Hlen. unfold ToUpper.
  destruct (isASCII s) eqn:Hasc; [reflexivity |].
  split; intros H.
  - exfalso. unfold Map, runes in H.
    pose proof (Map_ascii_length (String.length s) s (le_n _)) as HM.
    cbv zeta in HM. rewrite H in HM.
    destruct (HM eq_refl) as [Hle Heq]. simpl in Hle, Heq.
    assert (String.length s = 7%nat) by lia.
    rewrite Heq in Hasc by lia. discriminate.
  - exfalso. apply (f_equal isASCII) in H.
    rewrite (isASCII_upper s) in Hasc; [discriminate |].
    rewrite H. reflexivity.
Qed.

End MapFacts.

(** ** base64 and the segments of a token *)

(** Every 6-bit value is read back from its character, which is neither a
    line break nor a period. *)

Lemma sixbit_all : forallb sixbitOK (seq 0 64) = true.
Proof. vm_compute. reflexivity. Qed.

Lemma enc6_facts (i : Z) :
  0 <= i < 64 ->
  base64.dec6 (base64.enc6 i) = Some i
  /\ byteval (base64.enc6 i) <> 10
  /\ byteval (base64.enc6 i) <> 13
  /\ byteval (base64.enc6 i) <> 46.
Proof.
  intros Hi.
  pose proof (proj1 (forallb_forall sixbitOK (seq 0 64)) sixbit_all
                (Z.to_nat i)) as H.
  assert (Hin : In (Z.to_nat i) (seq 0 64)) by (apply in_seq; lia).
  specialize (H Hin). unfold sixbitOK in H. rewrite Z2Nat.id in H by lia.
  destruct (base64.dec6 (base64.enc6 i)) as [j |]; [| discriminate].
  bools. subst j. repeat split; assumption.
Qed.

Ltac byte_ranges :=
  repeat match goal with
  | c : ascii |- _ =>
    lazymatch goal with
    | _ : 0 <= byteval c < 256 |- _ => fail
    | _ => pose proof (byteval_range c)
    end
  end.

Ltac arith := byte_ranges; bools; Z.div_mod_to_equations; lia.

Lemma stripNewlines_cons (c : ascii) (s : string) :
  byteval c <> 10 -> byteval c <> 13 ->
  base64.stripNewlines (String c s) = String c (base64.stripNewlines s).
Proof.
  intros H10 H13. simpl.
  destruct (byteval c =? 10) eqn:E1; [bools; lia |].
  destruct (byteval c =? 13) eqn:E2; [bools; lia |]. reflexivity.
Qed.

Lemma bytechr_eq (z : Z) (c : ascii) : z = byteval c -> bytechr z = c.
Proof. intros ->. apply bytechr_byteval. Qed.

Ltac bytes_eq := apply bytechr_eq; arith.

Lemma noDot_cons (c : ascii) (s : string) :
  byteval c <> 46 -> noDot s = true -> noDot (String c s) = true.
Proof.
  intros Hc Hs. unfold noDot in *. simpl. rewrite Hs.
  destruct (byteval c =? 46) eqn:E; [bools; lia | reflexivity].
Qed.

(** Encoding then decoding, by induction on the number of 3-byte groups;
    the encoding contains no line break and no period. *)
Lemma base64_roundtrip_len (n : nat) (s : string) :
  (String.length s <= n)%nat ->
  base64.stripNewlines (base64.EncodeToString s) = base64.EncodeToString s
  /\ base64.decodeQuanta (base64.EncodeToString s) = Some s
  /\ noDot (base64.EncodeToString s) = true.
Proof.
  revert s. induction n as [| n IH]; intros s Hlen.
  { destruct s; [repeat split | simpl in Hlen; lia]. }
  destruct s as [| a [| b [| c rest]]].
  - repeat split.
  - cbn [base64.EncodeToString].
    destruct (enc6_facts (byteval a / 4)) as (D1 & N1 & R1 & P1); [arith |].
    destruct (enc6_facts ((byteval a mod 4) * 16)) as (D2 & N2 & R2 & P2);
      [arith |].
    split; [| split].
    + rewrite !stripNewlines_cons by assumption. reflexivity.
    + cbn [base64.decodeQuanta]. rewrite D1, D2. do 2 f_equal. bytes_eq.
    + repeat apply noDot_cons; auto.
  - cbn [base64.EncodeToString].
    destruct (enc6_facts (byteval a / 4)) as (D1 & N1 & R1 & P1); [arith |].
    destruct (enc6_facts ((byteval a mod 4) * 16 + byteval b / 16))
      as (D2 & N2 & R2 & P2); [arith |].
    destruct (enc6_facts ((byteval b mod 16) * 4)) as (D3 & N3 & R3 & P3);
      [arith |].
    split; [| split].
    + rewrite !stripNewlines_cons by assumption. reflexivity.
    + cbn [base64.decodeQuanta]. rewrite D1, D2, D3.
      f_equal. f_equal; [bytes_eq |]. f_equal. bytes_eq.
    + repeat apply noDot_cons; auto.
  - cbn [base64.EncodeToString].
    destruct (enc6_facts (byteval a / 4)) as (D1 & N1 & R1 & P1); [arith |].
    destruct (enc6_facts ((byteval a mod 4) * 16 + byteval b / 16))
      as (D2 & N2 & R2 & P2); [arith |].
    destruct (enc6_facts ((byteval b mod 16) * 4 + byteval c / 64))
      as (D3 & N3 & R3 & P3); [arith |].
    destruct (enc6_facts (byteval c mod 64)) as (D4 & N4 & R4 & P4);
      [arith |].
    assert (Hrest : (String.length rest <= n)%nat) by (simpl in Hlen; lia).
    destruct (IH rest Hrest) as (IH1 & IH2 & IH3).
    split; [| split].
    + rewrite !stripNewlines_cons by assumption. rewrite IH1. reflexivity.
    + cbn [base64.decodeQuanta]. rewrite D1, D2, D3, D4, IH2.
      f_equal. f_equal; [bytes_eq |]. f_equal; [bytes_eq |].
      f_equal. bytes_eq.
    + repeat apply noDot_cons; auto.
Qed.

Lemma base64_roundtrip (s : string) :
  base64.DecodeString (base64.EncodeToString s) = Some s.
Proof.
  unfold base64.DecodeString.
  destruct (base64_roundtrip_len (String.length s) s (le_n _)) as (E & H & _).
  rewrite E. exact H.
Qed.

Lemma base64_noDot (s : string) : noDot (base64.EncodeToString s) = true.
Proof.
  apply (base64_roundtrip_len (String.length s) s (le_n _)).
Qed.

(** ** The three segments of a token *)

Lemma splitDot_noDot (a : string) : noDot a = true -> jwt.splitDot a = [a].
Proof.
  induction a as [| c a IH]; [reflexivity |].
  unfold noDot. simpl. intros H. bools.
  destruct (byteval c =? 46) eqn:E; [bools; lia |].
  fold (noDot a) in H0. rewrite (IH H0). reflexivity.
Qed.

Lemma splitDot_app (a b : string) :
  noDot a = true ->
  jwt.splitDot (a +:+ String "." b) = a :: jwt.splitDot b.
Proof.
  induction a as [| c a IH]; [reflexivity |].
  unfold noDot. cbn [string_forallb]. intros H. bools.
  rewrite append_cons. cbn [jwt.splitDot].
  destruct (byteval c =? 46) eqn:E; [bools; lia |].
  fold (noDot a) in H0. rewrite (IH H0). reflexivity.
Qed.

Lemma splitDot_three (a b c : string) :
  noDot a = true -> noDot b = true -> noDot c = true ->
  jwt.splitDot (a +:+ "." +:+ b +:+ "." +:+ c) = [a; b; c].
Proof.
  intros Ha Hb Hc. rewrite !append_cons, !append_nil.
  rewrite splitDot_app by assumption.
  rewrite splitDot_app by assumption.
  rewrite splitDot_noDot by assumption. reflexivity.
Qed.

(** ** UTF-8 *)

Ltac decide_if :=
  match goal with
  | |- context [if ?b then _ else _] =>
    let E := fresh "E" in
    destruct b eqn:E; try (exfalso; unfold between, MaxRune in *; arith)
  end.

(** A valid encoding of several bytes: it is the encoding of the rune it
    decodes to, it decodes alike whatever follows it, and all its bytes are
    above ASCII. *)
Lemma Decode_valid (c : ascii) (s1 : string) (r : Z) (w : nat) :
  DecodeRuneInString (String c s1) = (r, w) ->
  0x80 <= byteval c ->
  ~ (r = RuneError /\ w = 1%nat) ->
  EncodeRune r = string_take w (String c s1)
  /\ (forall t,
      DecodeRuneInString (string_take w (String c s1) +:+ t) = (r, w))
  /\ highBytes (string_take w (String c s1)) = true
  /\ (2 <= w <= S (String.length s1))%nat.
Proof.
  intros Hdec Hhigh Hok.
  unfold DecodeRuneInString, RuneSelf in Hdec.
  destruct (byteval c <? 128) eqn:H0; [bools; lia |].
  destruct (between 194 223 (byteval c)) eqn:H2.
  { destruct s1 as [| c1 s2]; [injection Hdec as <- <-; tauto |].
    destruct (cont (byteval c1)) eqn:C1; [| injection Hdec as <- <-; tauto].
    injection Hdec as <- <-. cbn [string_take].
    split; [| split; [| split]].
    - unfold EncodeRune, cont in *. repeat decide_if.
      f_equal; [| f_equal]; apply bytechr_eq; unfold between in *; arith.
    - intros t. rewrite !append_cons, append_nil.
      unfold DecodeRuneInString, RuneSelf. rewrite H0, H2, C1. reflexivity.
    - unfold highBytes, cont, between in *. cbn [string_forallb].
      rewrite !andb_true_iff, !Z.leb_le. arith.
    - simpl. lia. }
  destruct (between 224 239 (byteval c)) eqn:H3.
  { destruct s1 as [| c1 [| c2 s3]]; try (injection Hdec as <- <-; tauto).
    destruct (second3 (byteval c) (byteval c1) && cont (byteval c2)) eqn:C1;
      [| injection Hdec as <- <-; tauto].
    injection Hdec as <- <-. cbn [string_take].
    pose proof C1 as Cb. apply andb_prop in Cb as [Cb1 Cb2].
    unfold second3 in Cb1.
    destruct (byteval c =? 224) eqn:Q1;
      [| destruct (byteval c =? 237) eqn:Q2].
    all: split; [| split; [| split]].
    all: try (unfold EncodeRune, enc3, cont in *;
      repeat decide_if;
        (f_equal; [| f_equal; [| f_equal]]; apply bytechr_eq;
         unfold between in *; arith); fail).
    all: try (simpl; lia).
    all: try (intros t; rewrite !append_cons, append_nil;
      unfold DecodeRuneInString, RuneSelf; rewrite H0, H2, H3, C1;
      reflexivity).
    all: unfold highBytes, cont, between in *; cbn [string_forallb];
      rewrite !andb_true_iff, !Z.leb_le; arith. }
  destruct (between 240 244 (byteval c)) eqn:H4.
  { destruct s1 as [| c1 [| c2 [| c3 s4]]];
      try (injection Hdec as <- <-; tauto).
    destruct (second4 (byteval c) (byteval c1) && cont (byteval c2)
              && cont (byteval c3)) eqn:C1;
      [| injection Hdec as <- <-; tauto].
    injection Hdec as <- <-. cbn [string_take].
    pose proof C1 as Cb. apply andb_prop in Cb as [Cb Cb3].
    apply andb_prop in Cb as [Cb1 Cb2].
    unfold second4 in Cb1.
    destruct (byteval c =? 240) eqn:Q1;
      [| destruct (byteval c =? 244) eqn:Q2].
    all: split; [| split; [| split]].
    all: try (unfold EncodeRune, enc3, cont in *;
      repeat decide_if;
        (f_equal; [| f_equal; [| f_equal; [| f_equal]]]; apply bytechr_eq;
         unfold between in *; arith); fail).
    all: try (simpl; lia).
    all: try (intros t; rewrite !append_cons, append_nil;
      unfold DecodeRuneInString, RuneSelf; rewrite H0, H2, H3, H4, C1;
      reflexivity).
    all: unfold highBytes, cont, between in *; cbn [string_forallb];
      rewrite !andb_true_iff, !Z.leb_le; arith. }
  injection Hdec as <- <-; tauto.
Qed.

(** ** JSON strings *)

Lemma append_assoc (a b c : string) : (a +:+ b) +:+ c = a +:+ (b +:+ c).
Proof.
  induction a as [| x a IH]; [reflexivity |].
  rewrite !append_cons, IH. reflexivity.
Qed.

Lemma append_nil_r (a : string) : a +:+ EmptyString = a.
Proof.
  induction a as [| x a IH]; [reflexivity |].
  rewrite append_cons, IH. reflexivity.
Qed.

Lemma scannable_nil : scannable EmptyString.
Proof.
  intros t. rewrite append_nil. destruct (scanString t) as [[lit rest] |];
    reflexivity.
Qed.

Lemma scannable_app (a b : string) :
  scannable a -> scannable b -> scannable (a +:+ b).
Proof.
  intros Ha Hb t. rewrite append_assoc, Ha, Hb.
  destruct (scanString t) as [[lit rest] |]; [| reflexivity].
  rewrite append_assoc. reflexivity.
Qed.

Lemma scannable_ascii (c : ascii) :
  byteval c < 0x80 -> scannable (asciiChunk c).
Proof.
  intros Hc t. revert Hc.
  destruct c as [[] [] [] [] [] [] [] []]; intros Hc;
    try (exfalso; vm_compute in Hc; discriminate Hc);
    lazy -[scanString]; cbn [scanString]; lazy -[scanString];
    destruct (scanString t) as [[lit rest] |]; reflexivity.
Qed.

Lemma high_not_special (c : ascii) :
  0x80 <= byteval c ->
  Ascii.eqb c dquote = false /\ Ascii.eqb c backslash = false
  /\ (byteval c <? 0x20) = false /\ (byteval c <? RuneSelf) = false.
Proof.
  intros Hc. repeat split.
  - apply Ascii.eqb_neq. intros ->. vm_compute in Hc. apply Hc. reflexivity.
  - apply Ascii.eqb_neq. intros ->. vm_compute in Hc. apply Hc. reflexivity.
  - apply Z.ltb_ge. lia.
  - apply Z.ltb_ge. unfold RuneSelf. lia.
Qed.

Lemma scannable_high (k : string) : highBytes k = true -> scannable k.
Proof.
  induction k as [| c k IH]; [intros _; apply scannable_nil |].
  unfold highBytes. cbn [string_forallb]. intros H. bools.
  fold (highBytes k) in H0. intros t. rewrite append_cons.
  destruct (high_not_special c H) as (Q & B & L & _).
  cbn [scanString]. rewrite Q, L, B, (IH H0 t).
  destruct (scanString t) as [[lit rest] |]; reflexivity.
Qed.

Lemma scannable_u202 (r : Z) :
  r = 0x2028 \/ r = 0x2029 ->
  scannable (String backslash "u202" +:+ String (hexchar (r mod 16)) "").
Proof.
  intros [-> | ->] t;
    lazy -[scanString]; cbn [scanString]; lazy -[scanString];
    destruct (scanString t) as [[lit rest] |]; reflexivity.
Qed.

Lemma scannable_ufffd : scannable (String backslash "ufffd").
Proof.
  intros t.
  lazy -[scanString]; cbn [scanString]; lazy -[scanString];
    destruct (scanString t) as [[lit rest] |]; reflexivity.
Qed.

Lemma appendString_scannable (n : nat) (s : string) :
  scannable (appendString_fuel n s).
Proof.
  revert s. induction n as [| n IH]; intros s.
  { destruct s; apply scannable_nil. }
  destruct s as [| c s1]; [apply scannable_nil |].
  cbn [appendString_fuel].
  destruct (byteval c <? RuneSelf) eqn:Hc.
  { apply scannable_app; [| apply IH].
    apply scannable_ascii. unfold RuneSelf in Hc. bools. lia. }
  destruct (DecodeRuneInString (String c s1)) as [r w] eqn:Hdec.
  destruct ((r =? RuneError) && (w =? 1)%nat) eqn:Hbad.
  { apply scannable_app; [apply scannable_ufffd | apply IH]. }
  assert (Hok : ~ (r = RuneError /\ w = 1%nat)).
  { intros [-> ->]. discriminate Hbad. }
  assert (Hhigh : 0x80 <= byteval c) by (unfold RuneSelf in Hc; bools; lia).
  destruct (Decode_valid _ _ _ _ Hdec Hhigh Hok) as (_ & _ & Hbytes & _).
  destruct ((r =? 0x2028) || (r =? 0x2029)) eqn:Hsep.
  { rewrite <- append_assoc. apply scannable_app; [| apply IH].
    apply scannable_u202. apply orb_prop in Hsep.
    destruct Hsep; bools; auto. }
  apply scannable_app; [apply scannable_high; exact Hbytes | apply IH].
Qed.

(** The scanner finds the end of a literal that [appendString] wrote. *)
Lemma scanString_appendString (s rest : string) :
  scanString (appendString s +:+ String dquote rest)
  = Some (appendString s, rest).
Proof.
  unfold appendString. rewrite appendString_scannable.
  cbn [scanString]. rewrite Ascii.eqb_refl, append_nil_r. reflexivity.
Qed.

(** *** Reading a literal back *)

Lemma unquote_ascii (c : ascii) (f : nat) (lit : string) :
  byteval c < 0x80 ->
  unquote_fuel (S f) (asciiChunk c +:+ lit)
  = option_map (String c) (unquote_fuel f lit).
Proof.
  revert f lit.
  destruct c as [[] [] [] [] [] [] [] []]; intros f lit Hc;
    try (exfalso; vm_compute in Hc; discriminate Hc);
    lazy -[unquote_fuel]; cbn [unquote_fuel]; lazy -[unquote_fuel];
    reflexivity.
Qed.

Lemma unquote_u202 (r : Z) (f : nat) (lit : string) :
  r = 0x2028 \/ r = 0x2029 ->
  unquote_fuel (S f)
    ((String backslash "u202" +:+ String (hexchar (r mod 16)) "") +:+ lit)
  = option_map (String.append (EncodeRune r)) (unquote_fuel f lit).
Proof.
  intros [-> | ->];
    lazy -[unquote_fuel]; cbn [unquote_fuel]; lazy -[unquote_fuel];
    reflexivity.
Qed.

Lemma drop_take_append (w : nat) (s t : string) :
  (w <= String.length s)%nat ->
  string_drop w (string_take w s +:+ t) = t.
Proof.
  revert s. induction w as [| w IH]; intros s Hw; [reflexivity |].
  destruct s as [| c s]; [simpl in Hw; lia |].
  cbn [string_take]. rewrite append_cons. cbn [string_drop].
  apply IH. simpl in Hw. lia.
Qed.

Lemma length_asciiChunk (c : ascii) :
  (1 <= String.length (asciiChunk c))%nat.
Proof.
  unfold asciiChunk, escapeByte.
  repeat match goal with
  | |- context [if ?b then _ else _] => destruct b
  end; simpl; lia.
Qed.

Lemma length_string_take (w : nat) (s : string) :
  (w <= String.length s)%nat -> String.length (string_take w s) = w.
Proof.
  revert s. induction w as [| w IH]; intros s Hw; [reflexivity |].
  destruct s as [| c s]; [simpl in Hw; lia |].
  simpl. rewrite IH; [reflexivity | simpl in Hw; lia].
Qed.

Lemma unquote_appendString_fuel (n : nat) (s : string) :
  (String.length s <= n)%nat ->
  validRunes (runes_fuel n s) = true ->
  forall f,
    (String.length (appendString_fuel n s) <= f)%nat ->
    unquote_fuel f (appendString_fuel n s) = Some s.
Proof.
  revert s. induction n as [| n IH]; intros s Hlen Hvalid f Hf.
  { destruct s; [destruct f; reflexivity | simpl in Hlen; lia]. }
  destruct s as [| c s1]; [destruct f; reflexivity |].
  revert Hvalid Hf. cbn [appendString_fuel runes_fuel].
  destruct (DecodeRuneInString (String c s1)) as [r w] eqn:Hdec.
  unfold validRunes. cbn [forallb fst snd]. fold validRunes.
  intros Hvalid. apply andb_prop in Hvalid as [Hrune Hrest].
  pose proof (Decode_shape _ _ _ _ Hdec) as Hshape.
  destruct (byteval c <? RuneSelf) eqn:Hc.
  { (* an ASCII byte *)
    fold (asciiChunk c). rewrite length_append. intros Hf.
    pose proof (length_asciiChunk c) as Hk.
    destruct f as [| f]; [lia |].
    assert (Hw : w = 1%nat).
    { unfold RuneSelf in Hc. bools.
      destruct Hshape as [[-> _] | [? _]]; [reflexivity | lia]. }
    subst w. cbn [string_drop] in Hrest.
    rewrite unquote_ascii by (unfold RuneSelf in Hc; bools; lia).
    rewrite IH; [reflexivity | simpl in Hlen; lia | exact Hrest | lia]. }
  assert (Hhigh : 0x80 <= byteval c) by (unfold RuneSelf in Hc; bools; lia).
  assert (Hok : ~ (r = RuneError /\ w = 1%nat)).
  { intros [-> ->]. discriminate Hrune. }
  apply negb_true_iff in Hrune. rewrite Hrune.
  destruct (Decode_valid _ _ _ _ Hdec Hhigh Hok)
    as (Henc & Hdec' & Hbytes & Hw).
  assert (Hdrop : (String.length (string_drop w (String c s1)) <= n)%nat).
  { rewrite length_string_drop. simpl in *. lia. }
  destruct ((r =? 0x2028) || (r =? 0x2029)) eqn:Hsep.
  { (* a line or paragraph separator *)
    rewrite <- append_assoc. rewrite length_append. intros Hf.
    destruct f as [| f]; [rewrite length_append in Hf; simpl in Hf; lia |].
    rewrite unquote_u202
      by (apply orb_prop in Hsep; destruct Hsep; bools; auto).
    rewrite IH; [| exact Hdrop | exact Hrest
                 | rewrite length_append in Hf; simpl in Hf; lia].
    cbn [option_map]. rewrite Henc, string_take_drop. reflexivity. }
  (* any other rune, copied *)
  rewrite length_append, length_string_take by (simpl; lia). intros Hf.
  destruct f as [| f]; [lia |].
  assert (Hcons : exists k, string_take w (String c s1) = String c k).
  { destruct w; [lia |]. eexists. reflexivity. }
  destruct Hcons as [k Hk].
  pose proof (Hdec' (appendString_fuel n (string_drop w (String c s1))))
    as Hd.
  remember (appendString_fuel n (string_drop w (String c s1))) as lit.
  assert (Hdr : string_drop w (string_take w (String c s1) +:+ lit) = lit)
    by (apply drop_take_append; simpl; lia).
  rewrite Hk in Hd, Hdr |- *. rewrite append_cons in Hd, Hdr |- *.
  destruct (high_not_special c Hhigh) as (Q & B & L & R).
  cbn [unquote_fuel]. rewrite B, Q, L, R, Hd, Hdr. cbn [orb].
  subst lit. rewrite IH; [| exact Hdrop | exact Hrest | lia].
  cbn [option_map]. rewrite Henc, string_take_drop. reflexivity.
Qed.

(** Valid UTF-8 survives [appendString] followed by [unquote]. *)
Lemma unquote_appendString (s : string) :
  ValidString s = true -> unquote (appendString s) = Some s.
Proof.
  intros Hvalid. unfold unquote, appendString.
  apply unquote_appendString_fuel; [lia | exact Hvalid | lia].
Qed.

(** *** Whole numbers *)

Lemma string_of_uint_digits (d : Decimal.uint) :
  string_forallb isNumChar (NilEmpty.string_of_uint d) = true.
Proof.
  induction d; cbn [NilEmpty.string_of_uint string_forallb];
    try rewrite IHd; reflexivity.
Qed.

Lemma FormatInt_digits (n : Z) :
  string_forallb isNumChar (FormatInt n) = true.
Proof.
  unfold FormatInt.
  destruct (Z.to_int n) as [d | d]; cbn [NilZero.string_of_int];
    [| cbn [string_forallb]; change (isNumChar "-") with true;
       cbn [andb]];
    (destruct d; try reflexivity;
     unfold NilZero.string_of_uint; apply string_of_uint_digits).
Qed.

Lemma to_int_nonnil (n : Z) :
  Z.to_int n <> Decimal.Pos Decimal.Nil
  /\ Z.to_int n <> Decimal.Neg Decimal.Nil.
Proof.
  destruct n as [| p | p]; cbn [Z.to_int]; split; try discriminate;
    intros [= H]; exact (Unsigned.to_uint_nonnil p H).
Qed.

Lemma parseInt_FormatInt (n : Z) : parseInt (FormatInt n) = Some n.
Proof.
  unfold parseInt, FormatInt at 1.
  destruct (to_int_nonnil n) as [Hp Hn].
  rewrite (NilZero.isi _ Hp Hn), DecimalZ.of_to.
  fold (FormatInt n). rewrite String.eqb_refl. reflexivity.
Qed.

Lemma spanNumber_digits (lit : string) (d : ascii) (rest : string) :
  string_forallb isNumChar lit = true ->
  isNumChar d = false ->
  spanNumber (lit +:+ String d rest) = (lit, String d rest).
Proof.
  intros Hlit Hd. induction lit as [| c lit IH].
  - rewrite append_nil. cbn [spanNumber]. rewrite Hd. reflexivity.
  - cbn [string_forallb] in Hlit. apply andb_prop in Hlit as [Hc Hlit].
    rewrite append_cons. cbn [spanNumber]. rewrite Hc, (IH Hlit).
    reflexivity.
Qed.

Lemma FormatInt_head (n : Z) :
  exists c lit, FormatInt n = String c lit /\ isNumChar c = true.
Proof.
  pose proof (FormatInt_digits n) as H.
  destruct (FormatInt n) as [| c lit] eqn:E.
  - exfalso. pose proof (parseInt_FormatInt n) as P. rewrite E in P.
    vm_compute in P. discriminate P.
  - cbn [string_forallb] in H. apply andb_prop in H as [Hc _].
    exists c, lit. auto.
Qed.

Lemma numchar_not_dquote (c : ascii) :
  isNumChar c = true -> Ascii.eqb c dquote = false.
Proof.
  intros H. apply Ascii.eqb_neq. intros ->. vm_compute in H. discriminate H.
Qed.

(** A number followed by the closing brace of the object. *)
Lemma parseValue_number (n : Z) (rest : string) :
  parseValue (FormatInt n +:+ String "}" rest)
  = Some (Number n, String "}" rest).
Proof.
  destruct (FormatInt_head n) as (c & lit & E & Hc).
  pose proof (spanNumber_digits (FormatInt n) "}" rest (FormatInt_digits n)
                eq_refl) as Hspan.
  unfold parseValue. rewrite E in Hspan |- *. rewrite append_cons in *.
  rewrite (numchar_not_dquote c Hc), Hspan.
  rewrite <- E, parseInt_FormatInt. reflexivity.
Qed.

(** A string literal of valid UTF-8, whatever follows it. *)
Lemma parseValue_string (v rest : string) :
  ValidString v = true ->
  parseValue (String dquote (appendString v +:+ String dquote rest))
  = Some (String_ v, rest).
Proof.
  intros Hv. unfold parseValue. rewrite Ascii.eqb_refl.
  rewrite scanString_appendString, (unquote_appendString v Hv).
  reflexivity.
Qed.

(** *** The claims object *)

Lemma parseMembers_member (f : nat) (k : string) (body : string)
  (v : value) (sep : ascii) (rest : string) :
  ValidString k = true ->
  parseValue body = Some (v, String sep rest) ->
  parseMembers (S f)
    (String dquote (appendString k +:+ String dquote (String ":" body)))
  = if byteval sep =? 44
    then option_map (cons (k, v)) (parseMembers f rest)
    else if (byteval sep =? 125) && String.eqb rest EmptyString
         then Some [(k, v)] else None.
Proof.
  intros Hk Hv. cbn [parseMembers]. rewrite Ascii.eqb_refl.
  rewrite scanString_appendString.
  change (byteval ":" =? 58) with true. cbv iota.
  rewrite (unquote_appendString k Hk), Hv. reflexivity.
Qed.

(** ** Tokens *)

Lemma valid_email_key : ValidString "email" = true.
Proof. reflexivity. Qed.

Lemma valid_role_key : ValidString "role" = true.
Proof. reflexivity. Qed.

Lemma valid_exp_key : ValidString "exp" = true.
Proof. reflexivity. Qed.

Lemma marshalClaims_shape (email role : string) (exp : Z) :
  jwt.marshalClaims (issued email role exp)
  = String "{"
      (String dquote (appendString "email" +:+ String dquote (String ":"
        (String dquote (appendString email +:+ String dquote (String ","
          (String dquote (appendString "role" +:+ String dquote (String ":"
            (String dquote (appendString role +:+ String dquote (String ","
              (String dquote (appendString "exp" +:+ String dquote
                (String ":" (FormatInt exp +:+ "}")))))))))))))))).
Proof.
  unfold jwt.marshalClaims, jwt.marshalDate, issued, quote.
  cbn [Email Role Registered ExpiresAt NotBefore].
  repeat (rewrite ?append_assoc, ?append_cons, ?append_nil). reflexivity.
Qed.

Lemma parseObject_claims (email role : string) (exp : Z) :
  ValidString email = true -> ValidString role = true ->
  parseObject (jwt.marshalClaims (issued email role exp))
  = Some [("email", String_ email); ("role", String_ role);
          ("exp", Number exp)].
Proof.
  intros He Hr. rewrite marshalClaims_shape.
  unfold parseObject. change (byteval "{" =? 123) with true. cbv iota.
  match goal with
  | |- context [String.eqb ?s "}"] =>
    replace (String.eqb s "}") with false
      by (symmetry; apply String.eqb_neq; intros [= H]; vm_compute in H;
          discriminate H)
  end.
  match goal with
  | |- context [parseMembers ?len _] =>
    assert (Hfuel : exists f, len = S (S (S f)))
  end.
  { cbn [String.length]. rewrite length_append. cbn [String.length].
    eexists. rewrite Nat.add_succ_r. rewrite Nat.add_succ_r. reflexivity. }
  destruct Hfuel as [f ->].
  rewrite (parseMembers_member _ "email" _ (String_ email) "," _
             valid_email_key (parseValue_string email _ He)).
  change (byteval "," =? 44) with true. cbv iota.
  rewrite (parseMembers_member _ "role" _ (String_ role) "," _
             valid_role_key (parseValue_string role _ Hr)).
  change (byteval "," =? 44) with true. cbv iota.
  rewrite (parseMembers_member _ "exp" _ (Number exp) "}" EmptyString
             valid_exp_key (parseValue_number exp EmptyString)).
  reflexivity.
Qed.

Lemma unmarshal_marshal (email role : string) (exp : Z) :
  ValidString email = true -> ValidString role = true ->
  Z.abs exp <= 2 ^ 53 ->
  jwt.unmarshalClaims (jwt.marshalClaims (issued email role exp))
  = Some (issued email role exp).
Proof.
  intros He Hr Hexp. unfold jwt.unmarshalClaims.
  rewrite (parseObject_claims email role exp He Hr).
  cbn [jwt.setFields jwt.setField].
  change (jwt.foldEq "email" "email") with true.
  change (jwt.foldEq "role" "email") with false.
  change (jwt.foldEq "role" "role") with true.
  change (jwt.foldEq "exp" "email") with false.
  change (jwt.foldEq "exp" "role") with false.
  change (jwt.foldEq "exp" "exp") with true.
  cbv iota. cbn [jwt.readString jwt.readDate option_map].
  apply Z.leb_le in Hexp. rewrite Hexp. reflexivity.
Qed.

Lemma parseObject_header :
  parseObject (jwt.marshalHeader jwt.HS256)
  = Some [("alg", String_ "HS256"); ("typ", String_ "JWT")].
Proof. vm_compute. reflexivity. Qed.

Section RoundTrip.

Variable hmac : jwt.SigningMethod -> string -> string -> string.

Lemma parse_signed (email role : string) (exp : Z) (key : string) (t : Z) :
  ValidString email = true -> ValidString role = true ->
  Z.abs exp <= 2 ^ 53 ->
  t < exp * Second ->
  jwt.ParseWithClaims hmac
    (fst (jwt.SignedString hmac jwt.HS256 (issued email role exp) key)) key t
  = {| jwt.Valid := true; jwt.claims := issued email role exp;
       jwt.err := None |}.
Proof.
  intros He Hr Hexp Ht.
  unfold jwt.SignedString, jwt.SigningString. cbn [fst].
  unfold jwt.ParseWithClaims.
  rewrite append_assoc. rewrite append_assoc.
  rewrite splitDot_three by apply base64_noDot.
  rewrite !base64_roundtrip, parseObject_header.
  rewrite (unmarshal_marshal email role exp He Hr Hexp).
  change (jwt.lookupLast "alg" _) with (Some (String_ "HS256")).
  cbv iota.
  change (jwt.GetSigningMethod "HS256") with (Some jwt.HS256). cbv iota.
  rewrite String.eqb_refl.
  unfold jwt.validate, issued. cbn [Registered ExpiresAt NotBefore].
  apply Z.ltb_lt in Ht. rewrite Ht. reflexivity.
Qed.

(** C5, as the code has it. For every email and role that are valid UTF-8,
    a token issued by [generateToken] at an instant [now] within the range
    of [UnixNano], and verified with the same key at any instant [t] before
    the expiry it carries, is accepted, and the claims read back are the
    same email and the same role, with the expiry of 24 hours after [now]
    truncated to the second. *)
Theorem issued_token_verifies (email role : string) (now t : Z) :
  ValidString email = true -> ValidString role = true ->
  - 2 ^ 63 <= now < 2 ^ 63 ->
  t < jwt.NewNumericDate (now + 24 * Hour) * Second ->
  snd (generateToken hmac email role now) = None
  /\ jwt.ParseWithClaims hmac (fst (generateToken hmac email role now))
       jwtKey t
     = {| jwt.Valid := true;
          jwt.claims :=
            {| Email := email; Role := role;
               Registered :=
                 {| ExpiresAt := Some (jwt.NewNumericDate (now + 24 * Hour));
                    NotBefore := None |} |};
          jwt.err := None |}.
Proof.
  intros He Hr Hnow Ht. split; [reflexivity |].
  unfold generateToken.
  apply (parse_signed email role (jwt.NewNumericDate (now + 24 * Hour))
           jwtKey t He Hr); [| exact Ht].
  unfold jwt.NewNumericDate, Hour, Second.
  apply Z.abs_le. Z.div_mod_to_equations. lia.
Qed.

End RoundTrip.

(** ** The codec models on known values *)

(** The Euro sign, U+20AC, is the three bytes E2 82 AC. *)
Example euro_sign :
  EncodeRune 0x20AC
  = String "226"%char (String "130"%char (String "172"%char EmptyString))
  /\ DecodeRuneInString (EncodeRune 0x20AC) = (0x20AC, 3%nat).
Proof. split; reflexivity. Qed.

(** The first segment of every HS256 token. *)
Example header_segment :
  base64.EncodeToString (jwt.marshalHeader jwt.HS256)
  = "eyJhbGciOiJIUzI1NiIsInR5cCI6IkpXVCJ9".
Proof. vm_compute. reflexivity. Qed.

(** The second segment of the token of the spec's example. *)
Example claims_segment :
  base64.EncodeToString
    (jwt.marshalClaims (issued "a@b.com" "admin" 1700000000))
  = "eyJlbWFpbCI6ImFAYi5jb20iLCJyb2xlIjoiYWRtaW4iLCJleHAiOjE3MDAwMDAwMDB9".
Proof. vm_compute. reflexivity. Qed.

(** HTML-sensitive characters and control characters are escaped. *)
Example escaped_text :
  appendString ("a<b" +:+ String "010"%char EmptyString)
  = "a" +:+ String backslash "u003cb" +:+ String backslash "n".
Proof. vm_compute. reflexivity. Qed.

(** The scenario of the spec: registration without a role stores "user";
    a login with the right password issues a token that carries it; a
    login with a wrong password is unauthenticated. *)
Example register_then_login :
  let empty := {| sql.users := []; sql.users_id_seq := 0 |} in
  let d := snd (Register toyHash
                  {| pb.RegisterRequest_Name := "John";
                     pb.RegisterRequest_Email := "john@x.com";
                     pb.RegisterRequest_Password := "pw123";
                     pb.RegisterRequest_Role := EmptyString |} empty) in
  d = oneUser
  /\ (exists token,
        fst (Login toyHmac toyCheck
               {| pb.LoginRequest_Email := "john@x.com";
                  pb.LoginRequest_Password := "pw123" |} 0 d)
        = inl {| pb.Token := token |}
        /\ Role (jwt.claims (jwt.ParseWithClaims toyHmac token jwtKey 1))
           = "user")
  /\ fst (Login toyHmac toyCheck
            {| pb.LoginRequest_Email := "john@x.com";
               pb.LoginRequest_Password := "wrong" |} 0 d)
     = inr (status_Errorf codes.Unauthenticated "incorrect password").
Proof.
  split; [reflexivity | split; [| reflexivity]].
  eexists. split; [reflexivity |]. vm_compute. reflexivity.
Qed.

(** ** The interceptor *)

Section InterceptorFacts.

Variables Req Resp World : Type.
Variable upperTable lowerTable : Z -> Z.
Variable ParseWithClaims : string -> string -> jwt.Parsed.

Local Abbreviation intercept :=
  (AuthInterceptor upperTable lowerTable Req Resp World ParseWithClaims).

Lemma public_lookup (m : string) :
  In m publicSet -> map_bool_get publicMethods m = true.
Proof.
  unfold publicSet. simpl.
  intros [<- | [<- | []]]; vm_compute; reflexivity.
Qed.

Lemma admin_lookup (m : string) :
  In m adminSet ->
  map_bool_get publicMethods m = false /\ map_bool_get adminMethods m = true.
Proof.
  unfold adminSet. simpl.
  intros [<- | [<- | [<- | [<- | []]]]]; vm_compute; split; reflexivity.
Qed.

(** C2. A call to a public method ([Login], [Register]) is handed to the
    wrapped operation as it is, whatever the metadata of the context and
    whatever the verifier would answer: the result and the world are those
    of the handler. *)
Theorem public_methods_bypass (ctx : Context) (req : Req)
  (info : UnaryServerInfo) (handler : UnaryHandler Req Resp World)
  (w : World) :
  In (FullMethod info) publicSet ->
  intercept ctx req info handler w = handler ctx req w.
Proof.
  intros Hpub. unfold AuthInterceptor.
  rewrite (public_lookup _ Hpub). reflexivity.
Qed.


(** C1. On an admin method, with a token that passes verification: when the
    lower-cased role claim is not "admin" the call is rejected with
    permission denied, a code other than unauthenticated, and the world is
    untouched whatever the handler; when it is "admin" the call is handed
    to the wrapped operation. *)
Theorem admin_methods_need_admin_role (ctx : Context) (req : Req)
  (info : UnaryServerInfo) (handler : UnaryHandler Req Resp World)
  (w : World) (md : gmap string (list string))
  (tokenString : string) (more : list string) (tkn : jwt.Parsed) :
  In (FullMethod info) adminSet ->
  incomingMD ctx = Some md ->
  MD_get md "authorization" = tokenString :: more ->
  ParseWithClaims (stripBearer upperTable tokenString) jwtKey = tkn ->
  jwt.err tkn = None -> jwt.Valid tkn = true ->
  (strings.ToLower lowerTable (Role (jwt.claims tkn)) <> "admin" ->
   intercept ctx req info handler w =
   (inr (status_Errorf codes.PermissionDenied
           "Access Denied: You are not an admin"), w))
  /\ (strings.ToLower lowerTable (Role (jwt.claims tkn)) = "admin" ->
      intercept ctx req info handler w = handler ctx req w)
  /\ codes.PermissionDenied <> codes.Unauthenticated.
Proof.
  intros Hadm Hmd Hval Hparse Herr Hvalid.
  destruct (admin_lookup _ Hadm) as [Hpub Hadmin].
  unfold AuthInterceptor. rewrite Hpub, Hmd, Hval, Hparse.
  unfold afterParse. rewrite Herr, Hvalid, Hadmin. simpl.
  split; [| split].
  - intros Hne. apply String.eqb_neq in Hne. rewrite Hne. reflexivity.
  - intros Heq. apply String.eqb_eq in Heq. rewrite Heq. reflexivity.
  - discriminate.
Qed.

Lemma stripBearer_spec (tokenString : string) :
  (bearerPrefixed tokenString /\ (7 < String.length tokenString)%nat ->
   stripBearer upperTable tokenString = string_drop 7 tokenString)
  /\ (~ bearerPrefixed tokenString \/ (String.length tokenString <= 7)%nat ->
      stripBearer upperTable tokenString = tokenString).
Proof.
  unfold stripBearer, bearerPrefixed.
  assert (Htake : (String.length (string_take 7 tokenString) <= 7)%nat).
  { generalize 7%nat. intros n. revert tokenString.
    induction n as [| n IH]; intros [| c s]; simpl; auto with arith. }
  pose proof (ToUpper_BEARER upperTable _ Htake) as Hup.
  split.
  - intros [Hpre Hlen].
    destruct (7 <? Z.of_nat (String.length tokenString)) eqn:E;
      [| bools; lia].
    apply Hup in Hpre. apply String.eqb_eq in Hpre. rewrite Hpre.
    reflexivity.
  - intros [Hnot | Hlen].
    + destruct (String.eqb _ "BEARER ") eqn:E.
      * apply String.eqb_eq in E. apply Hup in E. contradiction.
      * rewrite andb_false_r. reflexivity.
    + destruct (7 <? Z.of_nat (String.length tokenString)) eqn:E;
        [bools; lia | reflexivity].
Qed.

(** C8, as the code has it. On a non-public method, a credential string that
    begins with "Bearer " in any letter case and is longer than those seven
    characters is verified without them; a credential string that does not
    begin so, or that has at most seven characters, is verified whole. The
    statement holds for every verifier, so it fixes the string the
    verifier receives. *)
Theorem bearer_prefix_stripped_when_longer (ctx : Context) (req : Req)
  (info : UnaryServerInfo) (handler : UnaryHandler Req Resp World)
  (w : World) (md : gmap string (list string))
  (tokenString : string) (more : list string) :
  map_bool_get publicMethods (FullMethod info) = false ->
  incomingMD ctx = Some md ->
  MD_get md "authorization" = tokenString :: more ->
  (bearerPrefixed tokenString /\ (7 < String.length tokenString)%nat ->
   intercept ctx req info handler w =
   afterParse lowerTable Req Resp World
     (ParseWithClaims (string_drop 7 tokenString) jwtKey)
     ctx req info handler w)
  /\ (~ bearerPrefixed tokenString \/ (String.length tokenString <= 7)%nat ->
      intercept ctx req info handler w =
      afterParse lowerTable Req Resp World
        (ParseWithClaims tokenString jwtKey) ctx req info handler w).
Proof.
  intros Hpub Hmd Hval. unfold AuthInterceptor. rewrite Hpub, Hmd, Hval.
  destruct (stripBearer_spec tokenString) as [Hstrip Hkeep].
  split; intros H.
  - rewrite (Hstrip H). reflexivity.
  - rewrite (Hkeep H). reflexivity.
Qed.

End InterceptorFacts.

(** ** The service *)

Section ServiceFacts.

Variable hmac : jwt.SigningMethod -> string -> string -> string.
Variable hashPassword : string -> string * option error.
Variable checkPassword : string -> string -> bool.

Lemma update_absent_rows (n e : string) (i : Z) (rows : list sql.Row) :
  List.filter (sql.hasId i) rows = [] ->
  List.map (sql.setNameEmail n e i) rows = rows
  /\ existsb (sql.hasId i) rows = false.
Proof.
  induction rows as [| r rows IH]; simpl; [split; reflexivity |].
  unfold sql.setNameEmail at 1.
  destruct (sql.hasId i r) eqn:Hr; [discriminate |].
  intros Hrest. destruct (IH Hrest) as [-> ->]. split; reflexivity.
Qed.

Lemma delete_absent_rows (i : Z) (rows : list sql.Row) :
  List.filter (sql.hasId i) rows = [] ->
  List.filter (fun r => negb (sql.hasId i r)) rows = rows.
Proof.
  induction rows as [| r rows IH]; simpl; [reflexivity |].
  destruct (sql.hasId i r) eqn:Hr; [discriminate |].
  intros Hrest. simpl. rewrite (IH Hrest). reflexivity.
Qed.

Lemma no_rows_filter (i : Z) (d : sql.DB) :
  sql.rowsWithId i d = 0%nat -> List.filter (sql.hasId i) (sql.users d) = [].
Proof.
  unfold sql.rowsWithId.
  destruct (List.filter (sql.hasId i) (sql.users d)); [reflexivity |].
  discriminate.
Qed.

(** C6. Whenever [UpdateUser] succeeds its response is the echo of the
    request (id, name, email), whatever the store holds; and when no row
    has the given id the call succeeds with that echo and leaves the store
    exactly as it was. *)
Theorem update_echoes_request (req : pb.UpdateUserRequest) (d : sql.DB) :
  (fst (UpdateUser req d) = inl (echoUpdate req)
   \/ exists e, fst (UpdateUser req d) = inr (raw_error e))
  /\ (sql.rowsWithId (pb.UpdateUserRequest_Id req) d = 0%nat ->
      UpdateUser req d = (inl (echoUpdate req), d)).
Proof.
  unfold UpdateUser, sql.updateUser, echoUpdate. split.
  - destruct (_ && _); simpl; [right; eexists; reflexivity | left; reflexivity].
  - intros Hnone. apply no_rows_filter in Hnone.
    destruct (update_absent_rows (pb.UpdateUserRequest_Name req)
                (pb.UpdateUserRequest_Email req) _ _ Hnone) as [Hmap Hex].
    rewrite Hex, Hmap. simpl. destruct d; reflexivity.
Qed.

(** C10. [DeleteUser] always answers "User deleted" without an error,
    whether or not a row had the given id; when none had it the store is
    left exactly as it was. *)
Theorem delete_always_confirms (req : pb.DeleteUserRequest) (d : sql.DB) :
  fst (DeleteUser req d) = inl {| pb.Message := "User deleted" |}
  /\ (sql.rowsWithId (pb.DeleteUserRequest_Id req) d = 0%nat ->
      DeleteUser req d = (inl {| pb.Message := "User deleted" |}, d)).
Proof.
  unfold DeleteUser, sql.deleteUser. simpl. split; [reflexivity |].
  intros Hnone. apply no_rows_filter in Hnone.
  rewrite (delete_absent_rows _ _ Hnone). destruct d; reflexivity.
Qed.

(** C7. A successful [Register] appends one row whose password column is
    the digest [hashPassword] returned for the request's password and whose
    role is the request's role, or "user" when that is empty; the response
    is made of the new id, the name, the email and that role; and the
    response is the same whatever the password and whatever the hashing. *)
Theorem register_stores_digest_and_default_role
  (req : pb.RegisterRequest) (d : sql.DB)
  (resp : pb.UserResponse) (d' : sql.DB) :
  Register hashPassword req d = (inl resp, d') ->
  let i := sql.users_id_seq d + 1 in
  d' = {| sql.users :=
            sql.users d ++
            [{| sql.id := i;
                sql.name := pb.RegisterRequest_Name req;
                sql.email := pb.RegisterRequest_Email req;
                sql.password :=
                  Some (fst (hashPassword (pb.RegisterRequest_Password req)));
                sql.role := registeredRole req |}];
          sql.users_id_seq := i |}
  /\ resp = {| pb.User_ := {| pb.Id := int32 i;
                              pb.Name := pb.RegisterRequest_Name req;
                              pb.Email := pb.RegisterRequest_Email req;
                              pb.Role := registeredRole req |} |}
  /\ (pb.RegisterRequest_Role req = EmptyString ->
      registeredRole req = "user")
  /\ (forall (otherHash : string -> string * option error) (p : string),
      fst (Register otherHash (withPassword req p) d) = inl resp).
Proof.
  unfold Register, sql.insertUser, registeredRole. simpl.
  destruct (hashPassword (pb.RegisterRequest_Password req)) as [digest herr].
  simpl.
  destruct (existsb _ (sql.users d)) eqn:Hdup; [discriminate |].
  intros H. injection H as <- <-.
  repeat split.
  - intros ->. reflexivity.
  - intros otherHash p. unfold withPassword. simpl.
    destruct (otherHash p) as [digest' herr']. simpl.
    reflexivity.
Qed.

(** C9. The error of [hashPassword] has no effect on [Register]: the call
    behaves as with a hashing that returns the same digest and no error; it
    succeeds whenever the email is not yet in the table, also when hashing
    failed; and the digest returned, whatever it is, is the password of the
    inserted row. *)
Theorem register_ignores_hash_error (req : pb.RegisterRequest) (d : sql.DB) :
  Register hashPassword req d =
  Register (fun p => (fst (hashPassword p), None)) req d
  /\ (existsb (sql.hasEmail (pb.RegisterRequest_Email req)) (sql.users d)
      = false ->
      exists resp,
        Register hashPassword req d =
        (inl resp,
         {| sql.users :=
              sql.users d ++
              [{| sql.id := sql.users_id_seq d + 1;
                  sql.name := pb.RegisterRequest_Name req;
                  sql.email := pb.RegisterRequest_Email req;
                  sql.password :=
                    Some (fst (hashPassword
                                 (pb.RegisterRequest_Password req)));
                  sql.role := registeredRole req |}];
            sql.users_id_seq := sql.users_id_seq d + 1 |})).
Proof.
  unfold Register, sql.insertUser, registeredRole. simpl.
  destruct (hashPassword (pb.RegisterRequest_Password req)) as [digest herr].
  simpl. split; [reflexivity |].
  intros ->. eexists. reflexivity.
Qed.

(** C4, as the code has it. A [Login] whose email matches no row fails as
    unauthenticated with "user not found"; a [Login] whose password does
    not match the stored hash fails as unauthenticated with "incorrect
    password". Both leave the store as it was; the code is the same, the
    messages are not. *)
Theorem login_failures_unauthenticated (req : pb.LoginRequest) (now : Z)
  (d : sql.DB) :
  (List.find (sql.hasEmail (pb.LoginRequest_Email req)) (sql.users d) = None ->
   Login hmac checkPassword req now d =
   (inr (status_Errorf codes.Unauthenticated "user not found"), d))
  /\ (forall storedHash role,
      sql.selectPasswordRole (pb.LoginRequest_Email req) d
      = inl (storedHash, role) ->
      checkPassword (pb.LoginRequest_Password req) storedHash = false ->
      Login hmac checkPassword req now d =
      (inr (status_Errorf codes.Unauthenticated "incorrect password"), d)).
Proof.
  unfold Login. split.
  - intros Hnone. unfold sql.selectPasswordRole. rewrite Hnone. reflexivity.
  - intros storedHash role -> ->. reflexivity.
Qed.

End ServiceFacts.

(** C4, as the spec has it, fails: on [oneUser], a login with an unknown
    email and a login with a wrong password are both unauthenticated but
    carry different messages. *)
Lemma login_failure_messages_differ :
  exists m1 m2,
    fst (Login toyHmac toyCheck
           {| pb.LoginRequest_Email := "nobody@x.com";
              pb.LoginRequest_Password := "pw123" |} 0 oneUser)
    = inr (status_Errorf codes.Unauthenticated m1)
    /\ fst (Login toyHmac toyCheck
              {| pb.LoginRequest_Email := "john@x.com";
                 pb.LoginRequest_Password := "wrong" |} 0 oneUser)
       = inr (status_Errorf codes.Unauthenticated m2)
    /\ m1 <> m2.
Proof.
  exists "user not found", "incorrect password".
  split; [reflexivity | split; [reflexivity | discriminate]].
Qed.

(** ** The statements at concrete calls *)

(** C2 at a [Login] call without metadata: the handler runs once. *)
Lemma public_methods_bypass_witness :
  In "/user.UserService/Login" publicSet
  /\ AuthInterceptor noCase noCase unit unit nat (acceptsOnly EmptyString)
       {| incomingMD := None |} tt
       {| FullMethod := "/user.UserService/Login" |} countingHandler 0%nat
     = countingHandler {| incomingMD := None |} tt 0%nat.
Proof.
  split; [left; reflexivity |].
  apply (public_methods_bypass unit unit nat noCase noCase
           (acceptsOnly EmptyString) {| incomingMD := None |} tt
           {| FullMethod := "/user.UserService/Login" |}).
  left; reflexivity.
Defined.


(** C1 at a [DeleteUser] call with a verified token of role "user". *)
Lemma admin_methods_need_admin_role_witness :
  In "/user.UserService/DeleteUser" adminSet
  /\ AuthInterceptor noCase noCase unit unit nat (acceptsAll "user")
       (withAuthorization ["Bearer t"]) tt
       {| FullMethod := "/user.UserService/DeleteUser" |}
       countingHandler 0%nat
     = (inr (status_Errorf codes.PermissionDenied
               "Access Denied: You are not an admin"), 0%nat).
Proof.
  split; [right; right; right; left; reflexivity |].
  apply (admin_methods_need_admin_role unit unit nat noCase noCase
           (acceptsAll "user") (withAuthorization ["Bearer t"]) tt
           {| FullMethod := "/user.UserService/DeleteUser" |}
           countingHandler 0%nat
           (<["authorization" := ["Bearer t"]]> ∅) "Bearer t" []
           (acceptsAll "user" "t" jwtKey)).
  - right; right; right; left; reflexivity.
  - reflexivity.
  - reflexivity.
  - reflexivity.
  - reflexivity.
  - reflexivity.
  - discriminate.
Defined.

(** C6 at an id that no row of [oneUser] has. *)
Lemma update_echoes_request_witness :
  sql.rowsWithId 9999 oneUser = 0%nat
  /\ UpdateUser {| pb.UpdateUserRequest_Id := 9999;
                   pb.UpdateUserRequest_Name := "Jane";
                   pb.UpdateUserRequest_Email := "jane@x.com" |} oneUser
     = (inl {| pb.User_ := {| pb.Id := 9999; pb.Name := "Jane";
                              pb.Email := "jane@x.com";
                              pb.Role := EmptyString |} |}, oneUser).
Proof.
  split; [reflexivity |].
  apply (update_echoes_request
           {| pb.UpdateUserRequest_Id := 9999;
              pb.UpdateUserRequest_Name := "Jane";
              pb.UpdateUserRequest_Email := "jane@x.com" |} oneUser).
  reflexivity.
Defined.

(** C10 at an id that no row of [oneUser] has. *)
Lemma delete_always_confirms_witness :
  sql.rowsWithId 9999 oneUser = 0%nat
  /\ DeleteUser {| pb.DeleteUserRequest_Id := 9999 |} oneUser
     = (inl {| pb.Message := "User deleted" |}, oneUser).
Proof.
  split; [reflexivity |].
  apply (delete_always_confirms {| pb.DeleteUserRequest_Id := 9999 |} oneUser).
  reflexivity.
Defined.

(** C7 at the registration of the spec's scenario, on an empty table. *)
Lemma register_stores_digest_and_default_role_witness :
  let req := {| pb.RegisterRequest_Name := "John";
                pb.RegisterRequest_Email := "john@x.com";
                pb.RegisterRequest_Password := "pw123";
                pb.RegisterRequest_Role := EmptyString |} in
  let d := {| sql.users := []; sql.users_id_seq := 0 |} in
  let resp := {| pb.User_ := {| pb.Id := 1; pb.Name := "John";
                                pb.Email := "john@x.com";
                                pb.Role := "user" |} |} in
  let d' := {| sql.users := [{| sql.id := 1; sql.name := "John";
                                sql.email := "john@x.com";
                                sql.password := Some "digest:pw123";
                                sql.role := "user" |}];
               sql.users_id_seq := 1 |} in
  Register toyHash req d = (inl resp, d')
  /\ resp = {| pb.User_ := {| pb.Id := int32 (sql.users_id_seq d + 1);
                              pb.Name := pb.RegisterRequest_Name req;
                              pb.Email := pb.RegisterRequest_Email req;
                              pb.Role := registeredRole req |} |}.
Proof.
  intros req d resp d'. split; [reflexivity |].
  apply (register_stores_digest_and_default_role toyHash req d resp d').
  reflexivity.
Defined.

(** C9 with a hashing that always fails with an empty digest. *)
Lemma register_ignores_hash_error_witness :
  let failing := fun _ : string =>
                   (EmptyString, Some (errors_New "bcrypt: failed")) in
  let req := {| pb.RegisterRequest_Name := "John";
                pb.RegisterRequest_Email := "john@x.com";
                pb.RegisterRequest_Password := "pw123";
                pb.RegisterRequest_Role := "admin" |} in
  let d := {| sql.users := []; sql.users_id_seq := 0 |} in
  existsb (sql.hasEmail (pb.RegisterRequest_Email req)) (sql.users d) = false
  /\ exists resp,
       Register failing req d =
       (inl resp,
        {| sql.users := [{| sql.id := 1; sql.name := "John";
                            sql.email := "john@x.com";
                            sql.password := Some EmptyString;
                            sql.role := "admin" |}];
           sql.users_id_seq := 1 |}).
Proof.
  intros failing req d. split; [reflexivity |].
  apply (register_ignores_hash_error failing req d). reflexivity.
Defined.

(** C4, as the code has it, at a login with a wrong password. *)
Lemma login_failures_unauthenticated_witness :
  let req := {| pb.LoginRequest_Email := "john@x.com";
                pb.LoginRequest_Password := "wrong" |} in
  sql.selectPasswordRole (pb.LoginRequest_Email req) oneUser
  = inl ("digest:pw123", "user")
  /\ toyCheck (pb.LoginRequest_Password req) "digest:pw123" = false
  /\ Login toyHmac toyCheck req 0 oneUser
     = (inr (status_Errorf codes.Unauthenticated "incorrect password"),
        oneUser).
Proof.
  intros req. split; [reflexivity | split; [reflexivity |]].
  apply (proj2 (login_failures_unauthenticated toyHmac toyCheck req 0
                  oneUser) "digest:pw123" "user"); reflexivity.
Defined.

(** C8 at a [GetUser] call with the credential "bearer abc", for a verifier
    that accepts "abc" only: the call goes through. *)
Lemma bearer_prefix_stripped_when_longer_witness :
  map_bool_get publicMethods "/user.UserService/GetUser" = false
  /\ bearerPrefixed "bearer abc"
  /\ AuthInterceptor noCase noCase unit unit nat (acceptsOnly "abc")
       (withAuthorization ["bearer abc"]) tt
       {| FullMethod := "/user.UserService/GetUser" |} countingHandler 0%nat
     = (inl tt, 1%nat).
Proof.
  split; [reflexivity | split; [reflexivity |]].
  rewrite (proj1 (bearer_prefix_stripped_when_longer unit unit nat noCase
                    noCase (acceptsOnly "abc")
                    (withAuthorization ["bearer abc"]) tt
                    {| FullMethod := "/user.UserService/GetUser" |}
                    countingHandler 0%nat
                    (<["authorization" := ["bearer abc"]]> ∅)
                    "bearer abc" [] eq_refl eq_refl eq_refl)).
  - reflexivity.
  - split; [reflexivity | simpl; lia].
Defined.

(** C8, as the spec has it, fails: the credential "Bearer " begins with the
    prefix, yet the verifier receives it whole and not the empty rest. With
    a verifier that accepts the empty token only, the call is rejected,
    whereas verification of the rest would have let it through. *)
Lemma bare_bearer_prefix_not_stripped :
  bearerPrefixed "Bearer "
  /\ AuthInterceptor noCase noCase unit unit nat (acceptsOnly EmptyString)
       (withAuthorization ["Bearer "]) tt
       {| FullMethod := "/user.UserService/GetUser" |} countingHandler 0%nat
     = (inr (status_Errorf codes.Unauthenticated "invalid token"), 0%nat)
  /\ afterParse noCase unit unit nat
       ((acceptsOnly EmptyString) (string_drop 7 "Bearer ") jwtKey)
       (withAuthorization ["Bearer "]) tt
       {| FullMethod := "/user.UserService/GetUser" |} countingHandler 0%nat
     = (inl tt, 1%nat).
Proof.
  split; [reflexivity | split; reflexivity].
Qed.


(** C5 at the spec's example, issued at the epoch and verified one hour
    later. *)
Lemma issued_token_verifies_witness :
  ValidString "a@b.com" = true /\ ValidString "admin" = true
  /\ 3600 * Second < jwt.NewNumericDate (0 + 24 * Hour) * Second
  /\ jwt.ParseWithClaims toyHmac
       (fst (generateToken toyHmac "a@b.com" "admin" 0)) jwtKey
       (3600 * Second)
     = {| jwt.Valid := true;
          jwt.claims :=
            {| Email := "a@b.com"; Role := "admin";
               Registered := {| ExpiresAt := Some 86400;
                                NotBefore := None |} |};
          jwt.err := None |}.
Proof.
  split; [reflexivity | split; [reflexivity | split; [reflexivity |]]].
  apply (issued_token_verifies toyHmac "a@b.com" "admin" 0 (3600 * Second)).
  - reflexivity.
  - reflexivity.
  - split; [discriminate | reflexivity].
  - reflexivity.
Defined.

(** C5, as the spec has it, fails: an email that is not valid UTF-8, here
    the single byte 255, is issued and verified successfully but comes back
    as the three bytes of the replacement character. *)
Lemma invalid_utf8_email_not_preserved :
  let email := String "255"%char EmptyString in
  let parsed :=
    jwt.ParseWithClaims toyHmac
      (fst (generateToken toyHmac email "admin" 0)) jwtKey (3600 * Second) in
  jwt.Valid parsed = true
  /\ jwt.err parsed = None
  /\ Email (jwt.claims parsed)
     = String "239"%char (String "191"%char (String "189"%char EmptyString))
  /\ Email (jwt.claims parsed) <> email.
Proof.
  vm_compute. repeat split; discriminate.
Qed.

(** * Further properties *)

(** ** More on the interceptor *)

Section InterceptorMore.

Variables Req Resp World : Type.
Variable upperTable lowerTable : Z -> Z.
Variable ParseWithClaims : string -> string -> jwt.Parsed.

Local Abbreviation intercept :=
  (AuthInterceptor upperTable lowerTable Req Resp World ParseWithClaims).

(** X1. Whatever the call, the interceptor either returns exactly what the
    wrapped operation returns, or it fails with the code unauthenticated or
    permission denied and leaves the world as it was: it never answers with
    another code and never acts on the world itself. *)
Theorem interceptor_forwards_or_rejects (ctx : Context) (req : Req)
  (info : UnaryServerInfo) (handler : UnaryHandler Req Resp World)
  (w : World) :
  intercept ctx req info handler w = handler ctx req w
  \/ exists c msg,
       (c = codes.Unauthenticated \/ c = codes.PermissionDenied)
       /\ intercept ctx req info handler w = (inr (status_Errorf c msg), w).
Proof.
  unfold AuthInterceptor, afterParse.
  destruct (map_bool_get publicMethods (FullMethod info));
    [left; reflexivity |].
  destruct (incomingMD ctx) as [md |]; [| right; eauto 6].
  destruct (MD_get md "authorization") as [| tok more]; [right; eauto 6 |].
  destruct (_ || _); [right; eauto 6 |].
  destruct (map_bool_get adminMethods (FullMethod info)); [| left; reflexivity].
  destruct (negb _); [right; eauto 6 | left; reflexivity].
Qed.

(** X2. On a non-public method, admin or not, a credential that the
    verifier does not accept (an error, or a token not marked valid) is
    answered with unauthenticated "invalid token"; the handler has no part
    in the result and the world is unchanged. *)
Theorem invalid_token_rejected (ctx : Context) (req : Req)
  (info : UnaryServerInfo) (handler : UnaryHandler Req Resp World)
  (w : World) (md : gmap string (list string))
  (tokenString : string) (more : list string) :
  map_bool_get publicMethods (FullMethod info) = false ->
  incomingMD ctx = Some md ->
  MD_get md "authorization" = tokenString :: more ->
  jwt.err (ParseWithClaims (stripBearer upperTable tokenString) jwtKey)
  <> None
  \/ jwt.Valid (ParseWithClaims (stripBearer upperTable tokenString) jwtKey)
     = false ->
  intercept ctx req info handler w =
  (inr (status_Errorf codes.Unauthenticated "invalid token"), w).
Proof.
  intros Hpub Hmd Hval Hbad. unfold AuthInterceptor, afterParse.
  rewrite Hpub, Hmd, Hval.
  destruct Hbad as [Herr | Hinv].
  - destruct (jwt.err _); [reflexivity | contradiction].
  - rewrite Hinv. cbn [negb]. rewrite orb_true_r. reflexivity.
Qed.

(** X3. A method that is in neither set needs a verified token and no
    more: whatever the role claim, the call is handed to the wrapped
    operation. *)
Theorem other_methods_need_any_role (ctx : Context) (req : Req)
  (info : UnaryServerInfo) (handler : UnaryHandler Req Resp World)
  (w : World) (md : gmap string (list string))
  (tokenString : string) (more : list string) :
  map_bool_get publicMethods (FullMethod info) = false ->
  map_bool_get adminMethods (FullMethod info) = false ->
  incomingMD ctx = Some md ->
  MD_get md "authorization" = tokenString :: more ->
  jwt.err (ParseWithClaims (stripBearer upperTable tokenString) jwtKey)
  = None ->
  jwt.Valid (ParseWithClaims (stripBearer upperTable tokenString) jwtKey)
  = true ->
  intercept ctx req info handler w = handler ctx req w.
Proof.
  intros Hpub Hadm Hmd Hval Herr Hvalid. unfold AuthInterceptor, afterParse.
  rewrite Hpub, Hmd, Hval, Herr, Hvalid, Hadm. reflexivity.
Qed.

End InterceptorMore.

(** ** Strings as JSON carries them

    [appendString] followed by [unquote] on any string, valid UTF-8 or
    not. *)

Lemma EncodeRune_byte (c : ascii) :
  byteval c < 0x80 -> EncodeRune (byteval c) = String c EmptyString.
Proof.
  intros Hc. pose proof (byteval_range c) as Hr. unfold EncodeRune.
  replace (between 0 127 (byteval c)) with true
    by (symmetry; unfold between; apply andb_true_intro;
        split; apply Z.leb_le; lia).
  rewrite bytechr_byteval. reflexivity.
Qed.

Lemma unquote_ufffd (f : nat) (lit : string) :
  unquote_fuel (S f) (String backslash "ufffd" +:+ lit)
  = option_map (String.append (EncodeRune RuneError)) (unquote_fuel f lit).
Proof.
  lazy -[unquote_fuel]; cbn [unquote_fuel]; lazy -[unquote_fuel].
  reflexivity.
Qed.

Lemma unquote_appendString_runes_fuel (n : nat) (s : string) :
  (String.length s <= n)%nat ->
  forall f,
    (String.length (appendString_fuel n s) <= f)%nat ->
    unquote_fuel f (appendString_fuel n s)
    = Some (encodeRunes (runes_fuel n s)).
Proof.
  revert s. induction n as [| n IH]; intros s Hlen f Hf.
  { destruct s; [destruct f; reflexivity | simpl in Hlen; lia]. }
  destruct s as [| c s1]; [destruct f; reflexivity |].
  revert Hf. cbn [appendString_fuel runes_fuel].
  destruct (DecodeRuneInString (String c s1)) as [r w] eqn:Hdec.
  cbn [encodeRunes fst].
  pose proof (Decode_shape _ _ _ _ Hdec) as Hshape.
  destruct (byteval c <? RuneSelf) eqn:Hc.
  { (* an ASCII byte *)
    fold (asciiChunk c). rewrite length_append. intros Hf.
    pose proof (length_asciiChunk c) as Hk.
    destruct f as [| f]; [lia |].
    unfold RuneSelf in Hc. bools.
    destruct Hshape as [(-> & _ & ->) | [? _]]; [| lia].
    cbn [string_drop].
    rewrite unquote_ascii by lia.
    rewrite IH; [| simpl in Hlen; lia | lia].
    cbn [option_map]. rewrite EncodeRune_byte by lia.
    rewrite append_cons, append_nil. reflexivity. }
  assert (Hhigh : 0x80 <= byteval c) by (unfold RuneSelf in Hc; bools; lia).
  destruct ((r =? RuneError) && (w =? 1)%nat) eqn:Hbad.
  { (* a byte of no valid encoding *)
    apply andb_prop in Hbad as [Hr Hw].
    apply Z.eqb_eq in Hr. apply Nat.eqb_eq in Hw. subst r w.
    cbn [string_drop]. rewrite length_append. intros Hf.
    destruct f as [| f]; [simpl in Hf; lia |].
    rewrite unquote_ufffd.
    rewrite IH; [reflexivity | simpl in Hlen; lia | simpl in Hf; lia]. }
  assert (Hok : ~ (r = RuneError /\ w = 1%nat)).
  { intros [-> ->]. discriminate Hbad. }
  destruct (Decode_valid _ _ _ _ Hdec Hhigh Hok)
    as (Henc & Hdec' & Hbytes & Hw).
  assert (Hdrop : (String.length (string_drop w (String c s1)) <= n)%nat).
  { rewrite length_string_drop. simpl in *. lia. }
  destruct ((r =? 0x2028) || (r =? 0x2029)) eqn:Hsep.
  { (* a line or paragraph separator *)
    rewrite <- append_assoc. rewrite length_append. intros Hf.
    destruct f as [| f]; [rewrite length_append in Hf; simpl in Hf; lia |].
    rewrite unquote_u202
      by (apply orb_prop in Hsep; destruct Hsep; bools; auto).
    rewrite IH; [| exact Hdrop
                 | rewrite length_append in Hf; simpl in Hf; lia].
    reflexivity. }
  (* any other rune, copied *)
  rewrite length_append, length_string_take by (simpl; lia). intros Hf.
  destruct f as [| f]; [lia |].
  assert (Hcons : exists k, string_take w (String c s1) = String c k).
  { destruct w; [lia |]. eexists. reflexivity. }
  destruct Hcons as [k Hk].
  pose proof (Hdec' (appendString_fuel n (string_drop w (String c s1))))
    as Hd.
  remember (appendString_fuel n (string_drop w (String c s1))) as lit.
  assert (Hdr : string_drop w (string_take w (String c s1) +:+ lit) = lit)
    by (apply drop_take_append; simpl; lia).
  rewrite Hk in Hd, Hdr |- *. rewrite append_cons in Hd, Hdr |- *.
  destruct (high_not_special c Hhigh) as (Q & B & L & R).
  cbn [unquote_fuel]. rewrite B, Q, L, R, Hd, Hdr. cbn [orb].
  subst lit. rewrite IH; [| exact Hdrop | lia].
  reflexivity.
Qed.

(** What [unquote] reads back from the text [appendString] wrote for any
    string: its runes encoded again. *)
Lemma unquote_appendString_runes (s : string) :
  unquote (appendString s) = Some (asRunes s).
Proof.
  unfold unquote, appendString, asRunes, runes.
  apply unquote_appendString_runes_fuel; lia.
Qed.

Lemma asRunes_valid (s : string) : ValidString s = true -> asRunes s = s.
Proof.
  intros Hvalid. pose proof (unquote_appendString s Hvalid) as H.
  rewrite unquote_appendString_runes in H. congruence.
Qed.

Lemma parseValue_string_runes (v rest : string) :
  parseValue (String dquote (appendString v +:+ String dquote rest))
  = Some (String_ (asRunes v), rest).
Proof.
  unfold parseValue. rewrite Ascii.eqb_refl.
  rewrite scanString_appendString, unquote_appendString_runes.
  reflexivity.
Qed.

Lemma parseObject_claims_runes (email role : string) (exp : Z) :
  parseObject (jwt.marshalClaims (issued email role exp))
  = Some [("email", String_ (asRunes email));
          ("role", String_ (asRunes role));
          ("exp", Number exp)].
Proof.
  rewrite marshalClaims_shape.
  unfold parseObject. change (byteval "{" =? 123) with true. cbv iota.
  match goal with
  | |- context [String.eqb ?s "}"] =>
    replace (String.eqb s "}") with false
      by (symmetry; apply String.eqb_neq; intros [= H]; vm_compute in H;
          discriminate H)
  end.
  match goal with
  | |- context [parseMembers ?len _] =>
    assert (Hfuel : exists f, len = S (S (S f)))
  end.
  { cbn [String.length]. rewrite length_append. cbn [String.length].
    eexists. rewrite Nat.add_succ_r. rewrite Nat.add_succ_r. reflexivity. }
  destruct Hfuel as [f ->].
  rewrite (parseMembers_member _ "email" _ (String_ (asRunes email)) "," _
             valid_email_key (parseValue_string_runes email _)).
  change (byteval "," =? 44) with true. cbv iota.
  rewrite (parseMembers_member _ "role" _ (String_ (asRunes role)) "," _
             valid_role_key (parseValue_string_runes role _)).
  change (byteval "," =? 44) with true. cbv iota.
  rewrite (parseMembers_member _ "exp" _ (Number exp) "}" EmptyString
             valid_exp_key (parseValue_number exp EmptyString)).
  reflexivity.
Qed.

Lemma unmarshal_marshal_runes (email role : string) (exp : Z) :
  Z.abs exp <= 2 ^ 53 ->
  jwt.unmarshalClaims (jwt.marshalClaims (issued email role exp))
  = Some (issued (asRunes email) (asRunes role) exp).
Proof.
  intros Hexp. unfold jwt.unmarshalClaims.
  rewrite (parseObject_claims_runes email role exp).
  cbn [jwt.setFields jwt.setField].
  change (jwt.foldEq "email" "email") with true.
  change (jwt.foldEq "role" "email") with false.
  change (jwt.foldEq "role" "role") with true.
  change (jwt.foldEq "exp" "email") with false.
  change (jwt.foldEq "exp" "role") with false.
  change (jwt.foldEq "exp" "exp") with true.
  cbv iota. cbn [jwt.readString jwt.readDate option_map].
  apply Z.leb_le in Hexp. rewrite Hexp. reflexivity.
Qed.

(** ** Issued tokens at the interceptor *)

Section IssuedTokens.

Variable hmac : jwt.SigningMethod -> string -> string -> string.

(** A signed token of valid UTF-8 claims is read back whole; only the
    validator decides. *)
Lemma parse_signed_validate (email role : string) (exp : Z) (key : string)
  (t : Z) :
  ValidString email = true -> ValidString role = true ->
  Z.abs exp <= 2 ^ 53 ->
  jwt.ParseWithClaims hmac
    (fst (jwt.SignedString hmac jwt.HS256 (issued email role exp) key)) key t
  = match jwt.validate (issued email role exp) t with
    | Some e => jwt.failed (issued email role exp) e
    | None => {| jwt.Valid := true; jwt.claims := issued email role exp;
                 jwt.err := None |}
    end.
Proof.
  intros He Hr Hexp.
  unfold jwt.SignedString, jwt.SigningString. cbn [fst].
  unfold jwt.ParseWithClaims.
  rewrite append_assoc. rewrite append_assoc.
  rewrite splitDot_three by apply base64_noDot.
  rewrite !base64_roundtrip, parseObject_header.
  rewrite (unmarshal_marshal email role exp He Hr Hexp).
  change (jwt.lookupLast "alg" _) with (Some (String_ "HS256")).
  cbv iota.
  change (jwt.GetSigningMethod "HS256") with (Some jwt.HS256). cbv iota.
  rewrite String.eqb_refl. reflexivity.
Qed.

(** A signed token is read back whole, its strings as JSON carries them;
    only the validator decides. *)
Lemma parse_signed_runes (email role : string) (exp : Z) (key : string)
  (t : Z) :
  Z.abs exp <= 2 ^ 53 ->
  jwt.ParseWithClaims hmac
    (fst (jwt.SignedString hmac jwt.HS256 (issued email role exp) key)) key t
  = match jwt.validate (issued email role exp) t with
    | Some e => jwt.failed (issued (asRunes email) (asRunes role) exp) e
    | None => {| jwt.Valid := true;
                 jwt.claims := issued (asRunes email) (asRunes role) exp;
                 jwt.err := None |}
    end.
Proof.
  intros Hexp.
  unfold jwt.SignedString, jwt.SigningString. cbn [fst].
  unfold jwt.ParseWithClaims.
  rewrite append_assoc. rewrite append_assoc.
  rewrite splitDot_three by apply base64_noDot.
  rewrite !base64_roundtrip, parseObject_header.
  rewrite (unmarshal_marshal_runes email role exp Hexp).
  change (jwt.lookupLast "alg" _) with (Some (String_ "HS256")).
  cbv iota.
  change (jwt.GetSigningMethod "HS256") with (Some jwt.HS256). cbv iota.
  rewrite String.eqb_refl. reflexivity.
Qed.

Lemma expiry_in_range (now : Z) :
  - 2 ^ 63 <= now < 2 ^ 63 -> Z.abs (expiryOf now) <= 2 ^ 53.
Proof.
  intros Hnow. unfold expiryOf, jwt.NewNumericDate, Hour, Second.
  apply Z.abs_le. Z.div_mod_to_equations. lia.
Qed.

Lemma generateToken_signed (email role : string) (now : Z) :
  generateToken hmac email role now
  = jwt.SignedString hmac jwt.HS256 (issued email role (expiryOf now)) jwtKey.
Proof. reflexivity. Qed.

(** The text of an issued token: the fixed header segment, the claims
    segment and the signature segment. *)
Lemma generateToken_text (email role : string) (now : Z) :
  fst (generateToken hmac email role now)
  = "eyJhbGciOiJIUzI1NiIsInR5cCI6IkpXVCJ9" +:+ "." +:+
    base64.EncodeToString
      (jwt.marshalClaims (issued email role (expiryOf now))) +:+ "." +:+
    base64.EncodeToString
      (hmac jwt.HS256 jwtKey
         (jwt.SigningString jwt.HS256 (issued email role (expiryOf now)))).
Proof.
  rewrite generateToken_signed. unfold jwt.SignedString. cbn [fst].
  unfold jwt.SigningString at 1.
  change (base64.EncodeToString (jwt.marshalHeader jwt.HS256))
    with "eyJhbGciOiJIUzI1NiIsInR5cCI6IkpXVCJ9".
  rewrite !append_assoc. reflexivity.
Qed.

Section AtInterceptor.

Variables Req Resp World : Type.
Variable upperTable lowerTable : Z -> Z.

(** An issued token is verified as it is, bare or behind "Bearer ". *)
Lemma stripBearer_issued (email role : string) (now : Z) :
  let token := fst (generateToken hmac email role now) in
  stripBearer upperTable token = token
  /\ stripBearer upperTable ("Bearer " +:+ token) = token.
Proof.
  cbv zeta. rewrite generateToken_text.
  set (rest := base64.EncodeToString _ +:+ "." +:+ base64.EncodeToString _).
  unfold stripBearer. split.
  - replace (ToUpper upperTable _) with "EYJHBGC" by reflexivity.
    rewrite andb_false_r. reflexivity.
  - replace (ToUpper upperTable _) with "BEARER " by reflexivity.
    replace (7 <? _) with true; [reflexivity |].
    symmetry. apply Z.ltb_lt. rewrite !length_append. simpl. lia.
Qed.

(** The whole behaviour of the interceptor on an issued token. *)
Lemma issued_token_outcome (email role : string) (now t : Z)
  (ctx : Context) (req : Req) (info : UnaryServerInfo)
  (handler : UnaryHandler Req Resp World) (w : World)
  (md : gmap string (list string)) (presented : string)
  (more : list string) :
  ValidString email = true -> ValidString role = true ->
  - 2 ^ 63 <= now < 2 ^ 63 ->
  presented = fst (generateToken hmac email role now)
  \/ presented = "Bearer " +:+ fst (generateToken hmac email role now) ->
  map_bool_get publicMethods (FullMethod info) = false ->
  incomingMD ctx = Some md ->
  MD_get md "authorization" = presented :: more ->
  AuthInterceptor upperTable lowerTable Req Resp World (verifierAt hmac t)
    ctx req info handler w
  = if t <? expiryOf now * Second then
      if map_bool_get adminMethods (FullMethod info)
         && negb (String.eqb (ToLower lowerTable role) "admin")
      then (inr (status_Errorf codes.PermissionDenied
                   "Access Denied: You are not an admin"), w)
      else handler ctx req w
    else (inr (status_Errorf codes.Unauthenticated "invalid token"), w).
Proof.
  intros He Hr Hnow Hpres Hpub Hmd Hval.
  unfold AuthInterceptor. rewrite Hpub, Hmd, Hval.
  destruct (stripBearer_issued email role now) as [Hbare Hbearer].
  replace (stripBearer upperTable presented)
    with (fst (generateToken hmac email role now))
    by (destruct Hpres as [-> | ->]; symmetry; assumption).
  unfold verifierAt. rewrite generateToken_signed.
  rewrite (parse_signed_validate email role (expiryOf now) jwtKey t He Hr
             (expiry_in_range now Hnow)).
  unfold jwt.validate, issued. cbn [Registered ExpiresAt NotBefore].
  unfold afterParse.
  destruct (t <? expiryOf now * Second); cbn; [| reflexivity].
  destruct (map_bool_get adminMethods (FullMethod info)); [| reflexivity].
  destruct (String.eqb _ "admin"); reflexivity.
Qed.

(** X4. A token issued by [generateToken] for valid UTF-8 claims, presented
    bare or behind "Bearer " to a non-public method before its expiry, is
    gated by its role alone: on an admin method a role that does not
    lower-case to "admin" is refused with permission denied and the world is
    untouched; in every other case the wrapped operation runs. *)
Theorem issued_token_gated_by_role (email role : string) (now t : Z)
  (ctx : Context) (req : Req) (info : UnaryServerInfo)
  (handler : UnaryHandler Req Resp World) (w : World)
  (md : gmap string (list string)) (presented : string)
  (more : list string) :
  ValidString email = true -> ValidString role = true ->
  - 2 ^ 63 <= now < 2 ^ 63 ->
  t < expiryOf now * Second ->
  presented = fst (generateToken hmac email role now)
  \/ presented = "Bearer " +:+ fst (generateToken hmac email role now) ->
  map_bool_get publicMethods (FullMethod info) = false ->
  incomingMD ctx = Some md ->
  MD_get md "authorization" = presented :: more ->
  AuthInterceptor upperTable lowerTable Req Resp World (verifierAt hmac t)
    ctx req info handler w
  = if map_bool_get adminMethods (FullMethod info)
       && negb (String.eqb (ToLower lowerTable role) "admin")
    then (inr (status_Errorf codes.PermissionDenied
                 "Access Denied: You are not an admin"), w)
    else handler ctx req w.
Proof.
  intros He Hr Hnow Ht Hpres Hpub Hmd Hval.
  rewrite (issued_token_outcome email role now t ctx req info handler w md
             presented more He Hr Hnow Hpres Hpub Hmd Hval).
  apply Z.ltb_lt in Ht. rewrite Ht. reflexivity.
Qed.

(** X5. From its expiry on, 24 hours after issue truncated to the second,
    an issued token is refused: verification fails with [ErrTokenExpired],
    and the interceptor answers unauthenticated "invalid token" on every
    non-public method, whatever the email and the role, valid UTF-8 or
    not, without running the wrapped operation. *)
Theorem issued_token_expires (email role : string) (now t : Z)
  (ctx : Context) (req : Req) (info : UnaryServerInfo)
  (handler : UnaryHandler Req Resp World) (w : World)
  (md : gmap string (list string)) (presented : string)
  (more : list string) :
  - 2 ^ 63 <= now < 2 ^ 63 ->
  expiryOf now * Second <= t ->
  presented = fst (generateToken hmac email role now)
  \/ presented = "Bearer " +:+ fst (generateToken hmac email role now) ->
  map_bool_get publicMethods (FullMethod info) = false ->
  incomingMD ctx = Some md ->
  MD_get md "authorization" = presented :: more ->
  jwt.err (jwt.ParseWithClaims hmac (fst (generateToken hmac email role now))
             jwtKey t) = Some jwt.ErrTokenExpired
  /\ AuthInterceptor upperTable lowerTable Req Resp World (verifierAt hmac t)
       ctx req info handler w
     = (inr (status_Errorf codes.Unauthenticated "invalid token"), w).
Proof.
  intros Hnow Ht Hpres Hpub Hmd Hval.
  apply Z.ltb_ge in Ht.
  assert (Hparse :
    jwt.ParseWithClaims hmac (fst (generateToken hmac email role now))
      jwtKey t
    = jwt.failed (issued (asRunes email) (asRunes role) (expiryOf now))
        jwt.ErrTokenExpired).
  { rewrite generateToken_signed.
    rewrite (parse_signed_runes email role (expiryOf now) jwtKey t
               (expiry_in_range now Hnow)).
    unfold jwt.validate, issued. cbn [Registered ExpiresAt NotBefore].
    rewrite Ht. reflexivity. }
  split; [rewrite Hparse; reflexivity |].
  unfold AuthInterceptor. rewrite Hpub, Hmd, Hval.
  destruct (stripBearer_issued email role now) as [Hbare Hbearer].
  replace (stripBearer upperTable presented)
    with (fst (generateToken hmac email role now))
    by (destruct Hpres as [-> | ->]; symmetry; assumption).
  unfold verifierAt. rewrite Hparse. reflexivity.
Qed.

End AtInterceptor.

Lemma urlSafe_enc6 (i : Z) (s : string) :
  0 <= i < 64 -> string_forallb urlSafe s = true ->
  string_forallb urlSafe (String (base64.enc6 i) s) = true.
Proof.
  intros Hi Hs. cbn [string_forallb]. rewrite Hs. unfold urlSafe.
  destruct (enc6_facts i Hi) as (-> & _). reflexivity.
Qed.

Lemma base64_urlSafe_len (n : nat) (s : string) :
  (String.length s <= n)%nat ->
  string_forallb urlSafe (base64.EncodeToString s) = true.
Proof.
  revert s. induction n as [| n IH]; intros s Hlen.
  { destruct s; [reflexivity | simpl in Hlen; lia]. }
  destruct s as [| a [| b [| c rest]]]; cbn [base64.EncodeToString].
  - reflexivity.
  - repeat (apply urlSafe_enc6; [arith |]). reflexivity.
  - repeat (apply urlSafe_enc6; [arith |]). reflexivity.
  - repeat (apply urlSafe_enc6; [arith |]).
    apply IH. simpl in Hlen. lia.
Qed.

Lemma forallb_append (p : ascii -> bool) (a b : string) :
  string_forallb p (a +:+ b) = string_forallb p a && string_forallb p b.
Proof.
  induction a as [| c a IH]; [reflexivity |].
  rewrite append_cons. cbn [string_forallb]. rewrite IH.
  apply andb_assoc.
Qed.

(** X6. Whatever the email, the role and the instant, [generateToken]
    returns no error and a compact token: three segments separated by two
    periods, the first being the fixed HS256 header, and every character in
    the URL-safe alphabet of base64 or a period. *)
Theorem issued_token_is_compact (email role : string) (now : Z) :
  snd (generateToken hmac email role now) = None
  /\ exists payload signature,
       jwt.splitDot (fst (generateToken hmac email role now))
       = ["eyJhbGciOiJIUzI1NiIsInR5cCI6IkpXVCJ9"; payload; signature]
       /\ fst (generateToken hmac email role now)
          = "eyJhbGciOiJIUzI1NiIsInR5cCI6IkpXVCJ9" +:+ "." +:+ payload
            +:+ "." +:+ signature
       /\ string_forallb urlSafe (fst (generateToken hmac email role now))
          = true.
Proof.
  split; [reflexivity |].
  rewrite generateToken_text. eexists. eexists.
  split; [| split; [reflexivity |]].
  - apply splitDot_three; [reflexivity | apply base64_noDot ..].
  - rewrite !forallb_append.
    rewrite !(base64_urlSafe_len _ _ (le_n _)). reflexivity.
Qed.

(** X7. Tokens issued for valid UTF-8 claims tell their claims apart: two
    equal tokens carry the same email, the same role and the same expiry. *)
Theorem issued_tokens_injective (email1 role1 email2 role2 : string)
  (now1 now2 : Z) :
  ValidString email1 = true -> ValidString role1 = true ->
  ValidString email2 = true -> ValidString role2 = true ->
  - 2 ^ 63 <= now1 < 2 ^ 63 -> - 2 ^ 63 <= now2 < 2 ^ 63 ->
  fst (generateToken hmac email1 role1 now1)
  = fst (generateToken hmac email2 role2 now2) ->
  email1 = email2 /\ role1 = role2 /\ expiryOf now1 = expiryOf now2.
Proof.
  intros He1 Hr1 He2 Hr2 Hn1 Hn2 Heq.
  pose proof (parse_signed_validate email1 role1 (expiryOf now1) jwtKey 0
                He1 Hr1 (expiry_in_range now1 Hn1)) as P1.
  pose proof (parse_signed_validate email2 role2 (expiryOf now2) jwtKey 0
                He2 Hr2 (expiry_in_range now2 Hn2)) as P2.
  rewrite <- !generateToken_signed in P1, P2. rewrite Heq, P2 in P1.
  apply (f_equal jwt.claims) in P1.
  assert (Hc : issued email2 role2 (expiryOf now2)
               = issued email1 role1 (expiryOf now1)).
  { destruct (jwt.validate (issued email2 role2 (expiryOf now2)) 0);
      destruct (jwt.validate (issued email1 role1 (expiryOf now1)) 0);
      exact P1. }
  injection Hc as -> -> ->. auto.
Qed.

End IssuedTokens.

(** ** More on the service *)

Lemma hasEmail_true (e : string) (r : sql.Row) :
  sql.hasEmail e r = true <-> sql.email r = e.
Proof. unfold sql.hasEmail. apply String.eqb_eq. Qed.

Lemma hasId_true (i : Z) (r : sql.Row) : sql.hasId i r = true <-> sql.id r = i.
Proof. unfold sql.hasId. apply Z.eqb_eq. Qed.

Lemma existsb_false_forall {A} (p : A -> bool) (l : list A) :
  existsb p l = false <-> (forall x, In x l -> p x = false).
Proof.
  induction l as [| a l IH]; simpl.
  - split; [intros _ x [] | reflexivity].
  - rewrite orb_false_iff, IH. split.
    + intros [Ha Hl] x [<- | Hx]; auto.
    + intros H. split; [apply H; auto | intros x Hx; apply H; auto].
Qed.

Lemma find_app_fresh {A} (p : A -> bool) (l : list A) (a : A) :
  existsb p l = false -> p a = true -> List.find p (l ++ [a]) = Some a.
Proof.
  induction l as [| x l IH]; simpl; intros Hl Ha.
  - rewrite Ha. reflexivity.
  - apply orb_false_iff in Hl as [Hx Hl]. rewrite Hx. auto.
Qed.

Lemma find_none_existsb {A} (p : A -> bool) (l : list A) :
  List.find p l = None <-> existsb p l = false.
Proof.
  induction l as [| x l IH]; simpl; [tauto |].
  destruct (p x); simpl; [split; discriminate | exact IH].
Qed.

Lemma filter_nil_existsb {A} (p : A -> bool) (l : list A) :
  List.filter p l = [] <-> existsb p l = false.
Proof.
  induction l as [| x l IH]; simpl; [tauto |].
  destruct (p x); simpl; [split; discriminate | exact IH].
Qed.

Lemma int32_small (x : Z) : - 2 ^ 31 <= x < 2 ^ 31 -> int32 x = x.
Proof.
  intros H. unfold int32. rewrite Z.mod_small by lia. lia.
Qed.

Lemma ids_below_fresh (d : sql.DB) :
  Forall (fun r => sql.id r <= sql.users_id_seq d) (sql.users d) ->
  existsb (sql.hasId (sql.users_id_seq d + 1)) (sql.users d) = false.
Proof.
  intros H. apply existsb_false_forall. intros r Hr.
  rewrite Forall_forall in H. specialize (H r).
  unfold sql.hasId. apply Z.eqb_neq.
  assert (sql.id r <= sql.users_id_seq d)
    by (apply H; apply list_elem_of_In; exact Hr).
  lia.
Qed.

Lemma NoDup_snoc {A} (l : list A) (a : A) :
  List.NoDup l -> ~ In a l -> List.NoDup (l ++ [a]).
Proof.
  induction l as [| x l IH]; simpl; intros Hl Ha.
  - constructor; [intros [] | constructor].
  - apply List.NoDup_cons_iff in Hl as [Hx Hl].
    apply List.NoDup_cons_iff. split.
    + rewrite in_app_iff. simpl. intros [H | [H | []]]; [tauto |].
      subst. tauto.
    + apply IH; tauto.
Qed.

Lemma NoDup_map_filter {A B} (f : A -> B) (p : A -> bool) (l : list A) :
  List.NoDup (List.map f l) -> List.NoDup (List.map f (List.filter p l)).
Proof.
  induction l as [| x l IH]; simpl; intros H; [exact H |].
  apply List.NoDup_cons_iff in H as [Hx Hl].
  destruct (p x); simpl; [| auto].
  apply List.NoDup_cons_iff. split; [| auto].
  intros Hin. apply Hx. apply in_map_iff in Hin as (y & Hy & Hin).
  apply filter_In in Hin as [Hin _]. apply in_map_iff. eauto.
Qed.

Lemma map_id_update (n e : string) (i : Z) (l : list sql.Row) :
  List.map sql.id (List.map (sql.setNameEmail n e i) l) = List.map sql.id l.
Proof.
  induction l as [| r l IH]; simpl; [reflexivity |].
  rewrite IH. unfold sql.setNameEmail. destruct (sql.hasId i r); reflexivity.
Qed.

Lemma update_no_id (n e : string) (i : Z) (l : list sql.Row) :
  ~ In i (List.map sql.id l) -> List.map (sql.setNameEmail n e i) l = l.
Proof.
  induction l as [| r l IH]; simpl; intros H; [reflexivity |].
  rewrite IH by tauto. unfold sql.setNameEmail.
  destruct (sql.hasId i r) eqn:E; [| reflexivity].
  apply hasId_true in E. tauto.
Qed.

(** Renaming one row keeps the emails distinct when no other row holds the
    new email. *)
Lemma update_emails_distinct (n e : string) (i : Z) (l : list sql.Row) :
  List.NoDup (List.map sql.id l) ->
  List.NoDup (List.map sql.email l) ->
  (forall r, In r l -> sql.id r <> i -> sql.email r <> e) ->
  List.NoDup (List.map sql.email (List.map (sql.setNameEmail n e i) l)).
Proof.
  induction l as [| r l IH]; simpl; intros Hid Hem Hother; [constructor |].
  apply List.NoDup_cons_iff in Hid as [Hidr Hid].
  apply List.NoDup_cons_iff in Hem as [Hemr Hem].
  unfold sql.setNameEmail at 1.
  destruct (sql.hasId i r) eqn:E.
  - apply hasId_true in E. subst i. rewrite update_no_id by exact Hidr.
    cbn [sql.email]. apply List.NoDup_cons_iff. split; [| exact Hem].
    intros Hin. apply in_map_iff in Hin as (r' & He & Hin).
    apply (Hother r'); [auto | | exact He].
    intros Heq. apply Hidr. rewrite <- Heq. apply in_map. exact Hin.
  - apply List.NoDup_cons_iff. split; [| apply IH; auto].
    intros Hin. apply in_map_iff in Hin as (r' & He & Hin).
    apply in_map_iff in Hin as (r0 & Hr0 & Hin). subst r'.
    unfold sql.setNameEmail in He. destruct (sql.hasId i r0) eqn:E0.
    + cbn [sql.email] in He. apply (Hother r); [auto | | auto].
      intros Heq. unfold sql.hasId in E. apply Z.eqb_neq in E. auto.
    + apply Hemr. rewrite <- He. apply in_map. exact Hin.
Qed.

Lemma insert_wellFormed (n e : string) (p : option string) (r : string)
  (d : sql.DB) :
  wellFormed d -> wellFormed (snd (sql.insertUser n e p r d)).
Proof.
  intros (Hid & Hem & Hle). unfold sql.insertUser.
  assert (Hle' : Forall (fun x => sql.id x <= sql.users_id_seq d + 1)
                        (sql.users d)).
  { eapply Forall_impl; [exact Hle |]. simpl. intros; lia. }
  destruct (existsb (sql.hasEmail e) (sql.users d)) eqn:Hdup; cbn [snd].
  - repeat split; assumption.
  - unfold wellFormed. cbn [sql.users sql.users_id_seq].
    rewrite !map_app. cbn [List.map sql.id sql.email].
    split; [| split].
    + apply NoDup_snoc; [exact Hid |].
      intros Hin. apply in_map_iff in Hin as (x & Hx & Hin).
      pose proof (ids_below_fresh d Hle) as Hfresh.
      rewrite existsb_false_forall in Hfresh. specialize (Hfresh x Hin).
      apply Z.eqb_neq in Hfresh. auto.
    + apply NoDup_snoc; [exact Hem |].
      intros Hin. apply in_map_iff in Hin as (x & Hx & Hin).
      rewrite existsb_false_forall in Hdup. specialize (Hdup x Hin).
      unfold sql.hasEmail in Hdup. apply String.eqb_neq in Hdup. auto.
    + apply Forall_app. split; [exact Hle' |].
      constructor; [cbn; lia | constructor].
Qed.

Lemma update_wellFormed (n e : string) (i : Z) (d : sql.DB) :
  wellFormed d -> wellFormed (snd (sql.updateUser n e i d)).
Proof.
  intros (Hid & Hem & Hle). unfold sql.updateUser.
  destruct (existsb (sql.hasId i) (sql.users d)
            && existsb (fun r => sql.hasEmail e r && negb (sql.hasId i r))
                       (sql.users d)) eqn:Hc; cbn [snd].
  { repeat split; assumption. }
  unfold wellFormed. cbn [sql.users sql.users_id_seq].
  rewrite map_id_update. split; [exact Hid | split].
  - apply andb_false_iff in Hc as [Hnone | Hother].
    + rewrite update_no_id; [exact Hem |].
      intros Hin. apply in_map_iff in Hin as (x & Hx & Hin).
      rewrite existsb_false_forall in Hnone. specialize (Hnone x Hin).
      apply Z.eqb_neq in Hnone. auto.
    + apply update_emails_distinct; [exact Hid | exact Hem |].
      intros r Hr Hne Heq.
      rewrite existsb_false_forall in Hother. specialize (Hother r Hr).
      apply andb_false_iff in Hother as [H | H].
      * unfold sql.hasEmail in H. apply String.eqb_neq in H. auto.
      * apply negb_false_iff in H. apply hasId_true in H. auto.
  - clear Hid Hem Hc. induction Hle as [| r l Hr Hl IH]; [constructor |].
    cbn [List.map]. constructor; [| exact IH].
    unfold sql.setNameEmail. destruct (sql.hasId i r); exact Hr.
Qed.

Lemma delete_wellFormed (i : Z) (d : sql.DB) :
  wellFormed d -> wellFormed (snd (sql.deleteUser i d)).
Proof.
  intros (Hid & Hem & Hle). unfold sql.deleteUser, wellFormed.
  cbn [snd sql.users sql.users_id_seq].
  split; [| split]; try (apply NoDup_map_filter; assumption).
  clear Hid Hem. induction Hle as [| r l Hr Hl IH]; [constructor |].
  cbn [List.filter]. destruct (negb (sql.hasId i r)); [constructor |]; auto.
Qed.

Section ServiceMore.

Variable hmac : jwt.SigningMethod -> string -> string -> string.
Variable hashPassword : string -> string * option error.
Variable checkPassword : string -> string -> bool.

(** X11. The constraints of the table are an invariant of the service:
    every method, whether it succeeds or fails, takes a store with distinct
    ids below the sequence and distinct emails to another such store. *)
Theorem service_keeps_table_constraints (d : sql.DB) :
  wellFormed d ->
  (forall req, wellFormed (snd (Register hashPassword req d)))
  /\ (forall req now, wellFormed (snd (Login hmac checkPassword req now d)))
  /\ (forall req, wellFormed (snd (CreateUser req d)))
  /\ (forall req, wellFormed (snd (GetUser req d)))
  /\ (forall req, wellFormed (snd (UpdateUser req d)))
  /\ (forall req, wellFormed (snd (DeleteUser req d))).
Proof.
  intros Hwf. split; [| split; [| split; [| split; [| split]]]].
  - intros req. unfold Register.
    destruct (hashPassword _) as [digest herr].
    pose proof (insert_wellFormed (pb.RegisterRequest_Name req)
                  (pb.RegisterRequest_Email req) (Some digest)
                  (if String.eqb (pb.RegisterRequest_Role req) EmptyString
                   then "user" else pb.RegisterRequest_Role req) d Hwf) as H.
    destruct (sql.insertUser _ _ _ _ d) as [[id | e] d']; exact H.
  - intros req now. unfold Login.
    destruct (sql.selectPasswordRole _ d) as [[h r] | e]; [| exact Hwf].
    destruct (negb _); [exact Hwf |].
    destruct (generateToken _ _ _ _) as [tok [e |]]; exact Hwf.
  - intros req. unfold CreateUser.
    pose proof (insert_wellFormed (pb.CreateUserRequest_Name req)
                  (pb.CreateUserRequest_Email req) None
                  (pb.CreateUserRequest_Role req) d Hwf) as H.
    destruct (sql.insertUser _ _ _ _ d) as [[id | e] d']; exact H.
  - intros req. unfold GetUser.
    destruct (sql.selectUser _ d) as [r | []]; exact Hwf.
  - intros req. unfold UpdateUser.
    pose proof (update_wellFormed (pb.UpdateUserRequest_Name req)
                  (pb.UpdateUserRequest_Email req)
                  (pb.UpdateUserRequest_Id req) d Hwf) as H.
    destruct (sql.updateUser _ _ _ d) as [[e |] d']; exact H.
  - intros req. unfold DeleteUser.
    pose proof (delete_wellFormed (pb.DeleteUserRequest_Id req) d Hwf) as H.
    destruct (sql.deleteUser _ d) as [[e |] d']; exact H.
Qed.

(** X12. Insert then look up: on a store whose ids are below the sequence,
    with the next id in the range of [int32], the record a successful
    [CreateUser] or [Register] answers is the record [GetUser] then finds
    under the answered id, with the role as it was stored. *)
Theorem created_user_is_found (d : sql.DB) :
  wellFormed d ->
  - 2 ^ 31 <= sql.users_id_seq d + 1 < 2 ^ 31 ->
  (forall req resp d',
     CreateUser req d = (inl resp, d') ->
     GetUser {| pb.GetUserRequest_Id := pb.Id (pb.User_ resp) |} d'
     = (inl resp, d'))
  /\ (forall req resp d',
       Register hashPassword req d = (inl resp, d') ->
       GetUser {| pb.GetUserRequest_Id := pb.Id (pb.User_ resp) |} d'
       = (inl resp, d')).
Proof.
  intros (_ & _ & Hle) Hrange.
  pose proof (ids_below_fresh d Hle) as Hfresh.
  split; intros req resp d'.
  - unfold CreateUser, sql.insertUser.
    destruct (existsb (sql.hasEmail _) (sql.users d)); [discriminate |].
    intros [= <- <-]. unfold GetUser, sql.selectUser.
    cbn [pb.GetUserRequest_Id pb.Id pb.User_ sql.users].
    rewrite (int32_small _ Hrange).
    rewrite find_app_fresh; [reflexivity | exact Hfresh |].
    apply hasId_true. reflexivity.
  - unfold Register, sql.insertUser.
    destruct (hashPassword _) as [digest herr].
    destruct (existsb (sql.hasEmail _) (sql.users d)); [discriminate |].
    intros [= <- <-]. unfold GetUser, sql.selectUser.
    cbn [pb.GetUserRequest_Id pb.Id pb.User_ sql.users].
    rewrite (int32_small _ Hrange).
    rewrite find_app_fresh; [reflexivity | exact Hfresh |].
    apply hasId_true. reflexivity.
Qed.

(** X10. An email that is already in the table is refused by [CreateUser]
    and by [Register] alike: the failure has the code internal, its message
    is the method's prefix followed by the error of the store, and the rows
    are as they were. *)
Theorem duplicate_email_is_internal (d : sql.DB) :
  (forall req,
     existsb (sql.hasEmail (pb.CreateUserRequest_Email req)) (sql.users d)
     = true ->
     fst (CreateUser req d)
     = inr (status_Errorf codes.Internal
              ("failed to create user: "
               +:+ sqlError_Error ErrUniqueViolation))
     /\ sql.users (snd (CreateUser req d)) = sql.users d)
  /\ (forall req,
       existsb (sql.hasEmail (pb.RegisterRequest_Email req)) (sql.users d)
       = true ->
       fst (Register hashPassword req d)
       = inr (status_Errorf codes.Internal
                ("cannot create user: "
                 +:+ sqlError_Error ErrUniqueViolation))
       /\ sql.users (snd (Register hashPassword req d)) = sql.users d).
Proof.
  split; intros req Hdup.
  - unfold CreateUser, sql.insertUser. rewrite Hdup. split; reflexivity.
  - unfold Register, sql.insertUser.
    destruct (hashPassword _) as [digest herr]. rewrite Hdup.
    split; reflexivity.
Qed.

Lemma find_update (n e : string) (i : Z) (l : list sql.Row) :
  List.find (sql.hasId i) (List.map (sql.setNameEmail n e i) l)
  = option_map (sql.setNameEmail n e i) (List.find (sql.hasId i) l).
Proof.
  induction l as [| r l IH]; [reflexivity |].
  cbn [List.map List.find]. unfold sql.setNameEmail at 1.
  destruct (sql.hasId i r) eqn:E.
  - unfold sql.hasId at 1. cbn [sql.id]. fold (sql.hasId i r). rewrite E.
    cbn [option_map]. unfold sql.setNameEmail. rewrite E. reflexivity.
  - rewrite E. exact IH.
Qed.

(** X13. Update then look up: after a successful [UpdateUser] on an id that
    a row has, [GetUser] under that id answers the new name and the new
    email together with the role the row had before, which the answer of
    [UpdateUser] itself leaves empty. *)
Theorem updated_user_is_found (req : pb.UpdateUserRequest) (d d' : sql.DB)
  (resp : pb.UserResponse) (r : sql.Row) :
  UpdateUser req d = (inl resp, d') ->
  List.find (sql.hasId (pb.UpdateUserRequest_Id req)) (sql.users d) = Some r ->
  GetUser {| pb.GetUserRequest_Id := pb.UpdateUserRequest_Id req |} d'
  = (inl {| pb.User_ := {| pb.Id := pb.UpdateUserRequest_Id req;
                           pb.Name := pb.UpdateUserRequest_Name req;
                           pb.Email := pb.UpdateUserRequest_Email req;
                           pb.Role := sql.role r |} |}, d')
  /\ pb.Role (pb.User_ resp) = EmptyString.
Proof.
  unfold UpdateUser, sql.updateUser.
  destruct (_ && _); [discriminate |].
  intros [= <- <-] Hfind. split; [| reflexivity].
  unfold GetUser, sql.selectUser.
  cbn [pb.GetUserRequest_Id sql.users]. rewrite find_update, Hfind.
  cbn [option_map]. unfold sql.setNameEmail.
  assert (Hid : sql.hasId (pb.UpdateUserRequest_Id req) r = true).
  { apply find_some in Hfind. apply Hfind. }
  rewrite Hid. apply hasId_true in Hid.
  cbn [sql.id sql.name sql.email sql.role]. rewrite Hid. reflexivity.
Qed.

Lemma find_delete_same (i : Z) (l : list sql.Row) :
  List.find (sql.hasId i) (List.filter (fun r => negb (sql.hasId i r)) l)
  = None.
Proof.
  induction l as [| r l IH]; [reflexivity |].
  cbn [List.filter]. destruct (sql.hasId i r) eqn:E; cbn [negb]; [exact IH |].
  cbn [List.find]. rewrite E. exact IH.
Qed.

Lemma find_delete_other (i j : Z) (l : list sql.Row) :
  i <> j ->
  List.find (sql.hasId j) (List.filter (fun r => negb (sql.hasId i r)) l)
  = List.find (sql.hasId j) l.
Proof.
  intros Hne. induction l as [| r l IH]; [reflexivity |].
  cbn [List.filter List.find]. destruct (sql.hasId i r) eqn:E; cbn [negb].
  - destruct (sql.hasId j r) eqn:F; [| exact IH].
    apply hasId_true in E. apply hasId_true in F. congruence.
  - cbn [List.find]. rewrite IH. reflexivity.
Qed.

(** X14. Delete then look up: after [DeleteUser] of an id, [GetUser] under
    that id answers not found, and under every other id it answers what it
    answered before. *)
Theorem deleted_user_is_gone (i : Z) (d : sql.DB) :
  let d' := snd (DeleteUser {| pb.DeleteUserRequest_Id := i |} d) in
  fst (GetUser {| pb.GetUserRequest_Id := i |} d')
  = inr (status_Errorf codes.NotFound "user not found")
  /\ (forall j, i <> j ->
      fst (GetUser {| pb.GetUserRequest_Id := j |} d')
      = fst (GetUser {| pb.GetUserRequest_Id := j |} d)).
Proof.
  unfold DeleteUser, sql.deleteUser, GetUser, sql.selectUser.
  cbn [snd pb.DeleteUserRequest_Id pb.GetUserRequest_Id sql.users].
  split.
  - rewrite find_delete_same. reflexivity.
  - intros j Hne. rewrite (find_delete_other i j _ Hne).
    destruct (List.find (sql.hasId j) (sql.users d)); reflexivity.
Qed.

Lemma map_update_keeps (n e : string) (i : Z) (l : list sql.Row) :
  List.map sql.password (List.map (sql.setNameEmail n e i) l)
  = List.map sql.password l
  /\ List.map sql.role (List.map (sql.setNameEmail n e i) l)
     = List.map sql.role l.
Proof.
  induction l as [| r l [IHp IHr]]; [split; reflexivity |].
  cbn [List.map]. rewrite IHp, IHr. unfold sql.setNameEmail.
  destruct (sql.hasId i r); split; reflexivity.
Qed.

(** X15. [UpdateUser], whether it succeeds or fails, changes no id, no
    password and no role: the columns of ids, of passwords and of roles of
    the table, and the sequence, are after the call what they were
    before. *)
Theorem update_keeps_id_password_role (req : pb.UpdateUserRequest)
  (d : sql.DB) :
  let d' := snd (UpdateUser req d) in
  List.map sql.id (sql.users d') = List.map sql.id (sql.users d)
  /\ List.map sql.password (sql.users d')
     = List.map sql.password (sql.users d)
  /\ List.map sql.role (sql.users d') = List.map sql.role (sql.users d)
  /\ sql.users_id_seq d' = sql.users_id_seq d.
Proof.
  unfold UpdateUser, sql.updateUser.
  destruct (_ && _); cbn [snd sql.users sql.users_id_seq];
    [repeat split |].
  destruct (map_update_keeps (pb.UpdateUserRequest_Name req)
              (pb.UpdateUserRequest_Email req) (pb.UpdateUserRequest_Id req)
              (sql.users d)) as [Hp Hr].
  rewrite map_id_update, Hp, Hr. repeat split.
Qed.

(** X16. [GetUser] answers not found exactly when no row has the id, and
    otherwise the first row of that id; in both cases the store is left as
    it was. *)
Theorem get_user_finds_or_not_found (req : pb.GetUserRequest) (d : sql.DB) :
  (sql.rowsWithId (pb.GetUserRequest_Id req) d = 0%nat <->
   GetUser req d = (inr (status_Errorf codes.NotFound "user not found"), d))
  /\ (forall r,
      List.find (sql.hasId (pb.GetUserRequest_Id req)) (sql.users d) = Some r ->
      GetUser req d = (inl (userOfRow r), d))
  /\ snd (GetUser req d) = d.
Proof.
  unfold GetUser, sql.selectUser, sql.rowsWithId. split; [| split].
  - rewrite length_zero_iff_nil, filter_nil_existsb, <- find_none_existsb.
    destruct (List.find _ (sql.users d)); split; try discriminate;
      reflexivity.
  - intros r ->. reflexivity.
  - destruct (List.find _ (sql.users d)); reflexivity.
Qed.

(** X17. An [UpdateUser] that would give a row the email of another row is
    refused: the error of the store is returned as it is, not as a status,
    and the store is left as it was. *)
Theorem update_to_taken_email_fails (req : pb.UpdateUserRequest)
  (d : sql.DB) (r other : sql.Row) :
  In r (sql.users d) -> In other (sql.users d) ->
  sql.id r = pb.UpdateUserRequest_Id req ->
  sql.id other <> pb.UpdateUserRequest_Id req ->
  sql.email other = pb.UpdateUserRequest_Email req ->
  UpdateUser req d = (inr (raw_error ErrUniqueViolation), d).
Proof.
  intros Hr Ho Hid Hoid Hoem. unfold UpdateUser, sql.updateUser.
  replace (existsb (sql.hasId _) (sql.users d)) with true.
  2:{ symmetry. apply existsb_exists. exists r. split; [exact Hr |].
      apply hasId_true. exact Hid. }
  replace (existsb (fun r0 => _) (sql.users d)) with true.
  2:{ symmetry. apply existsb_exists. exists other. split; [exact Ho |].
      apply andb_true_iff. split; [apply hasEmail_true; exact Hoem |].
      apply negb_true_iff. unfold sql.hasId. apply Z.eqb_neq. exact Hoid. }
  reflexivity.
Qed.

End ServiceMore.

(** ** Logging in *)

Section LoginMore.

Variable hmac : jwt.SigningMethod -> string -> string -> string.
Variable hashPassword : string -> string * option error.
Variable checkPassword : string -> string -> bool.

(** The store after a registration, and what the lookup of [Login] finds
    in it. *)
Lemma register_fresh (req : pb.RegisterRequest) (d : sql.DB) :
  existsb (sql.hasEmail (pb.RegisterRequest_Email req)) (sql.users d)
  = false ->
  exists resp d',
    Register hashPassword req d = (inl resp, d')
    /\ sql.selectPasswordRole (pb.RegisterRequest_Email req) d'
       = inl (fst (hashPassword (pb.RegisterRequest_Password req)),
              registeredRole req).
Proof.
  intros Hfresh. unfold Register, sql.insertUser, registeredRole.
  destruct (hashPassword _) as [digest herr]. rewrite Hfresh.
  eexists. eexists. split; [reflexivity |].
  unfold sql.selectPasswordRole. cbn [sql.users].
  rewrite find_app_fresh; [reflexivity | exact Hfresh |].
  apply hasEmail_true. reflexivity.
Qed.

Lemma register_succeeded (req : pb.RegisterRequest) (d d' : sql.DB)
  (resp : pb.UserResponse) :
  Register hashPassword req d = (inl resp, d') ->
  existsb (sql.hasEmail (pb.RegisterRequest_Email req)) (sql.users d)
  = false.
Proof.
  unfold Register, sql.insertUser.
  destruct (hashPassword _) as [digest herr].
  destruct (existsb _ (sql.users d)); [discriminate | reflexivity].
Qed.

Lemma login_answer (req : pb.LoginRequest) (now : Z) (d : sql.DB)
  (storedHash role : string) :
  sql.selectPasswordRole (pb.LoginRequest_Email req) d
  = inl (storedHash, role) ->
  checkPassword (pb.LoginRequest_Password req) storedHash = true ->
  Login hmac checkPassword req now d
  = (inl {| pb.Token :=
              fst (generateToken hmac (pb.LoginRequest_Email req) role
                     now) |}, d).
Proof.
  intros Hsel Hpw. unfold Login. rewrite Hsel, Hpw. reflexivity.
Qed.

(** The token of a successful [Login], read back before its expiry. *)
Lemma login_token (req : pb.LoginRequest) (now t : Z) (d : sql.DB)
  (storedHash role : string) :
  sql.selectPasswordRole (pb.LoginRequest_Email req) d
  = inl (storedHash, role) ->
  checkPassword (pb.LoginRequest_Password req) storedHash = true ->
  - 2 ^ 63 <= now < 2 ^ 63 ->
  t < expiryOf now * Second ->
  Login hmac checkPassword req now d
  = (inl {| pb.Token :=
              fst (generateToken hmac (pb.LoginRequest_Email req) role
                     now) |}, d)
  /\ jwt.ParseWithClaims hmac
       (fst (generateToken hmac (pb.LoginRequest_Email req) role now))
       jwtKey t
     = {| jwt.Valid := true;
          jwt.claims := issued (asRunes (pb.LoginRequest_Email req))
                               (asRunes role) (expiryOf now);
          jwt.err := None |}.
Proof.
  intros Hsel Hpw Hnow Ht.
  split; [apply (login_answer req now d storedHash role Hsel Hpw) |].
  rewrite generateToken_signed.
  rewrite (parse_signed_runes hmac (pb.LoginRequest_Email req) role
             (expiryOf now) jwtKey t (expiry_in_range now Hnow)).
  unfold jwt.validate, issued. cbn [Registered ExpiresAt NotBefore].
  apply Z.ltb_lt in Ht. rewrite Ht. reflexivity.
Qed.

(** X8. A [Login] whose email has a row and whose password the stored hash
    accepts succeeds without touching the store, and the token it answers
    verifies, at any instant before its expiry, to the email of the request
    and the role of the row as JSON carries them, every byte that belongs
    to no valid UTF-8 encoding replaced by U+FFFD: to that very email and
    that very role when both are valid UTF-8, and never to anything else
    the caller sent. *)
Theorem login_issues_token_of_stored_role (req : pb.LoginRequest)
  (now t : Z) (d : sql.DB) (storedHash role : string) :
  sql.selectPasswordRole (pb.LoginRequest_Email req) d
  = inl (storedHash, role) ->
  checkPassword (pb.LoginRequest_Password req) storedHash = true ->
  - 2 ^ 63 <= now < 2 ^ 63 ->
  t < expiryOf now * Second ->
  exists token,
    Login hmac checkPassword req now d = (inl {| pb.Token := token |}, d)
    /\ jwt.ParseWithClaims hmac token jwtKey t
       = {| jwt.Valid := true;
            jwt.claims := issued (asRunes (pb.LoginRequest_Email req))
                                 (asRunes role) (expiryOf now);
            jwt.err := None |}
    /\ (ValidString (pb.LoginRequest_Email req) = true ->
        ValidString role = true ->
        jwt.ParseWithClaims hmac token jwtKey t
        = {| jwt.Valid := true;
             jwt.claims := issued (pb.LoginRequest_Email req) role
                                  (expiryOf now);
             jwt.err := None |}).
Proof.
  intros Hsel Hpw Hnow Ht.
  destruct (login_token req now t d storedHash role Hsel Hpw Hnow Ht)
    as [Hlogin Hparse].
  eexists. split; [exact Hlogin | split; [exact Hparse |]].
  intros He Hr. rewrite Hparse.
  rewrite (asRunes_valid _ He), (asRunes_valid _ Hr). reflexivity.
Qed.

(** X9. Register then log in: when [checkPassword] accepts the digest
    [hashPassword] makes of a password, a user that [Register] has just
    stored can log in with the same email and password, and the token
    carries the email and the role that was stored (the one of the
    request, or "user" when that was empty) as JSON carries them, every
    byte that belongs to no valid UTF-8 encoding replaced by U+FFFD: that
    very email and that very role when both are valid UTF-8. *)
Theorem registered_user_can_log_in (req : pb.RegisterRequest)
  (d d' : sql.DB) (resp : pb.UserResponse) (now t : Z) :
  Register hashPassword req d = (inl resp, d') ->
  checkPassword (pb.RegisterRequest_Password req)
                (fst (hashPassword (pb.RegisterRequest_Password req)))
  = true ->
  - 2 ^ 63 <= now < 2 ^ 63 ->
  t < expiryOf now * Second ->
  exists token,
    Login hmac checkPassword
      {| pb.LoginRequest_Email := pb.RegisterRequest_Email req;
         pb.LoginRequest_Password := pb.RegisterRequest_Password req |}
      now d'
    = (inl {| pb.Token := token |}, d')
    /\ jwt.ParseWithClaims hmac token jwtKey t
       = {| jwt.Valid := true;
            jwt.claims := issued (asRunes (pb.RegisterRequest_Email req))
                                 (asRunes (registeredRole req))
                                 (expiryOf now);
            jwt.err := None |}
    /\ (ValidString (pb.RegisterRequest_Email req) = true ->
        ValidString (registeredRole req) = true ->
        jwt.ParseWithClaims hmac token jwtKey t
        = {| jwt.Valid := true;
             jwt.claims := issued (pb.RegisterRequest_Email req)
                                  (registeredRole req) (expiryOf now);
             jwt.err := None |}).
Proof.
  intros Hreg Hpw Hnow Ht.
  destruct (register_fresh req d (register_succeeded req d d' resp Hreg))
    as (resp0 & d0 & Hreg0 & Hsel).
  rewrite Hreg in Hreg0. injection Hreg0 as _ <-.
  destruct (login_token
              {| pb.LoginRequest_Email := pb.RegisterRequest_Email req;
                 pb.LoginRequest_Password :=
                   pb.RegisterRequest_Password req |}
              now t d' (fst (hashPassword (pb.RegisterRequest_Password req)))
              (registeredRole req) Hsel Hpw Hnow Ht)
    as [Hlogin Hparse].
  cbn [pb.LoginRequest_Email] in Hlogin, Hparse.
  eexists. split; [exact Hlogin | split; [exact Hparse |]].
  intros He Hr. rewrite Hparse.
  rewrite (asRunes_valid _ He), (asRunes_valid _ Hr). reflexivity.
Qed.

End LoginMore.

(** ** The server as a whole *)

Section ServerFacts.

Variable hmac : jwt.SigningMethod -> string -> string -> string.
Variable upperTable lowerTable : Z -> Z.
Variable hashPassword : string -> string * option error.
Variable checkPassword : string -> string -> bool.

Local Abbreviation serve :=
  (Serve hmac upperTable lowerTable hashPassword checkPassword).
Local Abbreviation method :=
  (serviceMethod hmac hashPassword checkPassword).

Lemma crud_is_admin_only (req : Request) :
  isCRUD req = true ->
  map_bool_get publicMethods (methodOf req) = false
  /\ map_bool_get adminMethods (methodOf req) = true.
Proof.
  destruct req; cbn [isCRUD]; try discriminate; intros _;
    split; vm_compute; reflexivity.
Qed.

Lemma open_is_public (req : Request) :
  isCRUD req = false -> map_bool_get publicMethods (methodOf req) = true.
Proof.
  destruct req; cbn [isCRUD]; try discriminate; intros _;
    vm_compute; reflexivity.
Qed.

(** X18. On the server as it is wired, a token issued for valid UTF-8
    claims and presented before its expiry opens the four calls on records
    (create, get, update, delete) exactly when its role lower-cases to
    "admin": then the call is served as the method itself serves it;
    otherwise it fails with permission denied and the store is untouched.
    [Register] and [Login] are served as the methods serve them, whatever
    the context carries. *)
Theorem served_records_need_admin_token (email role : string)
  (issuedAt now : Z) (ctx : Context) (req : Request) (d : sql.DB)
  (md : gmap string (list string)) (presented : string)
  (more : list string) :
  ValidString email = true -> ValidString role = true ->
  - 2 ^ 63 <= issuedAt < 2 ^ 63 ->
  now < expiryOf issuedAt * Second ->
  presented = fst (generateToken hmac email role issuedAt)
  \/ presented = "Bearer " +:+ fst (generateToken hmac email role issuedAt) ->
  incomingMD ctx = Some md ->
  MD_get md "authorization" = presented :: more ->
  serve now ctx req d
  = if isCRUD req && negb (String.eqb (ToLower lowerTable role) "admin")
    then (inr (status_Errorf codes.PermissionDenied
                 "Access Denied: You are not an admin"), d)
    else method now ctx req d.
Proof.
  intros He Hr Hissued Hnow Hpres Hmd Hval. unfold Serve.
  destruct (isCRUD req) eqn:Hcrud.
  - destruct (crud_is_admin_only req Hcrud) as [Hpub Hadm].
    rewrite (issued_token_outcome hmac Request Response sql.DB upperTable
               lowerTable email role issuedAt now ctx req
               {| FullMethod := methodOf req |} (method now) d md presented
               more He Hr Hissued Hpres Hpub Hmd Hval).
    cbn [FullMethod]. rewrite Hadm. apply Z.ltb_lt in Hnow. rewrite Hnow.
    reflexivity.
  - unfold AuthInterceptor. cbn [FullMethod].
    rewrite (open_is_public req Hcrud). reflexivity.
Qed.

(** X19. Admin access is open to anyone: a caller with no credential can
    register a fresh email with the role "admin", log in with it, and
    present the token of that login to any of the four calls on records,
    which the server then serves as the method itself does. It takes that
    [checkPassword] accepts the digest [hashPassword] makes of the
    password, a valid UTF-8 email, and a presentation before the token
    expires. *)
Theorem anyone_can_register_as_admin (name email password : string)
  (d : sql.DB) (now : Z) :
  existsb (sql.hasEmail email) (sql.users d) = false ->
  checkPassword password (fst (hashPassword password)) = true ->
  ValidString email = true ->
  - 2 ^ 63 <= now < 2 ^ 63 ->
  exists resp d1 token,
    serve now {| incomingMD := None |}
      (RegisterReq {| pb.RegisterRequest_Name := name;
                      pb.RegisterRequest_Email := email;
                      pb.RegisterRequest_Password := password;
                      pb.RegisterRequest_Role := "admin" |}) d
    = (inl (UserResp resp), d1)
    /\ serve now {| incomingMD := None |}
         (LoginReq {| pb.LoginRequest_Email := email;
                      pb.LoginRequest_Password := password |}) d1
       = (inl (LoginResp {| pb.Token := token |}), d1)
    /\ forall later ctx req d2,
         later < expiryOf now * Second ->
         isCRUD req = true ->
         incomingMD ctx
         = Some (<["authorization" := ["Bearer " +:+ token]]> ∅) ->
         serve later ctx req d2 = method later ctx req d2.
Proof.
  intros Hfresh Hpw He Hnow.
  set (rreq := {| pb.RegisterRequest_Name := name;
                  pb.RegisterRequest_Email := email;
                  pb.RegisterRequest_Password := password;
                  pb.RegisterRequest_Role := "admin" |}).
  destruct (register_fresh hashPassword rreq d Hfresh)
    as (resp & d1 & Hreg & Hsel).
  pose proof (login_answer hmac checkPassword
                {| pb.LoginRequest_Email := email;
                   pb.LoginRequest_Password := password |}
                now d1 _ _ Hsel Hpw) as Hlogin.
  change (registeredRole rreq) with "admin" in Hlogin.
  cbn [pb.LoginRequest_Email] in Hlogin.
  exists resp, d1, (fst (generateToken hmac email "admin" now)).
  split; [| split].
  - unfold Serve, AuthInterceptor. cbn [FullMethod methodOf].
    change (map_bool_get publicMethods "/user.UserService/Register")
      with true.
    cbn [serviceMethod]. fold rreq. rewrite Hreg. reflexivity.
  - unfold Serve, AuthInterceptor. cbn [FullMethod methodOf].
    change (map_bool_get publicMethods "/user.UserService/Login") with true.
    cbn [serviceMethod]. rewrite Hlogin. reflexivity.
  - intros later ctx req d2 Hlater Hcrud Hmd.
    destruct (crud_is_admin_only req Hcrud) as [Hpub Hadm].
    unfold Serve.
    rewrite (issued_token_outcome hmac Request Response sql.DB upperTable
               lowerTable email "admin" now later ctx req
               {| FullMethod := methodOf req |} (method later) d2
               (<["authorization" :=
                    ["Bearer " +:+ fst (generateToken hmac email "admin"
                                          now)]]> ∅)
               ("Bearer " +:+ fst (generateToken hmac email "admin" now))
               [] He eq_refl Hnow (or_intror eq_refl) Hpub Hmd eq_refl).
    cbn [FullMethod]. rewrite Hadm. apply Z.ltb_lt in Hlater.
    rewrite Hlater. reflexivity.
Qed.

End ServerFacts.

(** ** The gateway *)

Section GatewayFacts.

Import http gateway.

Variable World : Type.
Variable client_CreateUser :
  pb.CreateUserRequest -> World -> (pb.UserResponse + string) * World.
Variable client_GetUser :
  pb.GetUserRequest -> World -> (pb.UserResponse + string) * World.
Variable client_UpdateUser :
  pb.UpdateUserRequest -> World -> (pb.UserResponse + string) * World.
Variable client_DeleteUser :
  pb.DeleteUserRequest -> World -> (pb.DeleteUserResponse + string) * World.
Variable decodeNameEmail : string -> (string * string) + string.
Variable marshalUser : pb.User -> string.

Local Abbreviation users :=
  (usersRoute World client_CreateUser decodeNameEmail marshalUser).
Local Abbreviation user :=
  (userRoute World client_GetUser client_UpdateUser client_DeleteUser
     decodeNameEmail marshalUser).

Lemma idOfPath_prefixed (idStr : string) :
  idOfPath ("/api/users/" +:+ idStr) = Some idStr.
Proof. reflexivity. Qed.

(** X20. On the route of one user, a GET, PUT or DELETE whose path does not
    end in a decimal integer of the range of [int] (an empty id, letters, a
    number too large) is answered 400 "Invalid user ID" with the CORS
    headers; the service is not called, and for a PUT the body is not even
    read. *)
Theorem gateway_rejects_bad_id (w : ResponseWriter) (r : Request)
  (s : World) (idStr : string) :
  Path r = "/api/users/" +:+ idStr ->
  strconv.Atoi idStr = None ->
  Method r = "GET" \/ Method r = "PUT" \/ Method r = "DELETE" ->
  user w r s = Some (Error "Invalid user ID" 400 (enableCORS w), s).
Proof.
  intros Hpath Hbad Hm. unfold userRoute.
  destruct Hm as [Hm | [Hm | Hm]]; rewrite Hm; cbn [String.eqb Ascii.eqb
    Bool.eqb andb];
    unfold GetUserHandler, UpdateUserHandler, DeleteUserHandler;
    rewrite Hm, Hpath, idOfPath_prefixed, Hbad; reflexivity.
Qed.

Lemma int32_congruent (n m : Z) :
  (n - m) mod 2 ^ 32 = 0 -> int32 n = int32 m.
Proof.
  intros H. unfold int32. f_equal.
  apply Z.mod_divide in H; [| lia]. destruct H as [k Hk].
  replace (n + 2 ^ 31) with (m + 2 ^ 31 + k * 2 ^ 32) by lia.
  apply Z.mod_add. lia.
Qed.

(** X21. The gateway converts the id of the path to [int32] without a
    check: two ids that differ by a multiple of 2^32 address the same user,
    so that the requests are answered alike, whatever the service does. *)
Theorem gateway_ids_wrap (w : ResponseWriter) (r1 r2 : Request) (s : World)
  (id1 id2 : string) (n m : Z) :
  Path r1 = "/api/users/" +:+ id1 ->
  Path r2 = "/api/users/" +:+ id2 ->
  Method r1 = Method r2 -> Body r1 = Body r2 ->
  strconv.Atoi id1 = Some n -> strconv.Atoi id2 = Some m ->
  (n - m) mod 2 ^ 32 = 0 ->
  user w r1 s = user w r2 s.
Proof.
  intros Hp1 Hp2 Hm Hb Hn Hmm Hcong.
  unfold userRoute, GetUserHandler, UpdateUserHandler, DeleteUserHandler.
  rewrite Hm, Hb, Hp1, Hp2, !idOfPath_prefixed, Hn, Hmm.
  rewrite (int32_congruent n m Hcong). reflexivity.
Qed.

Lemma hasCORS_enable (w : ResponseWriter) : hasCORS (enableCORS w).
Proof.
  unfold hasCORS, enableCORS, Header_Set. cbn [Header].
  repeat split; simplify_map_eq; reflexivity.
Qed.

Lemma hasCORS_Error (msg : string) (code : Z) (w : ResponseWriter) :
  hasCORS w -> hasCORS (Error msg code w).
Proof.
  unfold hasCORS, Error, Write, WriteHeader, Header_Set, Header_Del.
  intros (H1 & H2 & H3). cbn [Status Header].
  destruct (Status w); cbn [Header];
    rewrite !lookup_insert_ne by discriminate;
    rewrite !lookup_delete_ne by discriminate; auto.
Qed.

Lemma hasCORS_json (text : string) (w : ResponseWriter) :
  hasCORS w ->
  hasCORS (Encode text (Header_Set "Content-Type" "application/json" w))
  /\ hasCORS (Encode text
               (WriteHeader 201
                 (Header_Set "Content-Type" "application/json" w))).
Proof.
  unfold hasCORS, Encode, Write, WriteHeader, Header_Set.
  intros (H1 & H2 & H3). cbn [Status Header].
  destruct (Status w); cbn [Header];
    rewrite !lookup_insert_ne by discriminate; auto.
Qed.

Ltac cors_cases :=
  repeat match goal with
  | |- context [match ?x with _ => _ end] => destruct x
  | |- Some _ = Some _ -> _ => intros [= <- <-]
  | |- None = Some _ -> _ => discriminate
  end;
  auto using hasCORS_enable, hasCORS_Error;
  try (apply hasCORS_json; apply hasCORS_enable).

(** X22. The answers of the two routes carry the three CORS headers
    whenever the method is one the route serves (OPTIONS and POST on
    "/api/users"; OPTIONS, GET, PUT and DELETE on "/api/users/"), whether
    the call succeeded or failed. For any other method the route itself
    answers 405 "Method not allowed" without calling the service, and on a
    fresh writer that answer has no CORS header. *)
Theorem gateway_cors_on_served_methods (w : ResponseWriter) (r : Request)
  (s : World) :
  (forall w' s',
     Method r = "OPTIONS" \/ Method r = "POST" ->
     users w r s = Some (w', s') -> hasCORS w')
  /\ (forall w' s',
      Method r = "OPTIONS" \/ Method r = "GET" \/ Method r = "PUT"
      \/ Method r = "DELETE" ->
      user w r s = Some (w', s') -> hasCORS w')
  /\ (Method r <> "OPTIONS" -> Method r <> "POST" ->
      users newWriter r s
      = Some (Error "Method not allowed" 405 newWriter, s))
  /\ (Method r <> "OPTIONS" -> Method r <> "GET" -> Method r <> "PUT" ->
      Method r <> "DELETE" ->
      user newWriter r s
      = Some (Error "Method not allowed" 405 newWriter, s))
  /\ Header (Error "Method not allowed" 405 newWriter)
     !! "Access-Control-Allow-Origin" = None.
Proof.
  split; [| split; [| split; [| split]]].
  - intros w' s' Hm. unfold usersRoute, handleOptions, CreateUserHandler.
    destruct Hm as [Hm | Hm]; rewrite Hm;
      cbn [String.eqb Ascii.eqb Bool.eqb andb negb];
      [intros [= <- <-]; unfold hasCORS, WriteHeader;
       destruct (Status (enableCORS w)); apply hasCORS_enable |].
    cors_cases.
  - intros w' s' Hm.
    unfold userRoute, handleOptions, GetUserHandler, UpdateUserHandler,
      DeleteUserHandler.
    destruct Hm as [Hm | [Hm | [Hm | Hm]]]; rewrite Hm;
      cbn [String.eqb Ascii.eqb Bool.eqb andb negb];
      [intros [= <- <-]; unfold hasCORS, WriteHeader;
       destruct (Status (enableCORS w)); apply hasCORS_enable | ..];
      cors_cases.
  - intros H1 H2. unfold usersRoute.
    apply String.eqb_neq in H1, H2. rewrite H1, H2. reflexivity.
  - intros H1 H2 H3 H4. unfold userRoute.
    apply String.eqb_neq in H1, H2, H3, H4. rewrite H1, H2, H3, H4.
    reflexivity.
  - reflexivity.
Qed.

(** X23. A request that reaches the route of one user, whose path then
    begins with "/api/users/", never makes a handler panic on the slice of
    the path: the route always answers. *)
Theorem gateway_route_answers (w : ResponseWriter) (r : Request) (s : World)
  (rest : string) :
  Path r = "/api/users/" +:+ rest ->
  exists w' s', user w r s = Some (w', s').
Proof.
  intros Hpath.
  unfold userRoute, handleOptions, GetUserHandler, UpdateUserHandler,
    DeleteUserHandler.
  rewrite Hpath, idOfPath_prefixed.
  repeat match goal with
  | |- context [match ?x with _ => _ end] => destruct x
  end; eauto.
Qed.

End GatewayFacts.

(** ** The further statements at concrete calls *)

Lemma invalid_token_rejected_witness :
  AuthInterceptor noCase noCase unit unit nat (acceptsOnly "good")
    (withAuthorization ["garbage"]) tt
    {| FullMethod := "/user.UserService/GetUser" |} countingHandler 0%nat
  = (inr (status_Errorf codes.Unauthenticated "invalid token"), 0%nat).
Proof.
  apply (invalid_token_rejected unit unit nat noCase noCase
           (acceptsOnly "good") (withAuthorization ["garbage"]) tt
           {| FullMethod := "/user.UserService/GetUser" |} countingHandler
           0%nat (<["authorization" := ["garbage"]]> ∅) "garbage" []).
  - reflexivity.
  - reflexivity.
  - reflexivity.
  - right. reflexivity.
Defined.

Lemma other_methods_need_any_role_witness :
  map_bool_get adminMethods "/user.UserService/ListUsers" = false
  /\ AuthInterceptor noCase noCase unit unit nat (acceptsAll "guest")
       (withAuthorization ["t"]) tt
       {| FullMethod := "/user.UserService/ListUsers" |} countingHandler
       0%nat
     = (inl tt, 1%nat).
Proof.
  split; [reflexivity |].
  apply (other_methods_need_any_role unit unit nat noCase noCase
           (acceptsAll "guest") (withAuthorization ["t"]) tt
           {| FullMethod := "/user.UserService/ListUsers" |} countingHandler
           0%nat (<["authorization" := ["t"]]> ∅) "t" []);
    reflexivity.
Defined.

Lemma issued_token_gated_by_role_witness :
  AuthInterceptor noCase noCase unit unit nat
    (verifierAt toyHmac (3600 * Second))
    (withAuthorization ["Bearer " +:+ userToken]) tt
    {| FullMethod := "/user.UserService/DeleteUser" |} countingHandler 0%nat
  = (inr (status_Errorf codes.PermissionDenied
            "Access Denied: You are not an admin"), 0%nat).
Proof.
  apply (issued_token_gated_by_role toyHmac unit unit nat noCase noCase
           "john@x.com" "user" 0 (3600 * Second)
           (withAuthorization ["Bearer " +:+ userToken]) tt
           {| FullMethod := "/user.UserService/DeleteUser" |}
           countingHandler 0%nat
           (<["authorization" := ["Bearer " +:+ userToken]]> ∅)
           ("Bearer " +:+ userToken) []).
  - reflexivity.
  - reflexivity.
  - split; [discriminate | reflexivity].
  - reflexivity.
  - right. reflexivity.
  - reflexivity.
  - reflexivity.
  - reflexivity.
Defined.

Lemma issued_token_expires_witness :
  ValidString (String "255"%char EmptyString) = false
  /\ AuthInterceptor noCase noCase unit unit nat
       (verifierAt toyHmac (86400 * Second))
       (withAuthorization
          [fst (generateToken toyHmac "john@x.com"
                  (String "255"%char EmptyString) 0)]) tt
       {| FullMethod := "/user.UserService/GetUser" |} countingHandler 0%nat
     = (inr (status_Errorf codes.Unauthenticated "invalid token"), 0%nat).
Proof.
  split; [reflexivity |].
  assert (Hat : - 2 ^ 63 <= 0 < 2 ^ 63)
    by (split; [discriminate | reflexivity]).
  assert (Hlate : expiryOf 0 * Second <= 86400 * Second) by discriminate.
  apply (issued_token_expires toyHmac unit unit nat noCase noCase
           "john@x.com" (String "255"%char EmptyString) 0 (86400 * Second)
           (withAuthorization
              [fst (generateToken toyHmac "john@x.com"
                      (String "255"%char EmptyString) 0)]) tt
           {| FullMethod := "/user.UserService/GetUser" |}
           countingHandler 0%nat
           (<["authorization" :=
                [fst (generateToken toyHmac "john@x.com"
                        (String "255"%char EmptyString) 0)]]> ∅)
           (fst (generateToken toyHmac "john@x.com"
                   (String "255"%char EmptyString) 0)) [] Hat Hlate).
  - left. reflexivity.
  - reflexivity.
  - reflexivity.
  - reflexivity.
Defined.

Lemma issued_tokens_injective_witness :
  fst (generateToken toyHmac "john@x.com" "user" 0)
  = fst (generateToken toyHmac "john@x.com" "user" 999)
  /\ expiryOf 0 = expiryOf 999.
Proof.
  assert (Hsame : fst (generateToken toyHmac "john@x.com" "user" 0)
                  = fst (generateToken toyHmac "john@x.com" "user" 999))
    by (vm_compute; reflexivity).
  split; [exact Hsame |].
  apply (issued_tokens_injective toyHmac "john@x.com" "user" "john@x.com"
           "user" 0 999); try exact Hsame; try reflexivity;
    split; (discriminate || reflexivity).
Defined.

Lemma login_issues_token_of_stored_role_witness :
  exists token,
    Login toyHmac toyCheck
      {| pb.LoginRequest_Email := "john@x.com";
         pb.LoginRequest_Password := "pw123" |} 0 oneUser
    = (inl {| pb.Token := token |}, oneUser)
    /\ jwt.ParseWithClaims toyHmac token jwtKey (3600 * Second)
       = {| jwt.Valid := true;
            jwt.claims := issued "john@x.com" "user" 86400;
            jwt.err := None |}.
Proof.
  assert (Hat : - 2 ^ 63 <= 0 < 2 ^ 63)
    by (split; [discriminate | reflexivity]).
  assert (Hnow : 3600 * Second < expiryOf 0 * Second) by reflexivity.
  destruct (login_issues_token_of_stored_role toyHmac toyCheck
              {| pb.LoginRequest_Email := "john@x.com";
                 pb.LoginRequest_Password := "pw123" |}
              0 (3600 * Second) oneUser "digest:pw123" "user"
              eq_refl eq_refl Hat Hnow)
    as (token & Hlogin & _ & Hvalid).
  exists token. split; [exact Hlogin |].
  apply Hvalid; reflexivity.
Defined.

Lemma registered_user_can_log_in_witness :
  let req := {| pb.RegisterRequest_Name := "John";
                pb.RegisterRequest_Email := "john@x.com";
                pb.RegisterRequest_Password := "pw123";
                pb.RegisterRequest_Role := EmptyString |} in
  let empty := {| sql.users := []; sql.users_id_seq := 0 |} in
  snd (Register toyHash req empty) = oneUser
  /\ exists token,
       Login toyHmac toyCheck
         {| pb.LoginRequest_Email := "john@x.com";
            pb.LoginRequest_Password := "pw123" |} 0 oneUser
       = (inl {| pb.Token := token |}, oneUser)
       /\ jwt.ParseWithClaims toyHmac token jwtKey (3600 * Second)
          = {| jwt.Valid := true;
               jwt.claims := issued "john@x.com" "user" 86400;
               jwt.err := None |}.
Proof.
  intros req empty. split; [reflexivity |].
  assert (Hat : - 2 ^ 63 <= 0 < 2 ^ 63)
    by (split; [discriminate | reflexivity]).
  assert (Hnow : 3600 * Second < expiryOf 0 * Second) by reflexivity.
  destruct (registered_user_can_log_in toyHmac toyHash toyCheck req empty
              oneUser
              {| pb.User_ := {| pb.Id := 1; pb.Name := "John";
                                pb.Email := "john@x.com";
                                pb.Role := "user" |} |}
              0 (3600 * Second) eq_refl eq_refl Hat Hnow)
    as (token & Hlogin & _ & Hvalid).
  exists token. split; [exact Hlogin |].
  apply Hvalid; reflexivity.
Defined.

Lemma duplicate_email_is_internal_witness :
  let req := {| pb.CreateUserRequest_Name := "Johnny";
                pb.CreateUserRequest_Email := "john@x.com";
                pb.CreateUserRequest_Role := "admin" |} in
  existsb (sql.hasEmail "john@x.com") (sql.users oneUser) = true
  /\ sql.users (snd (CreateUser req oneUser)) = sql.users oneUser.
Proof.
  intros req. split; [reflexivity |].
  apply (proj1 (duplicate_email_is_internal toyHash oneUser) req).
  reflexivity.
Defined.

Lemma wellFormed_twoUsers : wellFormed twoUsers.
Proof.
  unfold wellFormed, twoUsers. cbn. split; [| split].
  - repeat constructor; cbn; intuition discriminate.
  - repeat constructor; cbn; intuition discriminate.
  - repeat constructor; cbn; lia.
Qed.

Lemma service_keeps_table_constraints_witness :
  wellFormed
    (snd (UpdateUser {| pb.UpdateUserRequest_Id := 2;
                        pb.UpdateUserRequest_Name := "Janet";
                        pb.UpdateUserRequest_Email := "janet@x.com" |}
            twoUsers)).
Proof.
  apply (service_keeps_table_constraints toyHmac toyHash toyCheck twoUsers
           wellFormed_twoUsers).
Defined.

Lemma created_user_is_found_witness :
  let req := {| pb.CreateUserRequest_Name := "Ann";
                pb.CreateUserRequest_Email := "ann@x.com";
                pb.CreateUserRequest_Role := EmptyString |} in
  GetUser {| pb.GetUserRequest_Id := 3 |} (snd (CreateUser req twoUsers))
  = (inl {| pb.User_ := {| pb.Id := 3; pb.Name := "Ann";
                           pb.Email := "ann@x.com";
                           pb.Role := EmptyString |} |},
     snd (CreateUser req twoUsers)).
Proof.
  intros req.
  assert (Hseq : - 2 ^ 31 <= sql.users_id_seq twoUsers + 1 < 2 ^ 31)
    by (split; [discriminate | reflexivity]).
  apply (proj1 (created_user_is_found toyHash twoUsers wellFormed_twoUsers
                  Hseq) req
           {| pb.User_ := {| pb.Id := 3; pb.Name := "Ann";
                             pb.Email := "ann@x.com";
                             pb.Role := EmptyString |} |}
           (snd (CreateUser req twoUsers))).
  reflexivity.
Defined.

Lemma updated_user_is_found_witness :
  GetUser {| pb.GetUserRequest_Id := 2 |}
    (snd (UpdateUser {| pb.UpdateUserRequest_Id := 2;
                        pb.UpdateUserRequest_Name := "Janet";
                        pb.UpdateUserRequest_Email := "janet@x.com" |}
            twoUsers))
  = (inl {| pb.User_ := {| pb.Id := 2; pb.Name := "Janet";
                           pb.Email := "janet@x.com";
                           pb.Role := "admin" |} |},
     snd (UpdateUser {| pb.UpdateUserRequest_Id := 2;
                        pb.UpdateUserRequest_Name := "Janet";
                        pb.UpdateUserRequest_Email := "janet@x.com" |}
            twoUsers)).
Proof.
  apply (proj1 (updated_user_is_found
                  {| pb.UpdateUserRequest_Id := 2;
                     pb.UpdateUserRequest_Name := "Janet";
                     pb.UpdateUserRequest_Email := "janet@x.com" |}
                  twoUsers _
                  (echoUpdate
                     {| pb.UpdateUserRequest_Id := 2;
                        pb.UpdateUserRequest_Name := "Janet";
                        pb.UpdateUserRequest_Email := "janet@x.com" |})
                  {| sql.id := 2; sql.name := "Jane";
                     sql.email := "jane@x.com";
                     sql.password := None; sql.role := "admin" |}
                  eq_refl eq_refl)).
Defined.

Lemma update_to_taken_email_fails_witness :
  UpdateUser {| pb.UpdateUserRequest_Id := 2;
                pb.UpdateUserRequest_Name := "Jane";
                pb.UpdateUserRequest_Email := "john@x.com" |} twoUsers
  = (inr (raw_error ErrUniqueViolation), twoUsers).
Proof.
  apply (update_to_taken_email_fails
           {| pb.UpdateUserRequest_Id := 2;
              pb.UpdateUserRequest_Name := "Jane";
              pb.UpdateUserRequest_Email := "john@x.com" |} twoUsers
           {| sql.id := 2; sql.name := "Jane"; sql.email := "jane@x.com";
              sql.password := None; sql.role := "admin" |}
           {| sql.id := 1; sql.name := "John"; sql.email := "john@x.com";
              sql.password := Some "digest:pw123"; sql.role := "user" |}).
  - right. left. reflexivity.
  - left. reflexivity.
  - reflexivity.
  - discriminate.
  - reflexivity.
Defined.

Lemma served_records_need_admin_token_witness :
  Serve toyHmac noCase noCase toyHash toyCheck (3600 * Second)
    (withAuthorization ["Bearer " +:+ userToken])
    (DeleteUserReq {| pb.DeleteUserRequest_Id := 2 |}) twoUsers
  = (inr (status_Errorf codes.PermissionDenied
            "Access Denied: You are not an admin"), twoUsers).
Proof.
  assert (Hat : - 2 ^ 63 <= 0 < 2 ^ 63)
    by (split; [discriminate | reflexivity]).
  assert (Hnow : 3600 * Second < expiryOf 0 * Second) by reflexivity.
  rewrite (served_records_need_admin_token toyHmac noCase noCase toyHash
             toyCheck "john@x.com" "user" 0 (3600 * Second)
             (withAuthorization ["Bearer " +:+ userToken])
             (DeleteUserReq {| pb.DeleteUserRequest_Id := 2 |}) twoUsers
             (<["authorization" := ["Bearer " +:+ userToken]]> ∅)
             ("Bearer " +:+ userToken) [] eq_refl eq_refl Hat Hnow
             (or_intror eq_refl) eq_refl eq_refl).
  reflexivity.
Defined.

Lemma anyone_can_register_as_admin_witness :
  exists resp d1 token,
    Serve toyHmac noCase noCase toyHash toyCheck 0 {| incomingMD := None |}
      (RegisterReq {| pb.RegisterRequest_Name := "Eve";
                      pb.RegisterRequest_Email := "eve@x.com";
                      pb.RegisterRequest_Password := "secret";
                      pb.RegisterRequest_Role := "admin" |}) twoUsers
    = (inl (UserResp resp), d1)
    /\ Serve toyHmac noCase noCase toyHash toyCheck 0
         {| incomingMD := None |}
         (LoginReq {| pb.LoginRequest_Email := "eve@x.com";
                      pb.LoginRequest_Password := "secret" |}) d1
       = (inl (LoginResp {| pb.Token := token |}), d1)
    /\ Serve toyHmac noCase noCase toyHash toyCheck (3600 * Second)
         (withAuthorization ["Bearer " +:+ token])
         (DeleteUserReq {| pb.DeleteUserRequest_Id := 1 |}) d1
       = serviceMethod toyHmac toyHash toyCheck (3600 * Second)
           (withAuthorization ["Bearer " +:+ token])
           (DeleteUserReq {| pb.DeleteUserRequest_Id := 1 |}) d1.
Proof.
  assert (Hnow : - 2 ^ 63 <= 0 < 2 ^ 63)
    by (split; [discriminate | reflexivity]).
  destruct (anyone_can_register_as_admin toyHmac noCase noCase toyHash
              toyCheck "Eve" "eve@x.com" "secret" twoUsers 0
              eq_refl eq_refl eq_refl Hnow)
    as (resp & d1 & token & Hreg & Hlogin & Hcrud).
  exists resp, d1, token. split; [exact Hreg | split; [exact Hlogin |]].
  apply Hcrud; reflexivity.
Defined.

Lemma gateway_rejects_bad_id_witness :
  strconv.Atoi "abc" = None
  /\ gateway.userRoute unit outOfReach outOfReach outOfReach undecodable
       noText http.newWriter
       {| http.Method := "PUT"; http.Path := "/api/users/abc";
          http.Body := EmptyString |} tt
     = Some (http.Error "Invalid user ID" 400
               (gateway.enableCORS http.newWriter), tt).
Proof.
  split; [reflexivity |].
  apply (gateway_rejects_bad_id unit outOfReach outOfReach outOfReach
           undecodable noText http.newWriter
           {| http.Method := "PUT"; http.Path := "/api/users/abc";
              http.Body := EmptyString |} tt "abc");
    [reflexivity | reflexivity | right; left; reflexivity].
Defined.

Lemma gateway_ids_wrap_witness :
  strconv.Atoi "1" = Some 1
  /\ strconv.Atoi "4294967297" = Some 4294967297
  /\ gateway.userRoute unit echoUser outOfReach outOfReach undecodable
       idText http.newWriter
       {| http.Method := "GET"; http.Path := "/api/users/4294967297";
          http.Body := EmptyString |} tt
     = gateway.userRoute unit echoUser outOfReach outOfReach undecodable
         idText http.newWriter
         {| http.Method := "GET"; http.Path := "/api/users/1";
            http.Body := EmptyString |} tt
  /\ option_map (fun a => http.Written (fst a))
       (gateway.userRoute unit echoUser outOfReach outOfReach undecodable
          idText http.newWriter
          {| http.Method := "GET"; http.Path := "/api/users/4294967297";
             http.Body := EmptyString |} tt)
     = Some ("1" +:+ http.newline).
Proof.
  split; [reflexivity | split; [reflexivity | split; [| reflexivity]]].
  apply (gateway_ids_wrap unit echoUser outOfReach outOfReach undecodable
           idText http.newWriter
           {| http.Method := "GET"; http.Path := "/api/users/4294967297";
              http.Body := EmptyString |}
           {| http.Method := "GET"; http.Path := "/api/users/1";
              http.Body := EmptyString |} tt
           "4294967297" "1" 4294967297 1); reflexivity.
Defined.

Lemma gateway_route_answers_witness :
  exists w' s',
    gateway.userRoute unit outOfReach outOfReach outOfReach undecodable
      noText http.newWriter
      {| http.Method := "DELETE"; http.Path := "/api/users/";
         http.Body := EmptyString |} tt
    = Some (w', s').
Proof.
  apply (gateway_route_answers unit outOfReach outOfReach outOfReach
           undecodable noText http.newWriter
           {| http.Method := "DELETE"; http.Path := "/api/users/";
              http.Body := EmptyString |} tt EmptyString).
  reflexivity.
Defined.

Lemma deleted_user_is_gone_witness :
  let d' := snd (DeleteUser {| pb.DeleteUserRequest_Id := 1 |} twoUsers) in
  fst (GetUser {| pb.GetUserRequest_Id := 1 |} d')
  = inr (status_Errorf codes.NotFound "user not found")
  /\ fst (GetUser {| pb.GetUserRequest_Id := 2 |} d')
     = inl {| pb.User_ := {| pb.Id := 2; pb.Name := "Jane";
                             pb.Email := "jane@x.com";
                             pb.Role := "admin" |} |}.
Proof.
  intros d'. split.
  - apply (proj1 (deleted_user_is_gone 1 twoUsers)).
  - unfold d'.
    rewrite (proj2 (deleted_user_is_gone 1 twoUsers) 2 ltac:(discriminate)).
    reflexivity.
Defined.

Lemma get_user_finds_or_not_found_witness :
  sql.rowsWithId 3 twoUsers = 0%nat
  /\ GetUser {| pb.GetUserRequest_Id := 3 |} twoUsers
     = (inr (status_Errorf codes.NotFound "user not found"), twoUsers)
  /\ GetUser {| pb.GetUserRequest_Id := 1 |} twoUsers
     = (inl {| pb.User_ := {| pb.Id := 1; pb.Name := "John";
                              pb.Email := "john@x.com";
                              pb.Role := "user" |} |}, twoUsers).
Proof.
  split; [reflexivity | split].
  - apply (proj1 (proj1 (get_user_finds_or_not_found
                           {| pb.GetUserRequest_Id := 3 |} twoUsers))).
    reflexivity.
  - apply (proj1 (proj2 (get_user_finds_or_not_found
                           {| pb.GetUserRequest_Id := 1 |} twoUsers))
             {| sql.id := 1; sql.name := "John"; sql.email := "john@x.com";
                sql.password := Some "digest:pw123"; sql.role := "user" |}).
    reflexivity.
Defined.

Lemma gateway_cors_on_served_methods_witness :
  hasCORS (gateway.handleOptions http.newWriter
             {| http.Method := "OPTIONS"; http.Path := "/api/users";
                http.Body := EmptyString |})
  /\ gateway.usersRoute unit outOfReach undecodable noText http.newWriter
       {| http.Method := "PATCH"; http.Path := "/api/users";
          http.Body := EmptyString |} tt
     = Some (http.Error "Method not allowed" 405 http.newWriter, tt).
Proof.
  pose proof (gateway_cors_on_served_methods unit outOfReach outOfReach
                outOfReach outOfReach undecodable noText http.newWriter)
    as H.
  split.
  - apply (proj1 (H {| http.Method := "OPTIONS"; http.Path := "/api/users";
                       http.Body := EmptyString |} tt)
             (gateway.handleOptions http.newWriter
                {| http.Method := "OPTIONS"; http.Path := "/api/users";
                   http.Body := EmptyString |}) tt);
      [left; reflexivity | reflexivity].
  - apply (proj1 (proj2 (proj2
             (H {| http.Method := "PATCH"; http.Path := "/api/users";
                   http.Body := EmptyString |} tt)))); discriminate.
Defined.
